(** * Salesforce CSV uploader: CSV processing and bulk-job monitoring

    A shallow embedding of [src/csv-processor.js] (class [CSVProcessor]) and
    of the monitoring loop of [src/salesforce-api.js]
    ([SalesforceAPI.performBulkUpload]), with the properties of the design
    document stated over it.

    Modelling conventions.
    - A JavaScript string is a [string] of code units; the embedding covers
      the code units 0..255 (Latin-1), where [trim], [toLowerCase] and the
      regular-expression classes [\s] and [\d] are written out in full.
    - A plain JavaScript object used as a dictionary is an insertion-ordered
      table of its own properties ([JSObject]): enumeration gives array-index
      keys first, in ascending order, then the other keys in insertion order.
      Its prototype is [Object.prototype]: a read [o[k]] of a name the object
      does not own is resolved there (eleven methods and the accessor
      [__proto__]), and an assignment [o[k] = v] to [__proto__] goes to the
      setter of that accessor instead of creating a property.
    - [this.mappings] is a reference into a store of objects, so that the
      copy made by [getMappings] and the original can be told apart.
    - The scores 0, 0.6, 0.7, 0.8, 0.9 and 1.0 are rationals; the code only
      compares them and takes maxima. *)

From Stdlib Require Import Ascii String QArith Lqa.
From stdpp Require Import base list strings gmap.

Open Scope string_scope.
Open Scope list_scope.
Open Scope nat_scope.

(** ** Code units and string primitives *)

Module JSString.

Definition dquote : ascii := "034"%char.
Definition comma : ascii := ","%char.
Definition LF : ascii := "010"%char.

Definition str1 (c : ascii) : string := String c EmptyString.

(** WhiteSpace and LineTerminator code units below 256: TAB, LF, VT, FF,
    CR, SP and NBSP.  This is the set removed by [String.prototype.trim] and
    matched by [\s]. *)
Definition isWhiteSpace (c : ascii) : bool :=
  let n := nat_of_ascii c in
  ((9 <=? n) && (n <=? 13)) || (n =? 32) || (n =? 160).

Definition isDigit (c : ascii) : bool :=
  let n := nat_of_ascii c in (48 <=? n) && (n <=? 57).

Definition isLowerAlpha (c : ascii) : bool :=
  let n := nat_of_ascii c in (97 <=? n) && (n <=? 122).

Definition isAlpha (c : ascii) : bool :=
  let n := nat_of_ascii c in
  ((65 <=? n) && (n <=? 90)) || ((97 <=? n) && (n <=? 122)).

(** [toLowerCase] on one code unit: A-Z, and the Latin-1 capitals
    U+00C0..U+00DE except the multiplication sign U+00D7. *)
Definition lowerChar (c : ascii) : ascii :=
  let n := nat_of_ascii c in
  if ((65 <=? n) && (n <=? 90))
     || ((192 <=? n) && (n <=? 222) && negb (n =? 215))
  then ascii_of_nat (n + 32) else c.

Fixpoint toLowerCase (s : string) : string :=
  match s with
  | EmptyString => EmptyString
  | String c r => String (lowerChar c) (toLowerCase r)
  end.

Fixpoint trimStart (s : string) : string :=
  match s with
  | EmptyString => EmptyString
  | String c r => if isWhiteSpace c then trimStart r else s
  end.

Fixpoint trimEnd (s : string) : string :=
  match s with
  | EmptyString => EmptyString
  | String c r =>
      match trimEnd r with
      | EmptyString => if isWhiteSpace c then EmptyString else str1 c
      | r' => String c r'
      end
  end.

Definition trim (s : string) : string := trimEnd (trimStart s).

(** A string with no white space at its first position. *)
Definition noLeadingSpace (s : string) : Prop :=
  match s with
  | EmptyString => True
  | String c _ => isWhiteSpace c = false
  end.

Definition isEmpty (s : string) : bool :=
  match s with EmptyString => true | _ => false end.

(** [s.includes(c)] for a one-character needle. *)
Fixpoint includesChar (c : ascii) (s : string) : bool :=
  match s with
  | EmptyString => false
  | String d r => Ascii.eqb c d || includesChar c r
  end.

Fixpoint startsWith (p s : string) : bool :=
  match p, s with
  | EmptyString, _ => true
  | String a p', String b s' => Ascii.eqb a b && startsWith p' s'
  | String _ _, EmptyString => false
  end.

(** [s.includes(p)]. *)
Fixpoint includes (p s : string) : bool :=
  startsWith p s ||
  match s with
  | EmptyString => false
  | String _ r => includes p r
  end.

Fixpoint endsWith (p s : string) : bool :=
  String.eqb p s ||
  match s with
  | EmptyString => false
  | String _ r => endsWith p r
  end.

(** Characters of [s] satisfying [keep], in order: the effect of
    [s.replace(/[^...]/g, '')] for a negated class. *)
Fixpoint filterChars (keep : ascii -> bool) (s : string) : string :=
  match s with
  | EmptyString => EmptyString
  | String c r =>
      if keep c then String c (filterChars keep r) else filterChars keep r
  end.

Fixpoint allChars (p : ascii -> bool) (s : string) : bool :=
  match s with
  | EmptyString => true
  | String c r => p c && allChars p r
  end.

(** [s.split('\n')]: never the empty array. *)
Fixpoint splitLF (s : string) : list string :=
  match s with
  | EmptyString => [EmptyString]
  | String c r =>
      if Ascii.eqb c LF then EmptyString :: splitLF r
      else match splitLF r with
           | l :: ls => String c l :: ls
           | [] => [str1 c]
           end
  end.

(** [parts.join(sep)]. *)
Fixpoint join (sep : string) (parts : list string) : string :=
  match parts with
  | [] => EmptyString
  | [p] => p
  | p :: ps => p +:+ sep +:+ join sep ps
  end.

(** [arr.includes(x)] on an array of strings. *)
Definition arrIncludes (x : string) (arr : list string) : bool :=
  existsb (String.eqb x) arr.

End JSString.
Import JSString.

(** ** Plain objects as ordered property tables *)

Module JSObject.

(** Entries are kept in enumeration order. *)
Definition t (V : Type) : Type := list (string * V).

Fixpoint digitsValue (acc : N) (s : string) : option N :=
  match s with
  | EmptyString => Some acc
  | String c r =>
      if isDigit c
      then digitsValue (acc * 10 + N.of_nat (nat_of_ascii c - 48))%N r
      else None
  end.

(** A property key is an array index when it is the canonical decimal
    spelling of an integer below 2^32 - 1. *)
Definition arrayIndex (k : string) : option N :=
  match k with
  | EmptyString => None
  | String c r =>
      if Ascii.eqb c "0"%char then (if isEmpty r then Some 0%N else None)
      else match digitsValue 0%N k with
           | Some n => if (n <? 4294967295)%N then Some n else None
           | None => None
           end
  end.

(** The properties of [Object.prototype], inherited by every plain object:
    eleven methods and the accessor [__proto__]. *)
Definition protoKey : string := "__proto__".

Definition prototypeMethods : list string :=
  [ "constructor"; "__defineGetter__"; "__defineSetter__"; "hasOwnProperty";
    "__lookupGetter__"; "__lookupSetter__"; "isPrototypeOf";
    "propertyIsEnumerable"; "toString"; "valueOf"; "toLocaleString" ].

(** What a property read evaluates to: [undefined], the value of an own
    property, the method of [Object.prototype] of the given name, or the
    object [Object.prototype] itself (the getter of [__proto__]). *)
Inductive Value (V : Type) : Type :=
| Undefined
| Own (v : V)
| Method (k : string)
| Prototype.
Arguments Undefined {V}.
Arguments Own {V} v.
Arguments Method {V} k.
Arguments Prototype {V}.

Section Ops.
Context {V : Type}.

Definition empty : t V := [].

(** The own property of [o] named [k], if there is one. *)
Fixpoint getOwn (k : string) (o : t V) : option V :=
  match o with
  | [] => None
  | (k', v) :: r => if String.eqb k k' then Some v else getOwn k r
  end.

(** [Object.hasOwn(o, k)] *)
Definition has (k : string) (o : t V) : bool :=
  match getOwn k o with Some _ => true | None => false end.

(** [o[k]]: an own property first, [Object.prototype] otherwise. *)
Definition get (k : string) (o : t V) : Value V :=
  match getOwn k o with
  | Some v => Own v
  | None =>
      if String.eqb k protoKey then Prototype
      else if arrIncludes k prototypeMethods then Method k
      else Undefined
  end.

(** The own value a read gave, if it gave one. *)
Definition own (value : Value V) : option V :=
  match value with Own v => Some v | _ => None end.

Definition ownOr (d : V) (value : Value V) : V :=
  match value with Own v => v | _ => d end.

Fixpoint replace (k : string) (v : V) (o : t V) : t V :=
  match o with
  | [] => []
  | (k', v') :: r =>
      if String.eqb k k' then (k', v) :: r else (k', v') :: replace k v r
  end.

(** Position of a new array-index key [k] (of value [n]): after the
    smaller indices, before everything else. *)
Fixpoint insertIndex (n : N) (k : string) (v : V) (o : t V) : t V :=
  match o with
  | [] => [(k, v)]
  | (k', v') :: r =>
      match arrayIndex k' with
      | Some m =>
          if (m <? n)%N then (k', v') :: insertIndex n k v r
          else (k, v) :: o
      | None => (k, v) :: o
      end
  end.

(** The own property [k] is given the value [v] (as by an object literal
    or a spread): an existing key keeps its place, a new one is added. *)
Definition define (k : string) (v : V) (o : t V) : t V :=
  if has k o then replace k v o
  else match arrayIndex k with
       | Some n => insertIndex n k v o
       | None => o ++ [(k, v)]
       end.

(** [o[k] = v] for a value [v] that is not an object (a string, here).
    The methods of [Object.prototype] are writable data properties, so the
    assignment defines an own property that shadows them.  [__proto__] is
    an accessor: unless [o] owns a property of that name, the assignment
    calls its setter, which ignores a value that is neither an object nor
    [null], and [o] is left as it was. *)
Definition set (k : string) (v : V) (o : t V) : t V :=
  if negb (has k o) && String.eqb k protoKey then o else define k v o.

(** [delete o[k]]. *)
Fixpoint remove (k : string) (o : t V) : t V :=
  match o with
  | [] => []
  | (k', v) :: r =>
      if String.eqb k k' then remove k r else (k', v) :: remove k r
  end.

(** [Object.keys], [Object.values], [Object.entries]. *)
Definition keys (o : t V) : list string := map fst o.
Definition values (o : t V) : list V := map snd o.
Definition entries (o : t V) : list (string * V) := o.

(** [{ ...o }]: a new table, on which each own property of [o] is defined
    in turn. *)
Definition spread (o : t V) : t V :=
  foldl (fun acc e => define e.1 e.2 acc) empty (entries o).

(** Keys are pairwise distinct. *)
Definition wf (o : t V) : Prop := NoDup (keys o).
End Ops.

(** [k1] may come before [k2] in an enumeration: an array index comes
    after smaller array indices only. *)
Definition precedes (k1 k2 : string) : bool :=
  match arrayIndex k2 with
  | Some n2 =>
      match arrayIndex k1 with
      | Some n1 => (n1 <? n2)%N
      | None => false
      end
  | None => true
  end.

Fixpoint enumerated (ks : list string) : bool :=
  match ks with
  | [] => true
  | k :: r => forallb (precedes k) r && enumerated r
  end.

(** A table as an object holds it: distinct keys, in enumeration order. *)
Definition canonical {V : Type} (o : t V) : Prop :=
  wf o /\ enumerated (keys o) = true.

End JSObject.

(** ** Completions: a value, or a thrown exception with its message *)

Inductive Completion (A : Type) : Type :=
| Return (a : A)
| Throw (message : string).
Arguments Return {A} a.
Arguments Throw {A} message.

Definition bind {A B : Type} (c : Completion A) (k : A -> Completion B)
    : Completion B :=
  match c with
  | Return a => k a
  | Throw message => Throw message
  end.

(** [arr.filter(p)] for a callback that may throw. *)
Fixpoint filterC {A : Type} (p : A -> Completion bool) (arr : list A)
    : Completion (list A) :=
  match arr with
  | [] => Return []
  | x :: r =>
      bind (p x) (fun keep =>
      bind (filterC p r) (fun kept =>
      Return (if keep then x :: kept else kept)))
  end.

(** [arr.forEach(x => ...)] for a body that may throw; [acc] stands for
    the variables the body updates. *)
Fixpoint forEachC {A S : Type} (body : S -> A -> Completion S) (acc : S)
    (arr : list A) : Completion S :=
  match arr with
  | [] => Return acc
  | x :: r => bind (body acc x) (fun acc' => forEachC body acc' r)
  end.

(** ** CSV tokenizer *)

Module Tokenizer.

(** The loop of [parseCSVLine]: [line] is what is left to scan from index
    [i] on; [inQuotes], [currentField] and [result] are the loop variables. *)
Fixpoint scan (line : string) (inQuotes : bool) (currentField : string)
    (result : list string) : list string :=
  match line with
  | EmptyString => result ++ [trim currentField]
  | String char rest =>
      if Ascii.eqb char dquote then
        match rest with
        | String next rest' =>
            if inQuotes && Ascii.eqb next dquote
            then scan rest' inQuotes (currentField +:+ str1 dquote) result
            else scan rest (negb inQuotes) currentField result
        | EmptyString => scan rest (negb inQuotes) currentField result
        end
      else if Ascii.eqb char comma && negb inQuotes then
        scan rest inQuotes EmptyString (result ++ [trim currentField])
      else scan rest inQuotes (currentField +:+ str1 char) result
  end.

Definition parseCSVLine (line : string) : list string :=
  scan line false EmptyString [].

Definition Row : Type := JSObject.t string.

Record Parsed : Type := { headers : list string; data : list Row }.

(** [headers.forEach((header, index) => ...)]: the cell [row[index] || '']
    is stored under [header]. *)
Fixpoint fillRow (hs : list string) (index : nat) (row : list string)
    (rowObject : Row) : Row :=
  match hs with
  | [] => rowObject
  | header :: hs' =>
      fillRow hs' (S index) row
        (JSObject.set header (default EmptyString (row !! index)) rowObject)
  end.

Fixpoint parseRows (hs : list string) (lines : list string) : list Row :=
  match lines with
  | [] => []
  | l :: ls =>
      if isEmpty (trim l) then parseRows hs ls
      else fillRow hs 0 (parseCSVLine l) JSObject.empty :: parseRows hs ls
  end.

Definition parseCSVText (csvText : string) : Completion Parsed :=
  match splitLF (trim csvText) with
  | [] => Throw "CSV file is empty"
  | first :: rest =>
      let hs := parseCSVLine first in
      Return {| headers := hs; data := parseRows hs rest |}
  end.

End Tokenizer.
Import Tokenizer.

(** ** Match scorer and suggestion engine *)

Record TargetField : Type := {
  name : string;
  label : string;
  required : bool
}.

Module Scorer.

(** [s.replace(/id$/, '')] *)
Fixpoint stripTrailingId (s : string) : string :=
  match s with
  | EmptyString => EmptyString
  | String c r =>
      if String.eqb s "id" then EmptyString else String c (stripTrailingId r)
  end.

Definition normalizeFieldName (fieldName : string) : string :=
  stripTrailingId
    (filterChars (fun c => isLowerAlpha c || isDigit c)
       (toLowerCase fieldName)).

Definition Math_max (a b : Q) : Q := if Qle_bool a b then b else a.

Definition gtb (a b : Q) : bool := negb (Qle_bool a b).

Definition commonMappings : list (string * list string) :=
  [ ("firstname", ["firstname"; "fname"; "givenname"]);
    ("lastname", ["lastname"; "lname"; "surname"; "familyname"]);
    ("email", ["email"; "emailaddress"; "mail"]);
    ("phone", ["phone"; "phonenumber"; "telephone"; "mobile"]);
    ("company", ["company"; "companyname"; "organization"; "account"]);
    ("title", ["title"; "jobtitle"; "position"]);
    ("street", ["street"; "address"; "address1"; "streetaddress"]);
    ("city", ["city"; "town"]);
    ("state", ["state"; "province"; "region"]);
    ("postalcode", ["zip"; "zipcode"; "postalcode"; "postcode"]);
    ("country", ["country"; "nation"]) ].

Definition calculateFieldMatchScore (csvField : string) (sfField : TargetField)
    : Q :=
  let csvNormalized := normalizeFieldName csvField in
  let sfNormalized := normalizeFieldName (name sfField) in
  let sfLabelNormalized := normalizeFieldName (label sfField) in
  if String.eqb csvNormalized sfNormalized
     || String.eqb csvNormalized sfLabelNormalized
  then 1%Q
  else
    let score := 0%Q in
    let score :=
      if includes sfNormalized csvNormalized
         || includes csvNormalized sfNormalized
      then Math_max score (8 # 10) else score in
    let score :=
      if includes sfLabelNormalized csvNormalized
         || includes csvNormalized sfLabelNormalized
      then Math_max score (7 # 10) else score in
    foldl
      (fun score '(sfPattern, csvPatterns) =>
         if includes sfPattern sfNormalized
            && existsb (fun csvPattern => includes csvPattern csvNormalized)
                 csvPatterns
         then Math_max score (9 # 10) else score)
      score commonMappings.

(** The inner [forEach] of [generateMappingSuggestions]: the loop variables
    are [(bestMatch, bestScore)], started at [(null, 0)]. *)
Definition bestStep (normalizedCsvHeader : string)
    (best : option TargetField * Q) (sfField : TargetField)
    : option TargetField * Q :=
  let score := calculateFieldMatchScore normalizedCsvHeader sfField in
  if gtb score best.2 then (Some sfField, score) else best.

Definition findBest (normalizedCsvHeader : string)
    (salesforceFields : list TargetField) : option TargetField * Q :=
  foldl (bestStep normalizedCsvHeader) (None, 0%Q) salesforceFields.

(** The body of the outer [forEach].  [bestMatch] is never [null] when
    [bestScore > 0.6], as [bestScore] only leaves 0 together with it. *)
Definition suggestStep (salesforceFields : list TargetField)
    (suggestions : JSObject.t string) (csvHeader : string)
    : JSObject.t string :=
  let normalizedCsvHeader := normalizeFieldName csvHeader in
  match findBest normalizedCsvHeader salesforceFields with
  | (Some bestMatch, bestScore) =>
      if gtb bestScore (6 # 10)
      then JSObject.set csvHeader (name bestMatch) suggestions
      else suggestions
  | (None, _) => suggestions
  end.

Definition generateMappingSuggestions (csvHeaders : list string)
    (salesforceFields : list TargetField) : JSObject.t string :=
  foldl (suggestStep salesforceFields) JSObject.empty csvHeaders.

End Scorer.
Import Scorer.

(** ** Type inferrer *)

Record FieldType : Type := {
  type : string;
  length : option N;
  precision : option N;
  scale : option N
}.

Module Inferrer.

Definition plain (ty : string) (len : option N) : FieldType :=
  {| type := ty; length := len; precision := None; scale := None |}.

Definition valTrimMessage : string := "val.trim is not a function".

(** [val && val.trim() !== ''] on the result of [row[csvHeader]].  A value
    found on [Object.prototype] is truthy and has no method [trim]: the
    call throws a [TypeError]. *)
Definition nonBlank (val : JSObject.Value string) : Completion bool :=
  match val with
  | JSObject.Undefined => Return false
  | JSObject.Own s => Return (negb (isEmpty s) && negb (isEmpty (trim s)))
  | JSObject.Method _ | JSObject.Prototype => Throw valTrimMessage
  end.

(** [this.csvData.slice(0, 20).map(row => row[csvHeader]).filter(...)]:
    what is kept are strings. *)
Definition sampleValues (csvData : list Row) (csvHeader : string)
    : Completion (list string) :=
  bind (filterC nonBlank (map (JSObject.get csvHeader) (take 20 csvData)))
    (fun kept => Return (omap JSObject.own kept)).

Definition notSpaceOrAt (c : ascii) : bool :=
  negb (isWhiteSpace c) && negb (Ascii.eqb c "@"%char).

Fixpoint dotThenMore (s : string) : bool :=
  match s with
  | EmptyString => false
  | String c r => (Ascii.eqb c "."%char && negb (isEmpty r)) || dotThenMore r
  end.

(** After the [@]: [[^\s@]+\.[^\s@]+] up to the end. *)
Definition domainShape (s : string) : bool :=
  allChars notSpaceOrAt s &&
  match s with
  | EmptyString => false
  | String _ r => dotThenMore r
  end.

(** [/^[^\s@]+@[^\s@]+\.[^\s@]+$/.test(s)]; [seen] tells whether the local
    part read so far is non-empty. *)
Fixpoint emailFrom (seen : bool) (s : string) : bool :=
  match s with
  | EmptyString => false
  | String c r =>
      if Ascii.eqb c "@"%char then seen && domainShape r
      else negb (isWhiteSpace c) && emailFrom true r
  end.

Definition isEmailShape (s : string) : bool := emailFrom false s.

(** The class [[\d\s\-\(\)\.+]]. *)
Definition phoneChar (c : ascii) : bool :=
  isDigit c || isWhiteSpace c
  || existsb (Ascii.eqb c) ["-"; "("; ")"; "."; "+"]%char.

(** [/^[\d\s\-\(\)\.+]{10,}$/.test(s)] *)
Definition isPhoneShape (s : string) : bool :=
  allChars phoneChar s && (10 <=? String.length s).

(** [/^https?:\/\//.test(s)] *)
Definition isUrlShape (s : string) : bool :=
  startsWith "http://" s || startsWith "https://" s.

Definition booleanValues : list string :=
  ["true"; "false"; "yes"; "no"; "1"; "0"].

Section Host.
(** Host conversions the code relies on:
    [!isNaN(val) && !isNaN(parseFloat(val))] and [!isNaN(Date.parse(val))]. *)
Variable isNumeric : string -> bool.
Variable dateParses : string -> bool.

Definition inferFromSamples (sampleValues : list string) : FieldType :=
  if existsb isEmailShape sampleValues then plain "Email" None
  else if existsb isPhoneShape sampleValues then plain "Phone" None
  else if existsb isUrlShape sampleValues then plain "Url" None
  else if forallb (fun val => arrIncludes (toLowerCase val) booleanValues)
            sampleValues
  then plain "Checkbox" None
  else if forallb isNumeric sampleValues then
    let hasDecimals := existsb (includesChar "."%char) sampleValues in
    {| type := "Number"; length := None; precision := Some 18%N;
       scale := Some (if hasDecimals then 2%N else 0%N) |}
  else if existsb dateParses sampleValues then plain "Date" None
  else
    let maxLength :=
      N.of_nat (foldr Nat.max 0 (map String.length sampleValues)) in
    if (255 <? maxLength)%N then
      if (maxLength <=? 32768)%N then plain "LongTextArea" (Some 32768%N)
      else plain "LongTextArea" (Some 131072%N)
    else if (80 <? maxLength)%N then plain "Text" (Some 255%N)
    else plain "Text" (Some 80%N).

(** [csvData] is [None] for [null]. *)
Definition determineFieldType (csvData : option (list Row))
    (csvHeader : string) : Completion FieldType :=
  match csvData with
  | None => Return (plain "Text" (Some 255%N))
  | Some rows =>
      if Nat.eqb (List.length rows) 0 then Return (plain "Text" (Some 255%N))
      else
        bind (sampleValues rows csvHeader) (fun samples =>
        if Nat.eqb (List.length samples) 0
        then Return (plain "Text" (Some 255%N))
        else Return (inferFromSamples samples))
  end.
End Host.

End Inferrer.
Import Inferrer.

(** ** Value normalizer and re-serializer *)

Module Serializer.

(** The class [[\d\s\-\(\)\.+]] of [formatValue]. *)
Definition separatorChar (c : ascii) : bool :=
  isDigit c || isWhiteSpace c
  || existsb (Ascii.eqb c) ["-"; "("; ")"; "."; "+"]%char.

Definition booleanMap : JSObject.t string :=
  [ ("0", "false"); ("1", "true"); ("true", "true"); ("yes", "true");
    ("false", "false"); ("no", "false") ].

(** [formatValue] on a string; for another value see [toText]. *)
Definition formatValue (value : string) : string :=
  let value := trim value in
  let value :=
    if includesChar "@"%char value then toLowerCase value else value in
  let value :=
    if negb (isEmpty value) && allChars separatorChar value
       && (10 <=? String.length value)
    then filterChars (fun c => isDigit c || Ascii.eqb c "+"%char) value
    else value in
  if arrIncludes (toLowerCase value)
       ["true"; "false"; "yes"; "no"; "1"; "0"]
  then JSObject.ownOr value (JSObject.get (toLowerCase value) booleanMap)
  else value.

(** The name under which V8 prints a method of [Object.prototype]. *)
Definition nativeName (k : string) : string :=
  if String.eqb k "constructor" then "Object" else k.

(** [String(value)], which [formatValue] applies first to a value that is
    not a string ([typeof value !== 'string']); built-in functions are
    printed as V8 does. *)
Definition toText (value : JSObject.Value string) : string :=
  match value with
  | JSObject.Undefined => "undefined"
  | JSObject.Own s => s
  | JSObject.Method k => "function " +:+ nativeName k +:+ "() { [native code] }"
  | JSObject.Prototype => "[object Object]"
  end.

(** [value || ''] on the result of a read. *)
Definition orEmpty (value : JSObject.Value string) : JSObject.Value string :=
  match value with
  | JSObject.Undefined => JSObject.Own EmptyString
  | other => other
  end.

(** [value.replace] of every double quote by two of them. *)
Fixpoint doubleQuotes (s : string) : string :=
  match s with
  | EmptyString => EmptyString
  | String c r =>
      if Ascii.eqb c dquote then String dquote (String dquote (doubleQuotes r))
      else String c (doubleQuotes r)
  end.

(** A value wrapped in quotes, its own quotes doubled. *)
Definition quoted (value : string) : string :=
  str1 dquote +:+ doubleQuotes value +:+ str1 dquote.

Definition needsQuotes (value : string) : bool :=
  includesChar comma value || includesChar dquote value
  || includesChar LF value.

(** The quoting step of [generateMappedCSV]. *)
Definition escapeValue (value : string) : string :=
  if needsQuotes value then quoted value else value.

(** The body of the inner [forEach] of [generateMappedCSV]: the text pushed
    on [mappedRow] for the cell [row[csvField]]. *)
Definition mappedCell (row : Row) (csvField : string) : string :=
  let value := orEmpty (JSObject.get csvField row) in
  let value := formatValue (toText value) in
  escapeValue value.

Definition mappedLine (mappings : JSObject.t string) (row : Row) : string :=
  join "," (map (fun e => mappedCell row e.1) (JSObject.entries mappings)).

Definition mappedHeaderLine (mappings : JSObject.t string) : string :=
  join "," (JSObject.values mappings).

(** [generateMappedCSV] on the fields it reads; [csvData] is [None] for
    [null]. *)
Definition generateMappedCSVOf (csvData : option (list Row))
    (mappings : JSObject.t string) : Completion string :=
  match csvData with
  | None => Throw "No data or mappings available"
  | Some rows =>
      if Nat.eqb (List.length (JSObject.keys mappings)) 0
      then Throw "No data or mappings available"
      else
        let csvLines :=
          mappedHeaderLine mappings :: map (mappedLine mappings) rows in
        Return (join (str1 LF) csvLines)
  end.

End Serializer.
Import Serializer.

(** ** Mapping table validation *)

Module Validation.

(** [arr.indexOf(x)], where [x] is known to occur. *)
Fixpoint indexOf (x : string) (arr : list string) : nat :=
  match arr with
  | [] => 0
  | y :: r => if String.eqb x y then 0 else S (indexOf x r)
  end.

(** [arr.filter((field, index) => arr.indexOf(field) !== index)]; [index]
    is the position of the head of [rest] in [arr]. *)
Fixpoint laterOccurrences (arr : list string) (index : nat)
    (rest : list string) : list string :=
  match rest with
  | [] => []
  | field :: r =>
      if negb (Nat.eqb (indexOf field arr) index)
      then field :: laterOccurrences arr (S index) r
      else laterOccurrences arr (S index) r
  end.

(** [[...new Set(arr)]]: first occurrences, in order. *)
Fixpoint distinct (seen arr : list string) : list string :=
  match arr with
  | [] => []
  | x :: r =>
      if arrIncludes x seen then distinct seen r
      else x :: distinct (seen ++ [x]) r
  end.

Definition requiredMessage (field : TargetField) : string :=
  "Required field '" +:+ label field +:+ "' is not mapped".

Definition duplicateMessage (duplicates : list string) : string :=
  "Duplicate mappings found for: " +:+ join ", " (distinct [] duplicates).

Definition validateMappingsOf (mappings : JSObject.t string)
    (salesforceFields : list TargetField) : list string :=
  let requiredFields := List.filter required salesforceFields in
  let mappedSfFields := JSObject.values mappings in
  let errors :=
    map requiredMessage
      (List.filter (fun field => negb (arrIncludes (name field) mappedSfFields))
         requiredFields) in
  let duplicates := laterOccurrences mappedSfFields 0 mappedSfFields in
  if 0 <? List.length duplicates
  then errors ++ [duplicateMessage duplicates]
  else errors.

End Validation.
Import Validation.

(** ** The processor object and the store of mapping tables *)

Module Processor.

Definition loc : Type := nat.

(** The store: the tables reachable through references. *)
Abbreviation heap := (gmap nat (JSObject.t string)).

Definition deref (h : heap) (l : loc) : JSObject.t string :=
  default JSObject.empty (h !! l).

Definition alloc (o : JSObject.t string) (h : heap) : loc * heap :=
  let l := fresh (dom h) in (l, <[l := o]> h).

Record CSVProcessor : Type := {
  csvData : option (list Row);
  headers : list string;
  rowCount : nat;
  mappings : loc
}.

(** [new CSVProcessor()] *)
Definition new (h : heap) : CSVProcessor * heap :=
  let '(l, h') := alloc JSObject.empty h in
  ({| csvData := None; headers := []; rowCount := 0; mappings := l |}, h').

(** The [onload] handler of [parseCSV], given the text of the file. *)
Definition parseCSV (this : CSVProcessor) (csvText : string)
    : Completion CSVProcessor :=
  match parseCSVText csvText with
  | Return parsed =>
      Return {| csvData := Some (Tokenizer.data parsed);
                headers := Tokenizer.headers parsed;
                rowCount := List.length (Tokenizer.data parsed);
                mappings := mappings this |}
  | Throw message => Throw ("CSV parsing failed: " +:+ message)
  end.

Definition setMapping (this : CSVProcessor) (csvField salesforceField : string)
    (h : heap) : heap :=
  <[mappings this := JSObject.set csvField salesforceField
                       (deref h (mappings this))]> h.

(** [return { ...this.mappings }]: a new table is allocated. *)
Definition getMappings (this : CSVProcessor) (h : heap) : loc * heap :=
  alloc (JSObject.spread (deref h (mappings this))) h.

Definition validateMappings (this : CSVProcessor)
    (salesforceFields : list TargetField) (h : heap) : list string :=
  validateMappingsOf (deref h (mappings this)) salesforceFields.

Definition generateMappedCSV (this : CSVProcessor) (h : heap)
    : Completion string :=
  generateMappedCSVOf (csvData this) (deref h (mappings this)).

(** What a caller can do to a table it holds a reference to. *)
Inductive Mutation : Type :=
| Assign (k v : string)
| Delete (k : string).

Definition mutate (r : loc) (m : Mutation) (h : heap) : heap :=
  match m with
  | Assign k v => <[r := JSObject.set k v (deref h r)]> h
  | Delete k => <[r := JSObject.remove k (deref h r)]> h
  end.

Definition mutateAll (r : loc) (ms : list Mutation) (h : heap) : heap :=
  foldl (fun h m => mutate r m h) h ms.

End Processor.

(** ** Bulk ingest orchestrator *)

Module Orchestrator.

Record JobStatus : Type := {
  state : string;
  numberRecordsProcessed : nat;
  numberRecordsFailed : nat
}.

Record Results : Type := { successful : string; failed : string }.

Record UploadResult : Type := {
  jobId : string;
  status : JobStatus;
  results : Results;
  recordsProcessed : nat;
  recordsFailed : nat
}.

(** The remote service as seen by one run: the outcome of each call, the
    status calls indexed by how many came before. *)
Record Remote : Type := {
  createBulkJob : Completion string;
  uploadBulkData : Completion unit;
  closeBulkJob : Completion unit;
  getBulkJobStatus : nat -> Completion JobStatus;
  getBulkJobResults : Completion Results
}.

Definition maxAttempts : nat := 30.

Definition timeoutMessage : string := "Job monitoring timeout".

Definition inProgress (jobStatus : JobStatus) : bool :=
  String.eqb (state jobStatus) "InProgress"
  || String.eqb (state jobStatus) "JobInProgress".

(** The [do ... while] loop; [attempts] is the counter on entry to the body,
    [None] is an exhausted [fuel]. *)
Fixpoint monitor (fuel : nat) (poll : nat -> Completion JobStatus)
    (attempts : nat) : option (Completion JobStatus) :=
  match fuel with
  | 0 => None
  | S fuel' =>
      match poll attempts with
      | Throw message => Some (Throw message)
      | Return jobStatus =>
          let attempts := S attempts in
          if maxAttempts <=? attempts then Some (Throw timeoutMessage)
          else if inProgress jobStatus then monitor fuel' poll attempts
          else Some (Return jobStatus)
      end
  end.

(** The [catch] of [performBulkUpload]. *)
Definition wrapped {A : Type} (c : Completion A) : Completion A :=
  match c with
  | Return a => Return a
  | Throw message => Throw ("Bulk upload failed: " +:+ message)
  end.

Definition performBulkUpload (remote : Remote)
    : option (Completion UploadResult) :=
  match createBulkJob remote with
  | Throw message => Some (wrapped (Throw message))
  | Return job =>
    match uploadBulkData remote with
    | Throw message => Some (wrapped (Throw message))
    | Return _ =>
      match closeBulkJob remote with
      | Throw message => Some (wrapped (Throw message))
      | Return _ =>
        match monitor maxAttempts (getBulkJobStatus remote) 0 with
        | None => None
        | Some polled =>
            Some (wrapped
              (bind polled (fun jobStatus =>
               bind (getBulkJobResults remote) (fun res =>
               Return {| jobId := job; status := jobStatus; results := res;
                         recordsProcessed := numberRecordsProcessed jobStatus;
                         recordsFailed := numberRecordsFailed jobStatus |}))))
        end
      end
    end
  end.

(** A run that sees the statuses of [statuses] in turn, and [last] from then
    on. *)
Definition statusFeed (statuses : list JobStatus) (last : JobStatus)
    : nat -> Completion JobStatus :=
  fun k => Return (nth k statuses last).

End Orchestrator.

(** ** Statements of the design document, and sample inputs *)

Module TokenizerSpec.

(** Enclosing-quote escaping round-trips the value [v]: the quoted encoding
    tokenizes to [v], and so does the cell text written for [v]. *)
Definition roundTrips (v : string) : Prop :=
  parseCSVLine (quoted v) = [v]
  /\ parseCSVLine (escapeValue (formatValue v)) = [v].

End TokenizerSpec.

Module ScorerSpec.

(** The score the suggestion engine gives a header against a field: the
    header is normalized before it is handed to the scorer. *)
Definition engineScore (csvHeader : string) (sfField : TargetField) : Q :=
  calculateFieldMatchScore (normalizeFieldName csvHeader) sfField.

(** [f] is the first field of [fields] with the highest score for
    [csvHeader]: none scores more, and every earlier one scores less. *)
Definition firstStrictBest (csvHeader : string) (fields : list TargetField)
    (f : TargetField) : Prop :=
  exists i : nat,
    fields !! i = Some f
    /\ (forall g, g ∈ fields ->
          (engineScore csvHeader g <= engineScore csvHeader f)%Q)
    /\ (forall j g, j < i -> fields !! j = Some g ->
          (engineScore csvHeader g < engineScore csvHeader f)%Q).

(** What the loop variables [(bestMatch, bestScore)] hold after the fields
    of [fields] have been seen. *)
Definition bestOf (hN : string) (fields : list TargetField)
    (best : option TargetField * Q) : Prop :=
  match best.1 with
  | None =>
      best.2 = 0%Q
      /\ forall g, g ∈ fields -> (calculateFieldMatchScore hN g <= 0)%Q
  | Some f =>
      best.2 = calculateFieldMatchScore hN f
      /\ (0 < best.2)%Q
      /\ exists i : nat,
           fields !! i = Some f
           /\ (forall g, g ∈ fields ->
                 (calculateFieldMatchScore hN g
                  <= calculateFieldMatchScore hN f)%Q)
           /\ (forall j g, j < i -> fields !! j = Some g ->
                 (calculateFieldMatchScore hN g
                  < calculateFieldMatchScore hN f)%Q)
  end.

(** What the engine decides for one header. *)
Definition suggestionFor (fields : list TargetField) (csvHeader : string)
    : option string :=
  match findBest (normalizeFieldName csvHeader) fields with
  | (Some bestMatch, bestScore) =>
      if gtb bestScore (6 # 10) then Some (name bestMatch) else None
  | (None, _) => None
  end.

(** The values a score takes short of an exact match. *)
Definition partialScore (q : Q) : Prop :=
  q = 0%Q \/ q = (7 # 10)%Q \/ q = (8 # 10)%Q \/ q = (9 # 10)%Q.

Definition emailField : TargetField :=
  {| name := "Email"; label := "Email"; required := false |}.

Definition firstNameField : TargetField :=
  {| name := "FirstName"; label := "First Name"; required := false |}.

Definition emailAliasField : TargetField :=
  {| name := "E_Mail__c"; label := "Email"; required := false |}.

Definition accountField : TargetField :=
  {| name := "AccountNumber"; label := "Account Number"; required := false |}.

(** The record identifier that every object of the remote schema has. *)
Definition idField : TargetField :=
  {| name := "Id"; label := "Record ID"; required := false |}.

End ScorerSpec.

Module InferrerSpec.

(** A cell that is not blank: something is left of it once trimmed. *)
Definition notBlank (s : string) : bool := negb (isEmpty (trim s)).

(** The non-blank values of column [csvHeader] in [rows], in row order:
    the cells the rows hold under that name. *)
Definition nonBlankColumn (rows : list Row) (csvHeader : string)
    : list string :=
  List.filter notBlank (omap (JSObject.getOwn csvHeader) rows).

(** Reading [csvHeader] in [row] gives a cell of the row or [undefined],
    nothing of [Object.prototype]. *)
Definition readsData (csvHeader : string) (row : Row) : bool :=
  match JSObject.get csvHeader row with
  | JSObject.Undefined | JSObject.Own _ => true
  | JSObject.Method _ | JSObject.Prototype => false
  end.

(** The sample of the design document: the first 20 non-blank values of the
    column. *)
Definition firstNonBlankValues (rows : list Row) (csvHeader : string)
    : list string :=
  take 20 (nonBlankColumn rows csvHeader).

Definition textDefault : FieldType := plain "Text" (Some 255%N).

(** A document of 21 rows whose column [c] is blank in the first row only:
    the text it is parsed from, and its rows. *)
Definition blankFirstText : string :=
  "c,d" +:+ String LF (",1" +:+
    foldr (fun _ acc => String LF ("x,2" +:+ acc)) EmptyString (seq 0 20)).

Definition blankFirstRows : list Row :=
  [("c", EmptyString); ("d", "1")] :: replicate 20 [("c", "x"); ("d", "2")].

End InferrerSpec.

Module OrchestratorSpec.
Import Orchestrator.

Definition running : JobStatus :=
  {| state := "InProgress"; numberRecordsProcessed := 0;
     numberRecordsFailed := 0 |}.

Definition complete : JobStatus :=
  {| state := "JobComplete"; numberRecordsProcessed := 100;
     numberRecordsFailed := 5 |}.

(** A service whose calls all succeed and whose job goes through the given
    statuses. *)
Definition healthy (feed : nat -> Completion JobStatus) : Remote :=
  {| createBulkJob := Return "750xx0000000001";
     uploadBulkData := Return tt;
     closeBulkJob := Return tt;
     getBulkJobStatus := feed;
     getBulkJobResults := Return {| successful := "ok"; failed := "ko" |} |}.

(** The job is seen in progress 29 times and complete at the 30th poll. *)
Definition completeAtPoll30 : nat -> Completion JobStatus :=
  statusFeed (replicate 29 running) complete.

Definition completeAtPoll3 : nat -> Completion JobStatus :=
  statusFeed [running; running] complete.

End OrchestratorSpec.

Module ValidationSpec.

(** Every required field is the target of some header. *)
Definition requiredCovered (m : JSObject.t string)
    (fields : list TargetField) : Prop :=
  forall f, f ∈ fields -> required f = true ->
    exists h, JSObject.getOwn h m = Some (name f).

(** No two headers map to the same target field. *)
Definition noSharedTarget (m : JSObject.t string) : Prop :=
  forall h1 h2 t,
    JSObject.getOwn h1 m = Some t -> JSObject.getOwn h2 m = Some t -> h1 = h2.

Definition mappingInvariant (m : JSObject.t string)
    (fields : list TargetField) : Prop :=
  requiredCovered m fields /\ noSharedTarget m.

(** The target [t] is mapped by two headers at least. *)
Definition mappedTwice (m : JSObject.t string) (t : string) : Prop :=
  exists h1 h2,
    h1 <> h2 /\ JSObject.getOwn h1 m = Some t /\ JSObject.getOwn h2 m = Some t.

Definition requiredEmail : TargetField :=
  {| name := "Email"; label := "Email"; required := true |}.

Definition optionalPhone : TargetField :=
  {| name := "Phone"; label := "Phone"; required := false |}.

Definition bothToEmail : JSObject.t string :=
  JSObject.set "B" "Email" (JSObject.set "A" "Email" JSObject.empty).

End ValidationSpec.

Module ProcessorSpec.
Import Processor.

(** The header row of the design document: the targets of the mapped
    columns, in column order. *)
Definition headerInColumnOrder (columns : list string)
    (m : JSObject.t string) : string :=
  join "," (omap (fun column => JSObject.getOwn column m) columns).

Definition firstLine (payload : string) : string :=
  default EmptyString (head (splitLF payload)).

Definition headerRowInColumnOrder (this : CSVProcessor) (h : heap) : Prop :=
  forall payload,
    generateMappedCSV this h = Return payload ->
    firstLine payload
    = headerInColumnOrder (headers this) (deref h (mappings this)).

(** [setMapping] called for each pair of [assigns] in turn. *)
Definition assignAll (this : CSVProcessor) (assigns : list (string * string))
    (h : heap) : heap :=
  foldl (fun h e => setMapping this e.1 e.2 h) h assigns.

(** A file with the columns [Name] and [Mail], loaded in a new processor. *)
Definition contactsText : string :=
  "Name,Mail" +:+ String LF "Smith,X@Y.Z".

Definition loaded : CSVProcessor :=
  {| csvData := Some [[("Name", "Smith"); ("Mail", "X@Y.Z")]];
     headers := ["Name"; "Mail"];
     rowCount := 1;
     mappings := (new ∅).1.(mappings) |}.

(** [Mail] is mapped first, [Name] afterwards. *)
Definition mailFirst : heap :=
  assignAll loaded [("Mail", "Email"); ("Name", "LastName")] (new ∅).2.

Definition mailFirstPayload : string :=
  "Email,LastName" +:+ String LF "x@y.z,Smith".

End ProcessorSpec.

Module Samples.

(** The cell value [a,b] followed by a quote and [c], and the line that
    encodes it. *)
Definition quotedValue : string := "a,b" +:+ String dquote "c".
Definition quotedLiteral : string :=
  String dquote ("a,b" +:+ String dquote (String dquote ("c" +:+ str1 dquote))).

Definition paddedValue : string := " a,b".
Definition mixedCaseValue : string := "A@b,c".
Definition valueWithNewline : string := "a" +:+ String LF "b".

(** A file with the header [h] and one row, whose cell is
    [valueWithNewline] enclosed in quotes. *)
Definition textWithQuotedNewline : string :=
  "h" +:+ String LF (quoted valueWithNewline).

End Samples.

(** ** Further readings of the code: rows and lines *)

Module LineSpec.

(** [s.split(c)] for a one-character separator. *)
Fixpoint splitChar (c : ascii) (s : string) : list string :=
  match s with
  | EmptyString => [EmptyString]
  | String d r =>
      if Ascii.eqb d c then EmptyString :: splitChar c r
      else match splitChar c r with
           | l :: ls => String d l :: ls
           | [] => [str1 d]
           end
  end.

(** What may follow a cell on a line: nothing, or a comma and the rest. *)
Definition cellEnd (rest : string) : Prop :=
  rest = EmptyString \/ exists r, rest = String comma r.

(** A cell as the tokenizer leaves it: no white space around it and no
    line feed in it. *)
Definition cleanCell (v : string) : Prop :=
  trim v = v /\ includesChar LF v = false.

(** The cell text of row [row] under header [csvField], normalized. *)
Definition normalizedCell (row : Row) (csvField : string) : string :=
  formatValue (toText (orEmpty (JSObject.get csvField row))).

Definition orderRow : Row :=
  [("Name", "Smith, J"); ("Mail", " J@X.org "); ("Active", "Yes")].

Definition orderTable : JSObject.t string :=
  [("Mail", "Email"); ("Name", "LastName"); ("Active", "IsActive")].

Definition repeatedHeaderText : string :=
  "a,b,a" +:+ String LF "1,2,3" +:+ String LF "4".

End LineSpec.

(** ** Further readings of the code: the stages of [formatValue] *)

Module FormatSpec.

Definition booleanWords : list string :=
  ["true"; "false"; "yes"; "no"; "1"; "0"].

Definition digitOrPlus (c : ascii) : bool :=
  isDigit c || Ascii.eqb c "+"%char.

(** Lower-casing of values that hold an [@]. *)
Definition lowerEmail (value : string) : string :=
  if includesChar "@"%char value then toLowerCase value else value.

(** The test of the phone rule. *)
Definition phoneLike (value : string) : bool :=
  negb (isEmpty value) && allChars separatorChar value
  && (10 <=? String.length value).

Definition stripPhone (value : string) : string :=
  if phoneLike value then filterChars digitOrPlus value else value.

Definition canonicalBoolean (value : string) : string :=
  if arrIncludes (toLowerCase value) booleanWords
  then JSObject.ownOr value (JSObject.get (toLowerCase value) booleanMap)
  else value.

(** [formatValue] after the trim. *)
Definition formatTrimmed (value : string) : string :=
  canonicalBoolean (stripPhone (lowerEmail value)).

End FormatSpec.

(** ** Further readings of the code: shapes tested by the type inferrer *)

Module ShapeSpec.

(** A text of one or more characters, none of them white space or [@]:
    the language of [[^\s@]+]. *)
Definition emailWord (w : string) : Prop :=
  w <> EmptyString /\ allChars notSpaceOrAt w = true.

(** The shape [local@domain.tld] of the e-mail test. *)
Definition emailForm (s : string) : Prop :=
  exists a b c,
    s = a +:+ String "@"%char (b +:+ String "."%char c)
    /\ emailWord a /\ emailWord b /\ emailWord c.

Definition yesNoRows : list Row :=
  [[("Active", "1")]; [("Active", "0")]; [("Active", "Yes")]].

(** A sample host: a non-empty string of digits reads as a number, and no
    text parses as a date. *)
Definition digitsOnly (s : string) : bool :=
  negb (String.eqb s EmptyString) && allChars isDigit s.

Definition noDate (_ : string) : bool := false.

End ShapeSpec.

(** ** Field suggestions for unmapped headers *)

Module FieldSuggestion.

(** The object returned by [generateFieldSuggestion]. *)
Record t : Type := {
  csvHeader : string;
  developerName : string;
  label : string;
  type : string;
  length : option N;
  required : bool
}.

End FieldSuggestion.

Module Suggester.

Definition underscore : ascii := "_"%char.

Definition isUnderscore (c : ascii) : bool := Ascii.eqb c underscore.

(** [s.replace(/\s+/g, '_')]; [inRun] tells whether the character before
    was white space. *)
Fixpoint collapseSpaces (inRun : bool) (s : string) : string :=
  match s with
  | EmptyString => EmptyString
  | String c r =>
      if isWhiteSpace c then
        if inRun then collapseSpaces true r
        else String underscore (collapseSpaces true r)
      else String c (collapseSpaces false r)
  end.

Fixpoint dropStart (p : ascii -> bool) (s : string) : string :=
  match s with
  | EmptyString => EmptyString
  | String c r => if p c then dropStart p r else s
  end.

Fixpoint dropEnd (p : ascii -> bool) (s : string) : string :=
  match s with
  | EmptyString => EmptyString
  | String c r =>
      match dropEnd p r with
      | EmptyString => if p c then EmptyString else str1 c
      | r' => String c r'
      end
  end.

(** [s.replace(/^_+|_+$/g, '')] *)
Definition stripUnderscores (s : string) : string :=
  dropEnd isUnderscore (dropStart isUnderscore s).

(** [/^[a-zA-Z]/.test(s)] *)
Definition startsWithLetter (s : string) : bool :=
  match s with
  | EmptyString => false
  | String c _ => isAlpha c
  end.

Definition customSuffix : string := "__c".

Definition developerNameOf (csvHeader : string) : string :=
  let developerName :=
    stripUnderscores
      (collapseSpaces false
         (filterChars (fun c => isAlpha c || isDigit c || isWhiteSpace c)
            csvHeader)) in
  let developerName :=
    if negb (startsWithLetter developerName)
    then String "X"%char developerName else developerName in
  if negb (endsWith customSuffix developerName)
  then developerName +:+ customSuffix else developerName.

(** The class [\w]. *)
Definition isWordChar (c : ascii) : bool :=
  isAlpha c || isDigit c || isUnderscore c.

(** [toUpperCase] on one character of the class [\w]. *)
Definition upperChar (c : ascii) : ascii :=
  if isLowerAlpha c then ascii_of_nat (nat_of_ascii c - 32) else c.

(** [s.replace(/\b\w/g, l => l.toUpperCase())]; [prevWord] tells whether
    the character before belongs to [\w]. *)
Fixpoint capitalizeWords (prevWord : bool) (s : string) : string :=
  match s with
  | EmptyString => EmptyString
  | String c r =>
      String (if isWordChar c && negb prevWord then upperChar c else c)
        (capitalizeWords (isWordChar c) r)
  end.

(** [s.replace(/[_-]/g, ' ')] *)
Fixpoint spaceOut (s : string) : string :=
  match s with
  | EmptyString => EmptyString
  | String c r =>
      String (if isUnderscore c || Ascii.eqb c "-"%char then " "%char else c)
        (spaceOut r)
  end.

Definition labelOf (csvHeader : string) : string :=
  capitalizeWords false (spaceOut csvHeader).

Section Host.
Variable isNumeric : string -> bool.
Variable dateParses : string -> bool.

Definition generateFieldSuggestion (csvData : option (list Row))
    (csvHeader : string) : Completion FieldSuggestion.t :=
  let developerName := developerNameOf csvHeader in
  let label := labelOf csvHeader in
  bind (determineFieldType isNumeric dateParses csvData csvHeader)
    (fun fieldType =>
  Return {| FieldSuggestion.csvHeader := csvHeader;
            FieldSuggestion.developerName := developerName;
            FieldSuggestion.label := label;
            FieldSuggestion.type := type fieldType;
            FieldSuggestion.length := length fieldType;
            FieldSuggestion.required := false |}).

(** The body of the [forEach] of [suggestNewFields]; [suggestions] is the
    array built so far. *)
Definition fieldStep (csvData : option (list Row))
    (existingFieldNames : list string) (suggestions : list FieldSuggestion.t)
    (header : string) : Completion (list FieldSuggestion.t) :=
  bind (generateFieldSuggestion csvData header) (fun suggestion =>
  Return
    (if negb (arrIncludes
                (toLowerCase (FieldSuggestion.developerName suggestion))
                existingFieldNames)
     then suggestions ++ [suggestion]
     else suggestions)).

(** [suggestNewFields] on the fields of the processor it reads. *)
Definition suggestNewFieldsOf (csvData : option (list Row))
    (mappings : JSObject.t string) (csvHeaders : list string)
    (salesforceFields : list TargetField)
    : Completion (list FieldSuggestion.t) :=
  let existingFieldNames :=
    map (fun f => toLowerCase (name f)) salesforceFields in
  let unmappedHeaders :=
    List.filter
      (fun header => negb (arrIncludes header (JSObject.keys mappings)))
      csvHeaders in
  forEachC (fieldStep csvData existingFieldNames) [] unmappedHeaders.

Definition suggestNewFields (this : Processor.CSVProcessor)
    (csvHeaders : list string) (salesforceFields : list TargetField)
    (h : Processor.heap) : Completion (list FieldSuggestion.t) :=
  suggestNewFieldsOf (Processor.csvData this)
    (Processor.deref h (Processor.mappings this)) csvHeaders
    salesforceFields.
End Host.

End Suggester.

Module SuggesterSpec.
Import Suggester.

(** The characters of an API name. *)
Definition identChar (c : ascii) : bool :=
  isAlpha c || isDigit c || isUnderscore c.

Definition startsUnderscore (s : string) : bool :=
  match s with
  | EmptyString => false
  | String c _ => isUnderscore c
  end.

(** Two underscores in a row somewhere in [s]. *)
Fixpoint hasDoubleUnderscore (s : string) : bool :=
  match s with
  | EmptyString => false
  | String c r =>
      (isUnderscore c && startsUnderscore r) || hasDoubleUnderscore r
  end.

Fixpoint endsUnderscore (s : string) : bool :=
  match s with
  | EmptyString => false
  | String c r =>
      match r with
      | EmptyString => isUnderscore c
      | String _ _ => endsUnderscore r
      end
  end.

(** A well-formed API name before its suffix: a letter, then letters,
    digits and single underscores, the last character not an underscore. *)
Definition apiCore (s : string) : Prop :=
  startsWithLetter s = true
  /\ allChars identChar s = true
  /\ hasDoubleUnderscore s = false
  /\ endsUnderscore s = false.

End SuggesterSpec.

(** ** Statistics about the parsed data *)

Module ColumnStats.

(** The per-column counters while the rows are read; [unique] is the set
    of the distinct values seen, in the order they came. *)
Record t : Type := {
  nonEmpty : nat;
  empty : nat;
  unique : list string;
  maxLength : nat
}.

End ColumnStats.

Module ColumnSummary.

(** The per-column counters as returned: [unique] replaced by its size. *)
Record t : Type := {
  nonEmpty : nat;
  empty : nat;
  maxLength : nat;
  uniqueCount : nat
}.

End ColumnSummary.

Module DataStatistics.

(** [columnStats] is the table of the own properties of the object
    returned under that name; [columnProto] is its prototype when that is
    no longer [Object.prototype] (a counters object, left as the loops
    made it). *)
Record t : Type := {
  totalRows : nat;
  totalColumns : nat;
  emptyRows : nat;
  columnStats : JSObject.t ColumnSummary.t;
  columnProto : option ColumnStats.t
}.

End DataStatistics.

Module Statistics.

Definition initial : ColumnStats.t :=
  {| ColumnStats.nonEmpty := 0; ColumnStats.empty := 0;
     ColumnStats.unique := []; ColumnStats.maxLength := 0 |}.

(** [set.add(x)] *)
Definition setAdd (x : string) (set : list string) : list string :=
  if arrIncludes x set then set else set ++ [x].

(** The branch taken for a non-empty trimmed value. *)
Definition note (trimmedValue : string) (st : ColumnStats.t)
    : ColumnStats.t :=
  {| ColumnStats.nonEmpty := S (ColumnStats.nonEmpty st);
     ColumnStats.empty := ColumnStats.empty st;
     ColumnStats.unique := setAdd trimmedValue (ColumnStats.unique st);
     ColumnStats.maxLength :=
       Nat.max (ColumnStats.maxLength st) (String.length trimmedValue) |}.

(** The branch taken for an empty one. *)
Definition miss (st : ColumnStats.t) : ColumnStats.t :=
  {| ColumnStats.nonEmpty := ColumnStats.nonEmpty st;
     ColumnStats.empty := S (ColumnStats.empty st);
     ColumnStats.unique := ColumnStats.unique st;
     ColumnStats.maxLength := ColumnStats.maxLength st |}.

(** The object [stats.columnStats] while it is built: its own properties,
    and its prototype once that is a counters object ([None] as long as it
    is [Object.prototype]). *)
Record Table : Type := {
  own : JSObject.t ColumnStats.t;
  proto : option ColumnStats.t
}.

Definition emptyTable : Table := {| own := JSObject.empty; proto := None |}.

(** [columnStats[header] = st] for an object [st].  Unless the table owns
    a property named [__proto__], the assignment to that name calls the
    setter of [Object.prototype], which makes [st] the prototype of the
    table; no property is created. *)
Definition assign (header : string) (st : ColumnStats.t) (cs : Table)
    : Table :=
  if negb (JSObject.has header (own cs)) && String.eqb header JSObject.protoKey
  then {| own := own cs; proto := Some st |}
  else {| own := JSObject.define header st (own cs); proto := proto cs |}.

(** An update in place of the counters object [columnStats[header]]: an
    own property of the table, or, for [__proto__], the prototype that the
    first loop installed.  Every header read in the second loop has been
    assigned by the first, so that one of the two is there (lemmas
    [covers_initial] and [covers_update]); the other branches are never
    taken. *)
Definition update (header : string) (f : ColumnStats.t -> ColumnStats.t)
    (cs : Table) : Table :=
  match JSObject.getOwn header (own cs) with
  | Some st =>
      {| own := JSObject.replace header (f st) (own cs); proto := proto cs |}
  | None =>
      if String.eqb header JSObject.protoKey then
        match proto cs with
        | Some st => {| own := own cs; proto := Some (f st) |}
        | None => cs
        end
      else cs
  end.

Definition valueTrimMessage : string := "value.trim is not a function".

(** The body of the inner [forEach]; the loop variables are the counters
    and [isEmpty].  A value found on [Object.prototype] has no method
    [trim]: the call throws a [TypeError]. *)
Definition cellStep (row : Row) (acc : Table * bool) (header : string)
    : Completion (Table * bool) :=
  match orEmpty (JSObject.get header row) with
  | JSObject.Own value =>
      let trimmedValue := trim value in
      if negb (isEmpty trimmedValue)
      then Return (update header (note trimmedValue) acc.1, false)
      else Return (update header miss acc.1, acc.2)
  | _ => Throw valueTrimMessage
  end.

(** The body of the outer [forEach]; the loop variables are the counters
    and [emptyRows]. *)
Definition rowStep (headers : list string) (acc : Table * nat) (row : Row)
    : Completion (Table * nat) :=
  bind (forEachC (cellStep row) (acc.1, true) headers) (fun scanned =>
  Return (scanned.1, if scanned.2 then S acc.2 else acc.2)).

Definition summary (st : ColumnStats.t) : ColumnSummary.t :=
  {| ColumnSummary.nonEmpty := ColumnStats.nonEmpty st;
     ColumnSummary.empty := ColumnStats.empty st;
     ColumnSummary.maxLength := ColumnStats.maxLength st;
     ColumnSummary.uniqueCount := List.length (ColumnStats.unique st) |}.

(** [None] is [null]. *)
Definition getDataStatisticsOf (csvData : option (list Row))
    (headers : list string) (rowCount : nat)
    : Completion (option DataStatistics.t) :=
  match csvData with
  | None => Return None
  | Some rows =>
      let columnStats :=
        foldl (fun cs header => assign header initial cs) emptyTable headers in
      bind (forEachC (rowStep headers) (columnStats, 0) rows) (fun counted =>
      Return
        (Some {| DataStatistics.totalRows := rowCount;
                 DataStatistics.totalColumns := List.length headers;
                 DataStatistics.emptyRows := counted.2;
                 DataStatistics.columnStats :=
                   map (fun e => (e.1, summary e.2)) (own counted.1);
                 DataStatistics.columnProto := proto counted.1 |}))
  end.

Definition getDataStatistics (this : Processor.CSVProcessor)
    : Completion (option DataStatistics.t) :=
  getDataStatisticsOf (Processor.csvData this) (Processor.headers this)
    (Processor.rowCount this).

End Statistics.

Module StatisticsSpec.
Import Statistics.

(** How many columns carry the header [h]. *)
Definition occurrences (h : string) (headers : list string) : nat :=
  List.length (List.filter (String.eqb h) headers).

(** The trimmed cell of [row] under [h]; a row that holds none counts as
    holding an empty one. *)
Definition cellOf (h : string) (row : Row) : string :=
  trim (default EmptyString (JSObject.getOwn h row)).

Definition blankRow (headers : list string) (row : Row) : bool :=
  forallb (fun h => isEmpty (cellOf h row)) headers.

(** One reading of a cell. *)
Definition bump (v : string) (st : ColumnStats.t) : ColumnStats.t :=
  if negb (isEmpty v) then note v st else miss st.

(** Every header reads in [row] as a cell of the row or [undefined],
    nothing of [Object.prototype]. *)
Definition readable (headers : list string) (row : Row) : bool :=
  forallb (fun h => InferrerSpec.readsData h row) headers.

(** The inner and outer loop bodies on a cell that is a string. *)
Definition tallyCell (row : Row) (acc : Table * bool) (h : string)
    : Table * bool :=
  (update h (bump (cellOf h row)) acc.1, acc.2 && isEmpty (cellOf h row)).

Definition tallyRow (headers : list string) (acc : Table * nat) (row : Row)
    : Table * nat :=
  let scanned := foldl (tallyCell row) (acc.1, true) headers in
  (scanned.1, if scanned.2 then S acc.2 else acc.2).

(** The statistics of rows that are all readable. *)
Definition tally (headers : list string) (rowCount : nat) (rows : list Row)
    : DataStatistics.t :=
  let columnStats :=
    foldl (fun cs header => assign header initial cs) emptyTable headers in
  let counted := foldl (tallyRow headers) (columnStats, 0) rows in
  {| DataStatistics.totalRows := rowCount;
     DataStatistics.totalColumns := List.length headers;
     DataStatistics.emptyRows := counted.2;
     DataStatistics.columnStats :=
       map (fun e => (e.1, summary e.2)) (own counted.1);
     DataStatistics.columnProto := proto counted.1 |}.

(** The table holds counters for every header of [headers]: as an own
    property, or as its prototype for the header [__proto__]. *)
Definition covers (headers : list string) (cs : Table) : Prop :=
  forall h, h ∈ headers ->
    is_Some (JSObject.getOwn h (own cs))
    \/ (h = JSObject.protoKey /\ is_Some (proto cs)).

(** Relations kept by the counters of a column. *)
Definition coherent (st : ColumnStats.t) : Prop :=
  List.length (ColumnStats.unique st) <= ColumnStats.nonEmpty st
  /\ (ColumnStats.nonEmpty st = 0 <-> ColumnStats.maxLength st = 0)
  /\ (ColumnStats.nonEmpty st = 0 <-> ColumnStats.unique st = []).

Definition surveyText : string :=
  "id,note,id" +:+ String LF "1, ,7" +:+ String LF ",,"
  +:+ String LF "2,ok,2".

Definition surveyRows : list Row :=
  [[("id", "7"); ("note", EmptyString)];
   [("id", EmptyString); ("note", EmptyString)];
   [("id", "2"); ("note", "ok")]].

(** The processor once [surveyText] is loaded. *)
Definition surveyed : Processor.CSVProcessor :=
  {| Processor.csvData := Some surveyRows;
     Processor.headers := ["id"; "note"; "id"];
     Processor.rowCount := 3;
     Processor.mappings := Processor.mappings (Processor.new ∅).1 |}.

Definition surveyedStatistics : DataStatistics.t :=
  {| DataStatistics.totalRows := 3;
     DataStatistics.totalColumns := 3;
     DataStatistics.emptyRows := 1;
     DataStatistics.columnStats :=
       [("id", {| ColumnSummary.nonEmpty := 4;
                  ColumnSummary.empty := 2;
                  ColumnSummary.maxLength := 1;
                  ColumnSummary.uniqueCount := 2 |});
        ("note", {| ColumnSummary.nonEmpty := 1;
                    ColumnSummary.empty := 2;
                    ColumnSummary.maxLength := 2;
                    ColumnSummary.uniqueCount := 1 |})];
     DataStatistics.columnProto := None |}.

(** A file with a column named [__proto__], and the processor once it is
    loaded: the row holds no cell for that column. *)
Definition protoText : string := "__proto__,b" +:+ String LF "1,2".

Definition protoLoaded : Processor.CSVProcessor :=
  {| Processor.csvData := Some [[("b", "2")]];
     Processor.headers := ["__proto__"; "b"];
     Processor.rowCount := 1;
     Processor.mappings := Processor.mappings (Processor.new ∅).1 |}.

(** The same headers and no row. *)
Definition protoHeaderOnly : Processor.CSVProcessor :=
  {| Processor.csvData := Some [];
     Processor.headers := ["__proto__"; "b"];
     Processor.rowCount := 0;
     Processor.mappings := Processor.mappings (Processor.new ∅).1 |}.

End StatisticsSpec.

(** ** Further readings of the code: runs of the orchestrator *)

Module RunSpec.
Import Orchestrator.

(** The job is seen in progress at the polls before the [k]-th (counted
    from 0). *)
Definition inProgressBefore (poll : nat -> Completion JobStatus) (k : nat)
    : Prop :=
  forall j, j < k ->
    exists s, poll j = Return s /\ inProgress s = true.

(** The same service with other answers to the status calls. *)
Definition withStatus (remote : Remote) (feed : nat -> Completion JobStatus)
    : Remote :=
  {| createBulkJob := createBulkJob remote;
     uploadBulkData := uploadBulkData remote;
     closeBulkJob := closeBulkJob remote;
     getBulkJobStatus := feed;
     getBulkJobResults := getBulkJobResults remote |}.

Definition report (job : string) (st : JobStatus) (rs : Results)
    : UploadResult :=
  {| jobId := job; status := st; results := rs;
     recordsProcessed := numberRecordsProcessed st;
     recordsFailed := numberRecordsFailed st |}.

(** The status service breaks down at the third call. *)
Definition brokenAtPoll3 : nat -> Completion JobStatus :=
  fun k =>
    if k <? 2 then Return OrchestratorSpec.running
    else Throw "Failed to get job status: API request failed: 503".

End RunSpec.

(** * Properties *)

(** ** Property reads *)

Section ReadFacts.
Context {V : Type}.
Implicit Types (o : JSObject.t V) (k : string) (v : V).

Lemma get_own k o v :
  JSObject.getOwn k o = Some v -> JSObject.get k o = JSObject.Own v.
Proof. unfold JSObject.get. now intros ->. Qed.

Lemma own_get k o : JSObject.own (JSObject.get k o) = JSObject.getOwn k o.
Proof.
  unfold JSObject.get. destruct (JSObject.getOwn k o); [reflexivity|].
  destruct (String.eqb k JSObject.protoKey); [reflexivity|].
  now destruct (arrIncludes k JSObject.prototypeMethods).
Qed.

Lemma ownOr_get (d : V) k o :
  JSObject.ownOr d (JSObject.get k o) = default d (JSObject.getOwn k o).
Proof.
  unfold JSObject.get. destruct (JSObject.getOwn k o); [reflexivity|].
  destruct (String.eqb k JSObject.protoKey); [reflexivity|].
  now destruct (arrIncludes k JSObject.prototypeMethods).
Qed.

(** What is read is an own property exactly when the object has one. *)
Lemma get_Own_iff k o v :
  JSObject.get k o = JSObject.Own v <-> JSObject.getOwn k o = Some v.
Proof.
  split; [|apply get_own]. unfold JSObject.get.
  destruct (JSObject.getOwn k o); [now intros [= ->]|].
  destruct (String.eqb k JSObject.protoKey); [discriminate|].
  now destruct (arrIncludes k JSObject.prototypeMethods).
Qed.

(** An assignment defines the property, except for [__proto__] on an
    object that does not own it. *)
Lemma set_define k v o :
  k <> JSObject.protoKey -> JSObject.set k v o = JSObject.define k v o.
Proof.
  intros Hne. unfold JSObject.set.
  rewrite (proj2 (String.eqb_neq _ _) Hne). now rewrite andb_false_r.
Qed.

Lemma set_proto v o :
  JSObject.has JSObject.protoKey o = false ->
  JSObject.set JSObject.protoKey v o = o.
Proof. intros H. unfold JSObject.set. now rewrite H. Qed.

Lemma set_owned k v o :
  JSObject.has k o = true -> JSObject.set k v o = JSObject.define k v o.
Proof. intros H. unfold JSObject.set. now rewrite H. Qed.

End ReadFacts.

(** ** Strings *)

Section StringFacts.

Lemma append_nil_l (s : string) : EmptyString +:+ s = s.
Proof. reflexivity. Qed.

Lemma append_cons (c : ascii) (s t : string) :
  String c s +:+ t = String c (s +:+ t).
Proof. reflexivity. Qed.

Lemma append_nil_r (s : string) : s +:+ EmptyString = s.
Proof.
  induction s as [|c s IH]; [reflexivity|]. now rewrite append_cons, IH.
Qed.

Lemma append_assoc (s1 s2 s3 : string) :
  (s1 +:+ s2) +:+ s3 = s1 +:+ (s2 +:+ s3).
Proof.
  induction s1 as [|c s1 IH]; [reflexivity|].
  now rewrite !append_cons, IH.
Qed.

Lemma append_snoc_cons (s : string) (c : ascii) (r : string) :
  (s +:+ str1 c) +:+ r = s +:+ String c r.
Proof. now rewrite append_assoc. Qed.

Lemma trimStart_noLeadingSpace (s : string) : noLeadingSpace (trimStart s).
Proof.
  induction s as [|c s IH]; simpl; [exact I|].
  destruct (isWhiteSpace c) eqn:E; [exact IH | exact E].
Qed.

Lemma trimStart_fixed (s : string) : noLeadingSpace s -> trimStart s = s.
Proof. destruct s as [|c s]; simpl; [reflexivity | now intros ->]. Qed.

Lemma trimEnd_idem (s : string) : trimEnd (trimEnd s) = trimEnd s.
Proof.
  induction s as [|c s IH]; simpl; [reflexivity|].
  destruct (trimEnd s) as [|d r] eqn:E.
  - destruct (isWhiteSpace c) eqn:W; simpl; [reflexivity | now rewrite W].
  - simpl in *. now rewrite IH.
Qed.

Lemma trimEnd_noLeadingSpace (s : string) :
  noLeadingSpace s -> noLeadingSpace (trimEnd s).
Proof.
  destruct s as [|c s]; simpl; [trivial|]. intros W.
  destruct (trimEnd s); simpl; [now rewrite W | exact W].
Qed.

Lemma trim_idem (s : string) : trim (trim s) = trim s.
Proof.
  unfold trim.
  rewrite (trimStart_fixed (trimEnd (trimStart s))).
  - apply trimEnd_idem.
  - apply trimEnd_noLeadingSpace, trimStart_noLeadingSpace.
Qed.

Lemma lowerChar_space (c : ascii) :
  isWhiteSpace (lowerChar c) = isWhiteSpace c.
Proof. destruct c as [[] [] [] [] [] [] [] []]; reflexivity. Qed.

Lemma trimStart_lower (s : string) :
  trimStart (toLowerCase s) = toLowerCase (trimStart s).
Proof.
  induction s as [|c s IH]; simpl; [reflexivity|].
  rewrite lowerChar_space. now destruct (isWhiteSpace c).
Qed.

Lemma trimEnd_lower (s : string) :
  trimEnd (toLowerCase s) = toLowerCase (trimEnd s).
Proof.
  induction s as [|c s IH]; simpl; [reflexivity|].
  rewrite IH, lowerChar_space.
  destruct (trimEnd s); simpl; [now destruct (isWhiteSpace c) | reflexivity].
Qed.

Lemma trim_lower (s : string) : trim (toLowerCase s) = toLowerCase (trim s).
Proof. unfold trim. now rewrite trimStart_lower, trimEnd_lower. Qed.

Lemma trimEnd_no_space (s : string) :
  allChars (fun c => negb (isWhiteSpace c)) s = true -> trimEnd s = s.
Proof.
  induction s as [|c s IH]; simpl; [reflexivity|].
  intros [W A]%andb_true_iff. rewrite (IH A).
  destruct s; [|reflexivity].
  now destruct (isWhiteSpace c).
Qed.

Lemma trim_no_space (s : string) :
  allChars (fun c => negb (isWhiteSpace c)) s = true -> trim s = s.
Proof.
  intros A. unfold trim. rewrite trimStart_fixed.
  - now apply trimEnd_no_space.
  - destruct s as [|c s]; simpl in *; [exact I|].
    apply andb_true_iff in A as [W _]. now destruct (isWhiteSpace c).
Qed.

Lemma allChars_filterChars (p : ascii -> bool) (s : string) :
  allChars p (filterChars p s) = true.
Proof.
  induction s as [|c s IH]; simpl; [reflexivity|].
  destruct (p c) eqn:E; simpl; [now rewrite E|exact IH].
Qed.

Lemma allChars_impl (p q : ascii -> bool) (s : string) :
  (forall c, p c = true -> q c = true) ->
  allChars p s = true -> allChars q s = true.
Proof.
  intros Hpq. induction s as [|c s IH]; simpl; [reflexivity|].
  intros [P A]%andb_true_iff. now rewrite (Hpq c P), (IH A).
Qed.

Lemma digit_or_plus_no_space (c : ascii) :
  isDigit c || Ascii.eqb c "+"%char = true -> negb (isWhiteSpace c) = true.
Proof.
  destruct c as [[] [] [] [] [] [] [] []]; vm_compute; congruence.
Qed.

End StringFacts.

(** ** Tokenizer and quoting *)

Section Quoting.

(** Inside quotes, the scanner reads the doubled-quote encoding of [w] and
    the closing quote as the text [w] itself. *)
Lemma scan_quoted_body (w : string) :
  forall (cur : string) (res : list string),
    scan (doubleQuotes w +:+ str1 dquote) true cur res
    = res ++ [trim (cur +:+ w)].
Proof.
  induction w as [|c w IH]; intros cur res.
  - simpl. now rewrite append_nil_r.
  - simpl doubleQuotes. destruct (Ascii.eqb c dquote) eqn:E.
    + apply Ascii.eqb_eq in E as ->.
      rewrite !append_cons. simpl scan.
      rewrite IH. now rewrite append_assoc.
    + rewrite append_cons. simpl scan. rewrite E.
      rewrite andb_false_r. cbv iota.
      rewrite IH. now rewrite append_assoc.
Qed.

Lemma parseCSVLine_quoted (w : string) : parseCSVLine (quoted w) = [trim w].
Proof.
  unfold parseCSVLine.
  change (quoted w) with (String dquote (doubleQuotes w +:+ str1 dquote)).
  pose proof (scan_quoted_body w EmptyString []) as H.
  rewrite append_nil_l in H. simpl app in H. rewrite <- H.
  simpl scan.
  now destruct (doubleQuotes w +:+ str1 dquote).
Qed.

Lemma includesChar_cons_false (a c : ascii) (w : string) :
  includesChar a (String c w) = false ->
  Ascii.eqb c a = false /\ includesChar a w = false.
Proof.
  intros H. change (Ascii.eqb a c || includesChar a w = false) in H.
  apply orb_false_iff in H as [H1 H2]. split; [|exact H2].
  rewrite Ascii.eqb_sym. exact H1.
Qed.

(** Outside quotes, a text with neither comma nor quote is one field. *)
Lemma scan_plain (w : string) :
  forall (cur : string) (res : list string),
    includesChar comma w = false -> includesChar dquote w = false ->
    scan w false cur res = res ++ [trim (cur +:+ w)].
Proof.
  induction w as [|c w IH]; intros cur res Hc Hq.
  - simpl. now rewrite append_nil_r.
  - apply includesChar_cons_false in Hc as [Hc1 Hc2].
    apply includesChar_cons_false in Hq as [Hq1 Hq2].
    simpl scan. rewrite Hq1, Hc1. simpl andb. cbv iota.
    rewrite IH by assumption. now rewrite append_assoc.
Qed.

Lemma parseCSVLine_plain (w : string) :
  needsQuotes w = false -> parseCSVLine w = [trim w].
Proof.
  unfold needsQuotes. intros [[Hc Hq]%orb_false_iff _]%orb_false_iff.
  unfold parseCSVLine. now rewrite scan_plain.
Qed.

Lemma booleanMap_trimmed (k b : string) :
  JSObject.getOwn k booleanMap = Some b -> trim b = b.
Proof.
  unfold booleanMap. simpl.
  repeat (destruct (String.eqb k _); [intros [= <-]; reflexivity|]).
  discriminate.
Qed.

(** [formatValue] never leaves white space around its result. *)
Lemma formatValue_trimmed (value : string) :
  trim (formatValue value) = formatValue value.
Proof.
  unfold formatValue.
  set (v1 := trim value).
  assert (T1 : trim v1 = v1) by apply trim_idem.
  set (v2 := if includesChar "@"%char v1 then toLowerCase v1 else v1).
  assert (T2 : trim v2 = v2).
  { subst v2. destruct (includesChar _ v1); [|exact T1].
    now rewrite trim_lower, T1. }
  set (keep := fun c => isDigit c || Ascii.eqb c "+"%char).
  set (v3 := if negb (isEmpty v2) && allChars separatorChar v2
                && (10 <=? String.length v2)
             then filterChars keep v2 else v2).
  assert (T3 : trim v3 = v3).
  { subst v3. destruct (_ && _ && _); [|exact T2].
    apply trim_no_space.
    apply (allChars_impl keep); [apply digit_or_plus_no_space|].
    apply allChars_filterChars. }
  destruct (arrIncludes _ _); [|exact T3]. rewrite ownOr_get.
  destruct (JSObject.getOwn (toLowerCase v3) booleanMap) as [b|] eqn:G; simpl.
  - now apply booleanMap_trimmed in G.
  - exact T3.
Qed.

Lemma parseCSVLine_escapeValue (w : string) :
  parseCSVLine (escapeValue w) = [trim w].
Proof.
  unfold escapeValue. destruct (needsQuotes w) eqn:N.
  - apply parseCSVLine_quoted.
  - now apply parseCSVLine_plain.
Qed.

End Quoting.

(** ** Claims on the tokenizer *)

Section TokenizerClaims.

(** C1, as stated, fails: the value [ a,b] (a comma, and a space in front)
    is not recovered from its quoted encoding; the tokenizer trims it. *)
Lemma padded_value_does_not_round_trip :
  needsQuotes Samples.paddedValue = true
  /\ ~ TokenizerSpec.roundTrips Samples.paddedValue.
Proof.
  split; [reflexivity|].
  intros [H _]. vm_compute in H. discriminate H.
Qed.

(** The cell text written for a value is that of the normalized value: an
    upper-case letter next to an [@] does not come back either. *)
Lemma mixed_case_value_does_not_round_trip :
  needsQuotes Samples.mixedCaseValue = true
  /\ parseCSVLine (escapeValue (formatValue Samples.mixedCaseValue))
     = ["a@b,c"].
Proof. split; reflexivity. Qed.

(** C1, amended: for every cell value, the line parser applied to the value
    enclosed in quotes (its own quotes doubled) returns the single cell
    [trim v], commas, quotes and newlines inside it kept; and applied to
    the cell text the re-serializer writes for [v], it returns the
    normalized value [formatValue v]. *)
Theorem quoting_round_trip_up_to_normalization (v : string) :
  parseCSVLine (quoted v) = [trim v]
  /\ parseCSVLine (escapeValue (formatValue v)) = [formatValue v].
Proof.
  split.
  - apply parseCSVLine_quoted.
  - rewrite parseCSVLine_escapeValue. now rewrite formatValue_trimmed.
Qed.

(** Values that normalization leaves alone do round-trip. *)
Lemma roundTrips_of_normal (v : string) :
  trim v = v -> formatValue v = v -> TokenizerSpec.roundTrips v.
Proof.
  intros T F. split.
  - now rewrite parseCSVLine_quoted, T.
  - now rewrite F, parseCSVLine_escapeValue, T.
Qed.

Example newline_value_round_trips :
  TokenizerSpec.roundTrips Samples.valueWithNewline.
Proof. apply roundTrips_of_normal; reflexivity. Qed.

(** C7: the line made of a quote, [a,b], two quotes, [c] and a quote
    tokenizes to the one cell [a,b], quote, [c]; and the cell text written
    for that value is the same line again. *)
Theorem quoted_literal_round_trip :
  parseCSVLine Samples.quotedLiteral = [Samples.quotedValue]
  /\ escapeValue (formatValue Samples.quotedValue) = Samples.quotedLiteral
  /\ mappedCell [("h", Samples.quotedValue)] "h" = Samples.quotedLiteral.
Proof. repeat split; reflexivity. Qed.

(** The text of a file is cut at every line feed before the lines are
    scanned, quoted or not: the line parser never sees a quoted value that
    spans two lines as one line. *)
Example quoted_newline_is_cut_by_parseCSVText :
  parseCSVText Samples.textWithQuotedNewline
  = Return {| Tokenizer.headers := ["h"];
              Tokenizer.data := [[("h", "a")]; [("h", "b")]] |}.
Proof. reflexivity. Qed.

Lemma splitLF_not_nil (s : string) : splitLF s <> [].
Proof.
  induction s as [|c s IH]; simpl; [discriminate|].
  destruct (Ascii.eqb c LF); [discriminate|].
  destruct (splitLF s); [contradiction | discriminate].
Qed.

(** The [throw] of [parseCSVText] is never reached. *)
Lemma parseCSVText_returns (csvText : string) :
  exists parsed, parseCSVText csvText = Return parsed.
Proof.
  unfold parseCSVText.
  destruct (splitLF (trim csvText)) as [|first rest] eqn:E.
  - now apply splitLF_not_nil in E.
  - eauto.
Qed.

Lemma parseCSVText_blank (csvText : string) :
  trim csvText = EmptyString ->
  parseCSVText csvText
  = Return {| Tokenizer.headers := [EmptyString]; Tokenizer.data := [] |}.
Proof. unfold parseCSVText. now intros ->. Qed.

(** C2 fails on the code: the empty text is parsed into a document with
    one empty header and no rows; nothing is thrown. *)
Theorem parseCSVText_empty_is_parsed :
  parseCSVText EmptyString
  = Return {| Tokenizer.headers := [EmptyString]; Tokenizer.data := [] |}.
Proof. reflexivity. Qed.

End TokenizerClaims.

(** ** Property tables *)

Section ObjectFacts.
Context {V : Type}.
Implicit Types (o : JSObject.t V) (k : string) (v : V).

Lemma getOwn_replace_eq k v o :
  JSObject.has k o = true ->
  JSObject.getOwn k (JSObject.replace k v o) = Some v.
Proof.
  unfold JSObject.has. induction o as [|[k' v'] o IH]; simpl; [discriminate|].
  destruct (String.eqb k k') eqn:E; simpl; rewrite E; [reflexivity|exact IH].
Qed.

Lemma getOwn_replace_ne k k' v o :
  k <> k' -> JSObject.getOwn k' (JSObject.replace k v o) = JSObject.getOwn k' o.
Proof.
  intros Hne. induction o as [|[k1 v1] o IH]; simpl; [reflexivity|].
  destruct (String.eqb k k1) eqn:E; simpl.
  - apply String.eqb_eq in E as <-.
    now rewrite (proj2 (String.eqb_neq k' k)) by congruence.
  - now rewrite IH.
Qed.

Lemma getOwn_insertIndex_eq n k v o :
  JSObject.getOwn k o = None ->
  JSObject.getOwn k (JSObject.insertIndex n k v o) = Some v.
Proof.
  induction o as [|[k1 v1] o IH]; simpl.
  - now rewrite String.eqb_refl.
  - destruct (String.eqb k k1) eqn:E; [discriminate|]. intros G.
    destruct (JSObject.arrayIndex k1) as [m|]; simpl.
    + destruct (m <? n)%N; simpl.
      * rewrite E. now apply IH.
      * now rewrite String.eqb_refl.
    + now rewrite String.eqb_refl.
Qed.

Lemma getOwn_insertIndex_ne n k k' v o :
  k <> k' ->
  JSObject.getOwn k' (JSObject.insertIndex n k v o) = JSObject.getOwn k' o.
Proof.
  intros Hne.
  assert (Ek : String.eqb k' k = false) by (apply String.eqb_neq; congruence).
  induction o as [|[k1 v1] o IH]; simpl.
  - now rewrite Ek.
  - destruct (JSObject.arrayIndex k1) as [m|]; simpl.
    + destruct (m <? n)%N; simpl; [now rewrite IH | now rewrite Ek].
    + now rewrite Ek.
Qed.

Lemma getOwn_snoc_eq k v o :
  JSObject.getOwn k o = None -> JSObject.getOwn k (o ++ [(k, v)]) = Some v.
Proof.
  induction o as [|[k1 v1] o IH]; simpl.
  - now rewrite String.eqb_refl.
  - destruct (String.eqb k k1); [discriminate | exact IH].
Qed.

Lemma getOwn_snoc_ne k k' v o :
  k <> k' -> JSObject.getOwn k' (o ++ [(k, v)]) = JSObject.getOwn k' o.
Proof.
  intros Hne.
  assert (Ek : String.eqb k' k = false) by (apply String.eqb_neq; congruence).
  induction o as [|[k1 v1] o IH]; simpl; [now rewrite Ek|].
  now rewrite IH.
Qed.

(** Reading back what was just written. *)
Lemma getOwn_define_eq k v o :
  JSObject.getOwn k (JSObject.define k v o) = Some v.
Proof.
  unfold JSObject.define. destruct (JSObject.has k o) eqn:H.
  - now apply getOwn_replace_eq.
  - unfold JSObject.has in H.
    destruct (JSObject.getOwn k o) eqn:G; [discriminate|].
    destruct (JSObject.arrayIndex k).
    + now apply getOwn_insertIndex_eq.
    + now apply getOwn_snoc_eq.
Qed.

(** Writing one key leaves the others as they were. *)
Lemma getOwn_define_ne k k' v o :
  k <> k' -> JSObject.getOwn k' (JSObject.define k v o) = JSObject.getOwn k' o.
Proof.
  intros Hne. unfold JSObject.define. destruct (JSObject.has k o).
  - now apply getOwn_replace_ne.
  - destruct (JSObject.arrayIndex k).
    + now apply getOwn_insertIndex_ne.
    + now apply getOwn_snoc_ne.
Qed.

Lemma getOwn_None_keys k o :
  JSObject.getOwn k o = None <-> k ∉ JSObject.keys o.
Proof.
  unfold JSObject.keys. induction o as [|[k1 v1] o IH]; simpl.
  - split; [intros _; apply not_elem_of_nil | reflexivity].
  - rewrite not_elem_of_cons. destruct (String.eqb_spec k k1) as [->|Hne].
    + split; [discriminate | intros [? _]; congruence].
    + rewrite IH. tauto.
Qed.

Lemma getOwn_Some_elem k v o :
  JSObject.getOwn k o = Some v -> (k, v) ∈ o.
Proof.
  induction o as [|[k1 v1] o IH]; simpl; [discriminate|].
  destruct (String.eqb_spec k k1) as [->|Hne].
  - intros [= ->]. apply list_elem_of_here.
  - intros G. apply list_elem_of_further. now apply IH.
Qed.

(** With distinct keys, every entry is the one [get] finds. *)
Lemma elem_getOwn_Some k v o :
  JSObject.wf o -> (k, v) ∈ o -> JSObject.getOwn k o = Some v.
Proof.
  unfold JSObject.wf, JSObject.keys.
  induction o as [|[k1 v1] o IH]; simpl; intros Hwf Hin.
  - now apply elem_of_nil in Hin.
  - apply NoDup_cons in Hwf as [Hk1 Hwf].
    apply elem_of_cons in Hin as [[= -> ->]|Hin].
    + now rewrite String.eqb_refl.
    + destruct (String.eqb_spec k k1) as [->|Hne]; [|now apply IH].
      exfalso. apply Hk1. apply list_elem_of_fmap. now exists (k1, v).
Qed.

(** Reading back what was just assigned: [__proto__] apart. *)
Lemma getOwn_set_eq k v o :
  k <> JSObject.protoKey -> JSObject.getOwn k (JSObject.set k v o) = Some v.
Proof. intros Hne. rewrite set_define by exact Hne. apply getOwn_define_eq. Qed.

(** Assigning to one key leaves the others as they were. *)
Lemma getOwn_set_ne k k' v o :
  k <> k' -> JSObject.getOwn k' (JSObject.set k v o) = JSObject.getOwn k' o.
Proof.
  intros Hne. unfold JSObject.set.
  destruct (negb (JSObject.has k o) && String.eqb k JSObject.protoKey);
    [reflexivity|].
  now apply getOwn_define_ne.
Qed.

(** What is found after an assignment was assigned or was there. *)
Lemma getOwn_set_cases k k' v w o :
  JSObject.getOwn k' (JSObject.set k v o) = Some w ->
  (k' = k /\ w = v) \/ JSObject.getOwn k' o = Some w.
Proof.
  unfold JSObject.set.
  destruct (negb (JSObject.has k o) && String.eqb k JSObject.protoKey);
    [now right|].
  destruct (String.eqb_spec k k') as [->|Hne].
  - rewrite getOwn_define_eq. intros [= ->]. now left.
  - rewrite getOwn_define_ne by exact Hne. now right.
Qed.

(** No assignment gives an object a property named [__proto__]. *)
Lemma getOwn_set_proto k v o :
  JSObject.getOwn JSObject.protoKey o = None ->
  JSObject.getOwn JSObject.protoKey (JSObject.set k v o) = None.
Proof.
  intros Hno. destruct (String.eqb_spec k JSObject.protoKey) as [->|Hne].
  - rewrite set_proto; [exact Hno|]. unfold JSObject.has. now rewrite Hno.
  - rewrite getOwn_set_ne by exact Hne. exact Hno.
Qed.

End ObjectFacts.

(** ** Claims on the match scorer *)

Section ScorerFacts.
Import ScorerSpec.

Lemma gtb_lt (a b : Q) : gtb a b = true <-> (b < a)%Q.
Proof.
  unfold gtb. rewrite negb_true_iff. split.
  - intros H. apply Qnot_le_lt. intros Hle.
    apply Qle_bool_iff in Hle. congruence.
  - intros H. destruct (Qle_bool a b) eqn:E; [|reflexivity].
    apply Qle_bool_iff in E. now apply Qlt_not_le in H.
Qed.

Lemma gtb_le (a b : Q) : gtb a b = false <-> (a <= b)%Q.
Proof.
  unfold gtb. rewrite negb_false_iff. apply Qle_bool_iff.
Qed.

Lemma partialScore_max (q r : Q) :
  partialScore q -> partialScore r -> partialScore (Math_max q r).
Proof.
  unfold Math_max. now destruct (Qle_bool q r).
Qed.

Lemma partialScore_lt_1 (q : Q) : partialScore q -> ~ (q == 1)%Q.
Proof.
  intros [-> | [-> | [-> | ->]]]; intros H; vm_compute in H; discriminate H.
Qed.

Lemma partialScore_synonyms (sfN csvN : string)
    (table : list (string * list string)) (s : Q) :
  partialScore s ->
  partialScore
    (foldl
       (fun score '(sfPattern, csvPatterns) =>
          if includes sfPattern sfN
             && existsb (fun csvPattern => includes csvPattern csvN)
                  csvPatterns
          then Math_max score (9 # 10) else score)
       s table).
Proof.
  induction table as [|[sfPattern csvPatterns] l IH] in s |- *;
    simpl; intros P; [exact P|].
  apply IH. destruct (_ && _); [|exact P].
  apply partialScore_max; [exact P|]. unfold partialScore. tauto.
Qed.

Lemma partialScore_containment (inName inLabel : bool) :
  partialScore
    (let score := 0%Q in
     let score := if inName then Math_max score (8 # 10) else score in
     if inLabel then Math_max score (7 # 10) else score).
Proof. unfold partialScore. destruct inName, inLabel; vm_compute; tauto. Qed.

(** Short of an exact match, the score is one of 0, 0.7, 0.8 and 0.9. *)
Lemma score_cases (csvField : string) (sfField : TargetField) :
  (String.eqb (normalizeFieldName csvField) (normalizeFieldName (name sfField))
   || String.eqb (normalizeFieldName csvField)
        (normalizeFieldName (label sfField)) = true
   /\ calculateFieldMatchScore csvField sfField = 1%Q)
  \/
  (String.eqb (normalizeFieldName csvField) (normalizeFieldName (name sfField))
   || String.eqb (normalizeFieldName csvField)
        (normalizeFieldName (label sfField)) = false
   /\ partialScore (calculateFieldMatchScore csvField sfField)).
Proof.
  unfold calculateFieldMatchScore.
  destruct (_ || _) eqn:E;
    [left; split; reflexivity | right; split; [reflexivity|]].
  apply partialScore_synonyms. apply partialScore_containment.
Qed.

End ScorerFacts.

Section ScorerClaims.
Import ScorerSpec.

(** C4, as stated, fails: the score of [Email Address] against the field
    [Email] is not 1. *)
Lemma email_address_score_is_not_1 :
  ~ (calculateFieldMatchScore "Email Address" emailField == 1)%Q.
Proof. intros H. vm_compute in H. discriminate H. Qed.

(** C4, amended: the header [Email Address] normalizes to [emailaddress],
    which is not [email], so its score against the field named and labelled
    [Email] is 0.9, from the synonym table; and a score is 1 exactly when
    the normalized header equals the normalized name or the normalized
    label of the field. *)
Theorem email_address_score :
  normalizeFieldName "Email Address" = "emailaddress"
  /\ normalizeFieldName (name emailField) = "email"
  /\ calculateFieldMatchScore "Email Address" emailField = (9 # 10)%Q
  /\ forall (csvField : string) (sfField : TargetField),
       (calculateFieldMatchScore csvField sfField == 1)%Q
       <-> (normalizeFieldName csvField = normalizeFieldName (name sfField)
            \/ normalizeFieldName csvField
               = normalizeFieldName (label sfField)).
Proof.
  repeat split; try reflexivity.
  - intros H. destruct (score_cases csvField sfField) as [[E _]|[_ P]].
    + apply orb_true_iff in E as [E|E]; apply String.eqb_eq in E; tauto.
    + now apply partialScore_lt_1 in P.
  - intros H. destruct (score_cases csvField sfField) as [[_ ->] | [E _]].
    + reflexivity.
    + apply orb_false_iff in E as [E1 E2].
      apply String.eqb_neq in E1, E2. tauto.
Qed.

End ScorerClaims.

(** ** Claims on the suggestion engine *)

Section SuggestionFacts.
Import ScorerSpec.

Implicit Types (fields : list TargetField) (hN : string).

Lemma bestOf_bounds hN fields best :
  bestOf hN fields best ->
  (0 <= best.2)%Q
  /\ forall g, g ∈ fields -> (calculateFieldMatchScore hN g <= best.2)%Q.
Proof.
  destruct best as [[f|] bs]; unfold bestOf; simpl.
  - intros (-> & Hp & i & _ & Hmax & _). split; [now apply Qlt_le_weak|].
    exact Hmax.
  - intros [-> Hle]. split; [apply Qle_refl | exact Hle].
Qed.

Lemma bestOf_step hN fields best (x : TargetField) :
  bestOf hN fields best -> bestOf hN (fields ++ [x]) (bestStep hN best x).
Proof.
  intros Hinv. destruct (bestOf_bounds _ _ _ Hinv) as [Hpos Hall].
  destruct best as [bm bs]. unfold bestStep. simpl in *.
  destruct (gtb (calculateFieldMatchScore hN x) bs) eqn:G.
  - apply gtb_lt in G. unfold bestOf. simpl.
    split; [reflexivity|]. split; [now apply Qle_lt_trans with bs|].
    exists (List.length fields). split; [|split].
    + now rewrite lookup_app_r, Nat.sub_diag by lia.
    + intros g [Hg|Hg]%elem_of_app.
      * apply Qlt_le_weak. apply Qle_lt_trans with bs; [now apply Hall|exact G].
      * apply list_elem_of_singleton in Hg as ->. apply Qle_refl.
    + intros j g Hj Hg. rewrite lookup_app_l in Hg by exact Hj.
      apply Qle_lt_trans with bs; [|exact G].
      apply Hall. now apply list_elem_of_lookup_2 in Hg.
  - apply gtb_le in G. unfold bestOf in *. simpl in *. destruct bm as [f|].
    + destruct Hinv as (-> & Hp & i & Hi & Hmax & Hfirst).
      split; [reflexivity|]. split; [exact Hp|].
      exists i. split; [|split].
      * apply lookup_app_l_Some. exact Hi.
      * intros g [Hg|Hg]%elem_of_app; [now apply Hmax|].
        now apply list_elem_of_singleton in Hg as ->.
      * intros j g Hj Hg. apply (Hfirst j g Hj).
        apply lookup_lt_Some in Hi.
        rewrite lookup_app_l in Hg by lia. exact Hg.
    + destruct Hinv as [-> Hle]. split; [reflexivity|].
      intros g [Hg|Hg]%elem_of_app; [now apply Hle|].
      now apply list_elem_of_singleton in Hg as ->.
Qed.

Lemma bestOf_foldl hN fields more best :
  bestOf hN fields best ->
  bestOf hN (fields ++ more) (foldl (bestStep hN) best more).
Proof.
  induction more as [|x more IH] in fields, best |- *; simpl; intros Hinv.
  - now rewrite app_nil_r.
  - replace (fields ++ x :: more) with ((fields ++ [x]) ++ more)
      by now rewrite <- app_assoc.
    apply IH. now apply bestOf_step.
Qed.

Lemma findBest_bestOf hN fields : bestOf hN fields (findBest hN fields).
Proof.
  apply (bestOf_foldl hN [] fields (None, 0%Q)).
  split; [reflexivity|]. intros g Hg. now apply elem_of_nil in Hg.
Qed.

(** The header [__proto__] never gets an entry: the assignment is taken by
    the setter of [Object.prototype]. *)
Lemma getOwn_suggestStep_proto fields (acc : JSObject.t string) (x : string) :
  JSObject.getOwn JSObject.protoKey acc = None ->
  JSObject.getOwn JSObject.protoKey (suggestStep fields acc x) = None.
Proof.
  intros Hno. unfold suggestStep.
  destruct (findBest (normalizeFieldName x) fields) as [[f|] s];
    [|exact Hno].
  destruct (gtb s (6 # 10)); [|exact Hno]. now apply getOwn_set_proto.
Qed.

Lemma getOwn_suggestStep fields (acc : JSObject.t string) (x h : string) :
  h <> JSObject.protoKey ->
  JSObject.getOwn h (suggestStep fields acc x)
  = match (if decide (h = x) then suggestionFor fields x else None) with
    | Some n => Some n
    | None => JSObject.getOwn h acc
    end.
Proof.
  intros Hp. unfold suggestStep, suggestionFor.
  destruct (findBest (normalizeFieldName x) fields) as [[f|] s].
  - destruct (gtb s (6 # 10)).
    + destruct (decide (h = x)) as [->|Hne].
      * now apply getOwn_set_eq.
      * apply getOwn_set_ne. congruence.
    + now destruct (decide (h = x)).
  - now destruct (decide (h = x)).
Qed.

Lemma getOwn_suggestions_proto fields (hs : list string) :
  forall acc : JSObject.t string,
    JSObject.getOwn JSObject.protoKey acc = None ->
    JSObject.getOwn JSObject.protoKey (foldl (suggestStep fields) acc hs)
    = None.
Proof.
  induction hs as [|x hs IH]; intros acc Hno; [exact Hno|].
  simpl. apply IH. now apply getOwn_suggestStep_proto.
Qed.

Lemma getOwn_suggestions_from fields (hs : list string) :
  forall (acc : JSObject.t string) (h : string),
    h <> JSObject.protoKey ->
    JSObject.getOwn h (foldl (suggestStep fields) acc hs)
    = match (if decide (h ∈ hs) then suggestionFor fields h else None) with
      | Some n => Some n
      | None => JSObject.getOwn h acc
      end.
Proof.
  induction hs as [|x hs IH]; intros acc h Hp; simpl.
  - destruct (decide (h ∈ [])) as [Hin|_]; [|reflexivity].
    now apply elem_of_nil in Hin.
  - rewrite IH, getOwn_suggestStep by exact Hp.
    destruct (decide (h ∈ x :: hs)) as [Hc|Hc];
      destruct (decide (h ∈ hs)) as [Hin|Hnin];
      destruct (decide (h = x)) as [->|Hne];
      try reflexivity.
    + now destruct (suggestionFor fields x).
    + apply elem_of_cons in Hc as [?|?]; contradiction.
    + exfalso. apply Hc. apply list_elem_of_here.
    + exfalso. apply Hc. now apply list_elem_of_further.
    + exfalso. apply Hc. apply list_elem_of_here.
Qed.

Lemma getOwn_generateMappingSuggestions (csvHeaders : list string) fields
    (h : string) :
  h <> JSObject.protoKey ->
  JSObject.getOwn h (generateMappingSuggestions csvHeaders fields)
  = if decide (h ∈ csvHeaders) then suggestionFor fields h else None.
Proof.
  intros Hp. unfold generateMappingSuggestions.
  rewrite getOwn_suggestions_from by exact Hp.
  destruct (decide (h ∈ csvHeaders)); [|reflexivity].
  now destruct (suggestionFor fields h).
Qed.

Lemma getOwn_generateMappingSuggestions_proto (csvHeaders : list string)
    fields :
  JSObject.getOwn JSObject.protoKey
    (generateMappingSuggestions csvHeaders fields) = None.
Proof. now apply getOwn_suggestions_proto. Qed.

End SuggestionFacts.

Section SuggestionClaims.
Import ScorerSpec.

(** C8 fails on the code for the header [__proto__]: the field [Id]
    scores 0.8 for it, above 0.6, and is the first with the best score, yet
    no suggestion is emitted: the assignment
    [suggestions[csvHeader] = bestMatch.name] does not create a property of
    that name. *)
Theorem proto_header_gets_no_suggestion :
  firstStrictBest "__proto__" [idField] idField
  /\ (6 # 10 < engineScore "__proto__" idField)%Q
  /\ generateMappingSuggestions ["__proto__"] [idField] = JSObject.empty
  /\ JSObject.get "__proto__"
       (generateMappingSuggestions ["__proto__"] [idField])
     = JSObject.Prototype.
Proof.
  split; [|split; [reflexivity | split; reflexivity]].
  exists 0. split; [reflexivity|]. split.
  - intros g Hg. apply list_elem_of_singleton in Hg as ->. apply Qle_refl.
  - intros j g Hj. lia.
Qed.

(** X30: for a header of the list other than [__proto__], the engine
    scores every field; when the highest score is above 0.6 the suggestion
    for the header is the name of the first field that attains it (every
    earlier field scores strictly less, no field scores more), and when no
    field scores above 0.6 the header gets no suggestion. *)
Theorem suggestion_is_first_strict_best (csvHeaders : list string)
    (fields : list TargetField) (csvHeader : string) :
  csvHeader ∈ csvHeaders ->
  csvHeader <> "__proto__" ->
  (exists f,
      firstStrictBest csvHeader fields f
      /\ (6 # 10 < engineScore csvHeader f)%Q
      /\ JSObject.getOwn csvHeader
           (generateMappingSuggestions csvHeaders fields)
         = Some (name f))
  \/ ((forall g, g ∈ fields -> (engineScore csvHeader g <= 6 # 10)%Q)
      /\ JSObject.getOwn csvHeader
           (generateMappingSuggestions csvHeaders fields)
         = None).
Proof.
  intros Hin Hp. rewrite getOwn_generateMappingSuggestions by exact Hp.
  rewrite decide_True by exact Hin. unfold suggestionFor.
  pose proof (findBest_bestOf (normalizeFieldName csvHeader) fields) as Hinv.
  destruct (findBest (normalizeFieldName csvHeader) fields) as [[f|] s];
    unfold bestOf in Hinv; simpl in Hinv.
  - destruct Hinv as (-> & Hpos & i & Hi & Hmax & Hfirst).
    destruct (gtb _ (6 # 10)) eqn:G.
    + left. exists f. apply gtb_lt in G.
      split; [|split; [exact G | reflexivity]].
      exists i. auto.
    + right. apply gtb_le in G. split; [|reflexivity].
      intros g Hg. eapply Qle_trans; [now apply Hmax | exact G].
  - destruct Hinv as [-> Hle]. right. split; [|reflexivity].
    intros g Hg. eapply Qle_trans; [now apply Hle | discriminate].
Qed.

Lemma suggestion_is_first_strict_best_witness :
  (exists f,
      firstStrictBest "Email Address" [accountField; emailField] f
      /\ (6 # 10 < engineScore "Email Address" f)%Q
      /\ JSObject.getOwn "Email Address"
           (generateMappingSuggestions ["Email Address"; "Notes"]
              [accountField; emailField])
         = Some (name f))
  \/ ((forall g, g ∈ [accountField; emailField] ->
         (engineScore "Email Address" g <= 6 # 10)%Q)
      /\ JSObject.getOwn "Email Address"
           (generateMappingSuggestions ["Email Address"; "Notes"]
              [accountField; emailField])
         = None).
Proof.
  apply (suggestion_is_first_strict_best ["Email Address"; "Notes"]
           [accountField; emailField] "Email Address").
  - apply list_elem_of_here.
  - discriminate.
Defined.

(** A header that is not in the list gets no entry. *)
Lemma no_suggestion_outside_headers (csvHeaders : list string)
    (fields : list TargetField) (csvHeader : string) :
  csvHeader ∉ csvHeaders ->
  JSObject.getOwn csvHeader (generateMappingSuggestions csvHeaders fields)
  = None.
Proof.
  intros Hnin.
  destruct (String.eqb_spec csvHeader JSObject.protoKey) as [->|Hp].
  - apply getOwn_generateMappingSuggestions_proto.
  - rewrite getOwn_generateMappingSuggestions by exact Hp.
    now rewrite decide_False.
Qed.

(** Two fields with score 1 for [Email]: the first one is kept. *)
Example tie_keeps_first_field :
  engineScore "Email" emailField = 1%Q
  /\ engineScore "Email" emailAliasField = 1%Q
  /\ generateMappingSuggestions ["Email"] [emailField; emailAliasField]
     = [("Email", "Email")]
  /\ generateMappingSuggestions ["Email"] [emailAliasField; emailField]
     = [("Email", "E_Mail__c")].
Proof. repeat split; reflexivity. Qed.

Example low_score_leaves_header_unmapped :
  engineScore "Notes" emailField = 0%Q
  /\ generateMappingSuggestions ["Notes"] [emailField; accountField] = [].
Proof. split; reflexivity. Qed.

End SuggestionClaims.

(** ** Claims on the type inferrer *)

Section InferrerFacts.
Import InferrerSpec.

Lemma nonBlankColumn_app (rows more : list Row) (csvHeader : string) :
  nonBlankColumn (rows ++ more) csvHeader
  = nonBlankColumn rows csvHeader ++ nonBlankColumn more csvHeader.
Proof.
  unfold nonBlankColumn. now rewrite omap_app, List.filter_app.
Qed.

Lemma filter_length_le {A : Type} (p : A -> bool) (l : list A) :
  List.length (List.filter p l) <= List.length l.
Proof.
  induction l as [|x l IH]; simpl; [lia|]. destruct (p x); simpl; lia.
Qed.

Lemma nonBlankColumn_length (rows : list Row) (csvHeader : string) :
  List.length (nonBlankColumn rows csvHeader) <= List.length rows.
Proof.
  unfold nonBlankColumn. etransitivity; [apply filter_length_le|].
  induction rows as [|row rows IH]; [reflexivity|].
  change (omap (JSObject.getOwn csvHeader) (row :: rows))
    with (match JSObject.getOwn csvHeader row with
          | Some y => y :: omap (JSObject.getOwn csvHeader) rows
          | None => omap (JSObject.getOwn csvHeader) rows
          end).
  destruct (JSObject.getOwn csvHeader row); simpl; lia.
Qed.

Lemma nonBlankColumn_prefix (rows : list Row) (csvHeader : string) :
  nonBlankColumn (take 20 rows) csvHeader
  `prefix_of` nonBlankColumn rows csvHeader.
Proof.
  exists (nonBlankColumn (drop 20 rows) csvHeader).
  now rewrite <- nonBlankColumn_app, take_drop.
Qed.

(** On a string, the test of the filter is [notBlank]. *)
Lemma nonBlank_Own (s : string) :
  nonBlank (JSObject.Own s) = Return (notBlank s).
Proof.
  unfold nonBlank, notBlank. destruct s as [|c s]; reflexivity.
Qed.

(** The filter on rows that all read as data: the non-blank cells. *)
Lemma filterC_data (rows : list Row) (csvHeader : string) :
  Forall (fun row => readsData csvHeader row = true) rows ->
  exists kept,
    filterC nonBlank (map (JSObject.get csvHeader) rows) = Return kept
    /\ omap JSObject.own kept = nonBlankColumn rows csvHeader.
Proof.
  unfold nonBlankColumn.
  induction 1 as [|row rows Hrow Hrows (kept & Hk & Ho)].
  - now exists [].
  - unfold readsData in Hrow.
    pose proof (own_get csvHeader row) as Hown.
    change (filterC nonBlank (map (JSObject.get csvHeader) (row :: rows)))
      with (bind (nonBlank (JSObject.get csvHeader row)) (fun keep =>
            bind (filterC nonBlank (map (JSObject.get csvHeader) rows))
              (fun kept => Return (if keep then JSObject.get csvHeader row
                                                 :: kept else kept)))).
    rewrite Hk.
    change (omap (JSObject.getOwn csvHeader) (row :: rows))
      with (match JSObject.getOwn csvHeader row with
            | Some y => y :: omap (JSObject.getOwn csvHeader) rows
            | None => omap (JSObject.getOwn csvHeader) rows
            end).
    rewrite <- Hown.
    destruct (JSObject.get csvHeader row) as [|s|m|]; try discriminate.
    + exists kept. split; [reflexivity | exact Ho].
    + rewrite nonBlank_Own. cbn [bind JSObject.own List.filter].
      destruct (notBlank s).
      * exists (JSObject.Own s :: kept). split; [reflexivity|].
        change (omap JSObject.own (JSObject.Own s :: kept))
          with (s :: omap JSObject.own kept).
        now rewrite Ho.
      * exists kept. split; [reflexivity | exact Ho].
Qed.

(** The filter throws as soon as one row resolves the name through
    [Object.prototype]. *)
Lemma filterC_inherited (rows : list Row) (csvHeader : string) :
  Exists (fun row => readsData csvHeader row = false) rows ->
  filterC nonBlank (map (JSObject.get csvHeader) rows) = Throw valTrimMessage.
Proof.
  induction rows as [|row rows IH]; intros Hex.
  - now apply Exists_nil in Hex.
  - change (filterC nonBlank (map (JSObject.get csvHeader) (row :: rows)))
      with (bind (nonBlank (JSObject.get csvHeader row)) (fun keep =>
            bind (filterC nonBlank (map (JSObject.get csvHeader) rows))
              (fun kept => Return (if keep then JSObject.get csvHeader row
                                                 :: kept else kept)))).
    unfold readsData in Hex.
    destruct (JSObject.get csvHeader row) as [|s|m|] eqn:G;
      try reflexivity.
    + apply Exists_cons in Hex as [Hrow|Hrows];
        [now rewrite G in Hrow|]. cbn [nonBlank bind].
      now rewrite IH.
    + apply Exists_cons in Hex as [Hrow|Hrows];
        [now rewrite G in Hrow|]. rewrite nonBlank_Own. cbn [bind].
      now rewrite IH.
Qed.

Lemma sampleValues_data (rows : list Row) (csvHeader : string) :
  Forall (fun row => readsData csvHeader row = true) (take 20 rows) ->
  sampleValues rows csvHeader
  = Return (nonBlankColumn (take 20 rows) csvHeader).
Proof.
  intros Hall. unfold sampleValues.
  destruct (filterC_data _ _ Hall) as (kept & -> & <-). reflexivity.
Qed.

Lemma sampleValues_inherited (rows : list Row) (csvHeader : string) :
  Exists (fun row => readsData csvHeader row = false) (take 20 rows) ->
  sampleValues rows csvHeader = Throw valTrimMessage.
Proof.
  intros Hex. unfold sampleValues. now rewrite filterC_inherited.
Qed.

(** Either every one of the first rows reads as data, or one does not. *)
Lemma readsData_cases (rows : list Row) (csvHeader : string) :
  Forall (fun row => readsData csvHeader row = true) rows
  \/ Exists (fun row => readsData csvHeader row = false) rows.
Proof.
  induction rows as [|row rows [IH|IH]].
  - left. constructor.
  - destruct (readsData csvHeader row) eqn:R.
    + left. now constructor.
    + right. now apply Exists_cons_hd.
  - right. now apply Exists_cons_tl.
Qed.

End InferrerFacts.

Section InferrerClaims.
Import InferrerSpec.

Variable isNumeric : string -> bool.
Variable dateParses : string -> bool.

(** The inference throws exactly when one of the first 20 rows resolves
    the column name through [Object.prototype]; what is thrown is the
    [TypeError] of the missing [trim]. *)
Lemma determineFieldType_throws_iff (csvData : option (list Row))
    (csvHeader message : string) :
  determineFieldType isNumeric dateParses csvData csvHeader = Throw message
  <-> message = valTrimMessage
      /\ exists rows,
           csvData = Some rows
           /\ Exists (fun row => readsData csvHeader row = false)
                (take 20 rows).
Proof.
  unfold determineFieldType. destruct csvData as [rows|].
  2:{ split; [discriminate | now intros (_ & rows & [=] & _)]. }
  destruct rows as [|row rows].
  { split; [discriminate|]. intros (_ & rows & [= <-] & Hex).
    now apply Exists_nil in Hex. }
  change (Nat.eqb (List.length (row :: rows)) 0) with false. cbv iota.
  destruct (readsData_cases (take 20 (row :: rows)) csvHeader) as [Hall|Hex].
  - rewrite sampleValues_data by exact Hall. cbn [bind]. split.
    + destruct (Nat.eqb _ 0); discriminate.
    + intros (_ & rows' & [= <-] & Hex). exfalso.
      apply Exists_exists in Hex as (r & Hr & Hf).
      pose proof (proj1 (Forall_forall _ _) Hall r Hr) as Ht. congruence.
  - rewrite sampleValues_inherited by exact Hex. cbn [bind]. split.
    + intros [= <-]. split; [reflexivity|]. now exists (row :: rows).
    + now intros [-> _].
Qed.

(** The claim holds as stated when no non-blank value exists at all. *)
Lemma blank_column_defaults_to_text (rows : list Row) (csvHeader : string) :
  Forall (fun row => readsData csvHeader row = true) (take 20 rows) ->
  nonBlankColumn rows csvHeader = [] ->
  determineFieldType isNumeric dateParses (Some rows) csvHeader
  = Return textDefault.
Proof.
  intros Hdata Hnone. unfold determineFieldType.
  destruct (Nat.eqb (List.length rows) 0); [reflexivity|].
  rewrite sampleValues_data by exact Hdata.
  destruct (nonBlankColumn_prefix rows csvHeader) as [k Hk].
  rewrite Hnone in Hk. symmetry in Hk. apply app_eq_nil in Hk as [-> _].
  reflexivity.
Qed.

Example blankFirstText_parses :
  parseCSVText blankFirstText
  = Return {| Tokenizer.headers := ["c"; "d"];
              Tokenizer.data := blankFirstRows |}.
Proof. reflexivity. Qed.

(** C3, as stated, fails: with a blank in the first of 21 rows the sample
    has the 19 values of rows 2 to 20, not the first 20 non-blank values
    of the column. *)
Lemma sample_is_not_first_20_non_blank :
  sampleValues blankFirstRows "c"
  <> Return (firstNonBlankValues blankFirstRows "c").
Proof. vm_compute. discriminate. Qed.

(** C3, amended: when none of the first 20 rows resolves the column name
    through [Object.prototype], the sample is made of the non-blank values
    found in the first 20 rows of the document, in row order; these are the
    first values of the column's non-blank values, at most 20 of them; and
    when the first 20 rows hold no non-blank value for the column the
    result is Text with length 255, the other tests being run on the sample
    otherwise. *)
Theorem sample_is_non_blank_of_first_20_rows (rows : list Row)
    (csvHeader : string) :
  Forall (fun row => readsData csvHeader row = true) (take 20 rows) ->
  let sample := nonBlankColumn (take 20 rows) csvHeader in
  sampleValues rows csvHeader = Return sample
  /\ sample `prefix_of` nonBlankColumn rows csvHeader
  /\ List.length sample <= 20
  /\ determineFieldType isNumeric dateParses (Some rows) csvHeader
     = Return match sample with
              | [] => textDefault
              | _ :: _ => inferFromSamples isNumeric dateParses sample
              end.
Proof.
  intros Hdata sample.
  split; [now apply sampleValues_data|].
  split; [apply nonBlankColumn_prefix|]. split.
  - subst sample. etransitivity; [apply nonBlankColumn_length|].
    rewrite length_take. lia.
  - unfold determineFieldType.
    destruct rows as [|row rows]; [reflexivity|].
    change (Nat.eqb (List.length (row :: rows)) 0) with false. cbv iota.
    rewrite sampleValues_data by exact Hdata. fold sample.
    now destruct sample.
Qed.

End InferrerClaims.

Section InferrerWitness.
Import InferrerSpec ShapeSpec.

Lemma sample_is_non_blank_of_first_20_rows_witness :
  let sample := nonBlankColumn (take 20 blankFirstRows) "c" in
  sampleValues blankFirstRows "c" = Return sample
  /\ sample `prefix_of` nonBlankColumn blankFirstRows "c"
  /\ List.length sample <= 20
  /\ determineFieldType digitsOnly noDate (Some blankFirstRows) "c"
     = Return match sample with
              | [] => textDefault
              | _ :: _ => inferFromSamples digitsOnly noDate sample
              end.
Proof.
  apply (sample_is_non_blank_of_first_20_rows digitsOnly noDate
           blankFirstRows "c").
  apply (bool_decide_unpack _). vm_compute. exact I.
Defined.

End InferrerWitness.

(** ** Claims on the bulk ingest orchestrator *)

Section OrchestratorClaims.
Import Orchestrator OrchestratorSpec.

Local Ltac ends := eexists; reflexivity.

Lemma monitor_step (fuel : nat) (poll : nat -> Completion JobStatus)
    (attempts : nat) :
  monitor (S fuel) poll attempts
  = match poll attempts with
    | Throw message => Some (Throw message)
    | Return jobStatus =>
        if maxAttempts <=? S attempts then Some (Throw timeoutMessage)
        else if inProgress jobStatus then monitor fuel poll (S attempts)
        else Some (Return jobStatus)
    end.
Proof. reflexivity. Qed.

(** The loop always ends within [maxAttempts] rounds. *)
Lemma monitor_enough_fuel (poll : nat -> Completion JobStatus) :
  forall fuel attempts : nat,
    0 < fuel -> maxAttempts <= attempts + fuel ->
    exists c, monitor fuel poll attempts = Some c.
Proof.
  induction fuel as [|fuel IH]; intros attempts Hpos Hle; [lia|].
  rewrite monitor_step.
  destruct (poll attempts) as [jobStatus|message]; [|ends].
  destruct (maxAttempts <=? S attempts) eqn:E; [ends|].
  apply Nat.leb_gt in E.
  destruct (inProgress jobStatus); [|ends].
  apply IH; lia.
Qed.

Lemma monitor_total (poll : nat -> Completion JobStatus) :
  exists c, monitor maxAttempts poll 0 = Some c.
Proof. apply monitor_enough_fuel; unfold maxAttempts; lia. Qed.

Lemma performBulkUpload_total (remote : Remote) :
  exists c, performBulkUpload remote = Some c.
Proof.
  unfold performBulkUpload.
  destruct (createBulkJob remote); [|ends].
  destruct (uploadBulkData remote); [|ends].
  destruct (closeBulkJob remote); [|ends].
  destruct (monitor_total (getBulkJobStatus remote)) as [c ->]. ends.
Qed.

(** When every status call answers, the loop times out exactly when the
    job is seen in progress at each of the first [maxAttempts - 1] polls;
    the status of the last poll is not looked at. *)
Lemma monitor_timeout_iff (statusAt : nat -> JobStatus) :
  forall fuel attempts : nat,
    0 < fuel -> attempts + fuel = maxAttempts ->
    monitor fuel (fun k => Return (statusAt k)) attempts
      = Some (Throw timeoutMessage)
    <-> (forall k, attempts <= k -> S k < maxAttempts ->
           inProgress (statusAt k) = true).
Proof.
  induction fuel as [|fuel IH]; intros attempts Hpos Hsum; [lia|].
  rewrite monitor_step. destruct (maxAttempts <=? S attempts) eqn:E.
  - apply Nat.leb_le in E. split; [intros _ k Hk Hlt; lia | reflexivity].
  - apply Nat.leb_gt in E. destruct (inProgress (statusAt attempts)) eqn:P.
    + rewrite IH by lia. split; intros H k Hk Hlt.
      * destruct (decide (k = attempts)) as [->|Hne]; [exact P|].
        apply H; lia.
      * apply H; lia.
    + split; [discriminate|]. intros H.
      rewrite H in P by lia. discriminate.
Qed.

(** C5 fails on the code at the bound: a job seen complete at the 30th
    poll has left the in-progress set within 30 polls, and the run still
    ends with the timeout error. *)
Theorem completion_at_poll_30_times_out :
  inProgress complete = false
  /\ completeAtPoll30 29 = Return complete
  /\ monitor maxAttempts completeAtPoll30 0 = Some (Throw timeoutMessage)
  /\ performBulkUpload (healthy completeAtPoll30)
     = Some (Throw "Bulk upload failed: Job monitoring timeout").
Proof. repeat split; reflexivity. Qed.

(** One poll earlier, the run ends with the job's counts. *)
Example completion_at_poll_29_is_reported :
  performBulkUpload (healthy (statusFeed (replicate 28 running) complete))
  = Some (Return
      {| jobId := "750xx0000000001"; status := complete;
         results := {| successful := "ok"; failed := "ko" |};
         recordsProcessed := 100; recordsFailed := 5 |}).
Proof. reflexivity. Qed.

Example completion_at_poll_3_is_reported :
  monitor maxAttempts completeAtPoll3 0 = Some (Return complete).
Proof. reflexivity. Qed.

Example never_leaving_times_out :
  monitor maxAttempts (statusFeed [] running) 0
  = Some (Throw timeoutMessage).
Proof. reflexivity. Qed.

End OrchestratorClaims.

(** ** Claims on mapping validation *)

Section ValidationFacts.
Import ValidationSpec.

Implicit Types (arr pre rest : list string) (x : string).
Implicit Types (m : JSObject.t string).

Lemma arrIncludes_elem x arr : arrIncludes x arr = true <-> x ∈ arr.
Proof.
  unfold arrIncludes. induction arr as [|y arr IH]; simpl.
  - split; [discriminate | intros H; now apply elem_of_nil in H].
  - rewrite orb_true_iff, IH, elem_of_cons, String.eqb_eq. tauto.
Qed.

Lemma arrIncludes_not_elem x arr : arrIncludes x arr = false <-> x ∉ arr.
Proof.
  rewrite <- arrIncludes_elem. now destruct (arrIncludes x arr).
Qed.

Lemma indexOf_first x pre rest :
  x ∉ pre -> indexOf x (pre ++ x :: rest) = List.length pre.
Proof.
  induction pre as [|y pre IH]; simpl; intros Hnin.
  - now rewrite String.eqb_refl.
  - apply not_elem_of_cons in Hnin as [Hne Hnin].
    apply String.eqb_neq in Hne. rewrite Hne. now rewrite IH.
Qed.

Lemma indexOf_earlier x pre rest :
  x ∈ pre -> indexOf x (pre ++ rest) < List.length pre.
Proof.
  induction pre as [|y pre IH]; simpl; intros Hin.
  - now apply elem_of_nil in Hin.
  - destruct (String.eqb_spec x y) as [->|Hne]; [lia|].
    apply elem_of_cons in Hin as [?|Hin]; [contradiction|].
    specialize (IH Hin). lia.
Qed.

Lemma laterOccurrences_cons pre y rest :
  laterOccurrences (pre ++ y :: rest) (List.length pre) (y :: rest)
  = if decide (y ∈ pre)
    then y :: laterOccurrences ((pre ++ [y]) ++ rest)
                (List.length (pre ++ [y])) rest
    else laterOccurrences ((pre ++ [y]) ++ rest)
           (List.length (pre ++ [y])) rest.
Proof.
  rewrite <- app_assoc, length_app, Nat.add_1_r. simpl.
  destruct (decide (y ∈ pre)) as [Hin|Hnin].
  - pose proof (indexOf_earlier y pre (y :: rest) Hin) as Hlt.
    destruct (Nat.eqb_spec (indexOf y (pre ++ y :: rest)) (List.length pre));
      [lia | reflexivity].
  - rewrite indexOf_first by exact Hnin. now rewrite Nat.eqb_refl.
Qed.

(** The duplicates list holds the values that occur again after an earlier
    occurrence. *)
Lemma elem_laterOccurrences x rest :
  forall pre,
    x ∈ laterOccurrences (pre ++ rest) (List.length pre) rest
    <-> exists r1 r2, rest = r1 ++ x :: r2 /\ x ∈ pre ++ r1.
Proof.
  induction rest as [|y rest IH]; intros pre.
  - simpl. split.
    + intros H. now apply elem_of_nil in H.
    + intros (r1 & r2 & Heq & _). now destruct r1.
  - rewrite laterOccurrences_cons. split.
    + intros Hin.
      assert (Hcases : (x = y /\ y ∈ pre)
                \/ x ∈ laterOccurrences ((pre ++ [y]) ++ rest)
                         (List.length (pre ++ [y])) rest).
      { destruct (decide (y ∈ pre)); [|now right].
        apply elem_of_cons in Hin as [->|Hin]; [now left | now right]. }
      destruct Hcases as [[-> Hpre]|Hrec].
      * exists [], rest. split; [reflexivity|]. now rewrite app_nil_r.
      * apply IH in Hrec as (r1 & r2 & -> & Hx).
        exists (y :: r1), r2. split; [reflexivity|].
        now rewrite <- app_assoc in Hx.
    + intros (r1 & r2 & Heq & Hx). destruct r1 as [|z r1]; simpl in Heq.
      * injection Heq as <- <-. rewrite app_nil_r in Hx.
        rewrite decide_True by exact Hx. apply list_elem_of_here.
      * injection Heq as <- ->.
        assert (Hrec : x ∈ laterOccurrences ((pre ++ [y]) ++ r1 ++ x :: r2)
                         (List.length (pre ++ [y])) (r1 ++ x :: r2)).
        { apply IH. exists r1, r2. split; [reflexivity|].
          now rewrite <- app_assoc. }
        destruct (decide (y ∈ pre)); [|exact Hrec].
        now apply list_elem_of_further.
Qed.

Lemma elem_duplicates x arr :
  x ∈ laterOccurrences arr 0 arr
  <-> exists r1 r2, arr = r1 ++ x :: r2 /\ x ∈ r1.
Proof. apply (elem_laterOccurrences x arr []). Qed.

Lemma duplicates_nil_NoDup arr :
  laterOccurrences arr 0 arr = [] <-> NoDup arr.
Proof.
  split.
  - intros Hnil. induction arr as [|y arr IH] using rev_ind;
      [apply NoDup_nil_2|].
    apply NoDup_app. split; [|split].
    + apply IH. destruct (laterOccurrences arr 0 arr) as [|d ds] eqn:E;
        [reflexivity|exfalso].
      assert (Hd : d ∈ laterOccurrences arr 0 arr)
        by (rewrite E; apply list_elem_of_here).
      apply elem_duplicates in Hd as (r1 & r2 & -> & Hd).
      assert (Hd' : d ∈ laterOccurrences ((r1 ++ d :: r2) ++ [y]) 0
                          ((r1 ++ d :: r2) ++ [y])).
      { apply elem_duplicates. exists r1, (r2 ++ [y]).
        split; [now rewrite <- app_assoc | exact Hd]. }
      rewrite Hnil in Hd'. now apply elem_of_nil in Hd'.
    + intros x Hx Hy. apply list_elem_of_singleton in Hy as ->.
      assert (Hd : y ∈ laterOccurrences (arr ++ [y]) 0 (arr ++ [y])).
      { apply elem_duplicates. exists arr, []. split; [reflexivity|exact Hx]. }
      rewrite Hnil in Hd. now apply elem_of_nil in Hd.
    + apply NoDup_singleton.
  - intros Hnd. destruct (laterOccurrences arr 0 arr) as [|d ds] eqn:E;
      [reflexivity|exfalso].
    assert (Hd : d ∈ laterOccurrences arr 0 arr)
      by (rewrite E; apply list_elem_of_here).
    apply elem_duplicates in Hd as (r1 & r2 & -> & Hd).
    apply NoDup_app in Hnd as (_ & Hdisj & _).
    apply (Hdisj d Hd). apply list_elem_of_here.
Qed.

Lemma elem_distinct x arr :
  forall seen, x ∈ distinct seen arr <-> x ∈ arr /\ x ∉ seen.
Proof.
  induction arr as [|y arr IH]; intros seen; simpl.
  - split; [intros H; now apply elem_of_nil in H|].
    intros [H _]. now apply elem_of_nil in H.
  - destruct (arrIncludes y seen) eqn:E.
    + apply arrIncludes_elem in E. rewrite IH, elem_of_cons.
      split; [tauto|]. intros [[->|H] Hs]; [contradiction | tauto].
    + apply arrIncludes_not_elem in E.
      rewrite !elem_of_cons, IH, not_elem_of_app, list_elem_of_singleton.
      destruct (decide (x = y)) as [->|Hne]; tauto.
Qed.

End ValidationFacts.

Section ValidationTableFacts.
Import ValidationSpec.

Implicit Types (m : JSObject.t string) (fields : list TargetField).

Lemma elem_values_entry (t : string) m :
  t ∈ JSObject.values m <-> exists h, (h, t) ∈ m.
Proof.
  unfold JSObject.values. rewrite list_elem_of_fmap. split.
  - intros ([h t'] & -> & Hin). now exists h.
  - intros [h Hin]. now exists (h, t).
Qed.

Lemma elem_values_get (t : string) m :
  JSObject.wf m ->
  t ∈ JSObject.values m <-> exists h, JSObject.getOwn h m = Some t.
Proof.
  intros Hwf. rewrite elem_values_entry. split; intros [h H]; exists h.
  - now apply elem_getOwn_Some.
  - now apply getOwn_Some_elem.
Qed.

(** A target reached from two headers occurs twice among the values. *)
Lemma mappedTwice_occurs_twice (t : string) m :
  mappedTwice m t ->
  exists r1 r2, JSObject.values m = r1 ++ t :: r2 /\ t ∈ r1.
Proof.
  intros (h1 & h2 & Hne & G1 & G2).
  apply getOwn_Some_elem in G1, G2.
  apply list_elem_of_split in G1 as (l1 & l2 & ->).
  unfold JSObject.values.
  apply elem_of_app in G2 as [G2|G2].
  - exists (map snd l1), (map snd l2). split; [now rewrite map_app|].
    apply list_elem_of_fmap. now exists (h2, t).
  - apply elem_of_cons in G2 as [[= ->]|G2]; [contradiction|].
    apply list_elem_of_split in G2 as (l3 & l4 & ->).
    exists (map snd l1 ++ t :: map snd l3), (map snd l4). split.
    + rewrite !map_app. simpl. rewrite map_app. simpl.
      now rewrite <- app_assoc.
    + apply elem_of_app. right. apply list_elem_of_here.
Qed.

Lemma noSharedTarget_NoDup m :
  JSObject.wf m -> noSharedTarget m <-> NoDup (JSObject.values m).
Proof.
  intros Hwf. split.
  - intros Hns.
    assert (Hent : forall h1 h2 t, (h1, t) ∈ m -> (h2, t) ∈ m -> h1 = h2).
    { intros h1 h2 t H1 H2. apply (Hns h1 h2 t); now apply elem_getOwn_Some. }
    clear Hns. unfold JSObject.wf, JSObject.keys, JSObject.values in *.
    induction m as [|[k v] m IH]; simpl; [apply NoDup_nil_2|].
    apply NoDup_cons in Hwf as [Hk Hwf]. apply NoDup_cons. split.
    + intros Hv. apply list_elem_of_fmap in Hv as ([k' v'] & Hv & Hin).
      simpl in Hv. subst v'.
      assert (k' = k).
      { apply (Hent k' k v); [now apply list_elem_of_further|].
        apply list_elem_of_here. }
      subst k'. apply Hk. apply list_elem_of_fmap. now exists (k, v).
    + apply IH; [exact Hwf|].
      intros h1 h2 t H1 H2.
      apply (Hent h1 h2 t); now apply list_elem_of_further.
  - intros Hnd h1 h2 t G1 G2.
    destruct (decide (h1 = h2)) as [|Hne]; [assumption|exfalso].
    destruct (mappedTwice_occurs_twice t m) as (r1 & r2 & Heq & Hin).
    { now exists h1, h2. }
    rewrite Heq in Hnd. apply NoDup_app in Hnd as (_ & Hdisj & _).
    apply (Hdisj t Hin). apply list_elem_of_here.
Qed.

Lemma filter_nil_iff {A : Type} (p : A -> bool) (l : list A) :
  List.filter p l = [] <-> forall a, a ∈ l -> p a = false.
Proof.
  induction l as [|y l IH]; simpl.
  - split; [|reflexivity]. intros _ a Ha. now apply elem_of_nil in Ha.
  - destruct (p y) eqn:E.
    + split; [discriminate|]. intros H.
      rewrite (H y) in E by apply list_elem_of_here. discriminate.
    + rewrite IH. split.
      * intros H a [->|Ha]%elem_of_cons; [exact E | now apply H].
      * intros H a Ha. apply H. now apply list_elem_of_further.
Qed.

Lemma elem_filter {A : Type} (p : A -> bool) (l : list A) (a : A) :
  a ∈ List.filter p l <-> a ∈ l /\ p a = true.
Proof.
  rewrite !list_elem_of_In. apply List.filter_In.
Qed.

(** The errors, in the order they are pushed. *)
Lemma validateMappingsOf_unfold m fields :
  validateMappingsOf m fields
  = map requiredMessage
      (List.filter
         (fun field => negb (arrIncludes (name field) (JSObject.values m)))
         (List.filter required fields))
    ++ match laterOccurrences (JSObject.values m) 0 (JSObject.values m) with
       | [] => []
       | d :: ds => [duplicateMessage (d :: ds)]
       end.
Proof.
  unfold validateMappingsOf.
  destruct (laterOccurrences _ 0 _); simpl; [now rewrite app_nil_r|reflexivity].
Qed.

End ValidationTableFacts.

Section ValidationClaims.
Import ValidationSpec.

Implicit Types (m : JSObject.t string) (fields : list TargetField).

(** With distinct keys, a value that occurs twice is reached from two
    headers. *)
Lemma occurs_twice_mappedTwice (t : string) m (r1 r2 : list string) :
  JSObject.wf m -> JSObject.values m = r1 ++ t :: r2 -> t ∈ r1 ->
  mappedTwice m t.
Proof.
  intros Hwf Heq Hin. unfold JSObject.values in Heq.
  apply fmap_app_inv in Heq as (m1 & m' & -> & Hm' & ->).
  destruct m' as [|[h2 t'] m2]; [discriminate|].
  simpl in Hm'. injection Hm' as Ht' _. subst t'.
  apply list_elem_of_fmap in Hin as ([h1 t1] & Ht & Hin). simpl in Ht.
  subst t1. exists h1, h2. split; [|split].
  - intros ->. unfold JSObject.wf, JSObject.keys in Hwf.
    rewrite map_app in Hwf. apply NoDup_app in Hwf as (_ & Hdisj & _).
    apply (Hdisj h2).
    + apply list_elem_of_fmap. now exists (h2, t).
    + apply list_elem_of_here.
  - apply elem_getOwn_Some; [exact Hwf|]. apply elem_of_app. now left.
  - apply elem_getOwn_Some; [exact Hwf|]. apply elem_of_app. right.
    apply list_elem_of_here.
Qed.

Lemma uncovered_iff (f : TargetField) m :
  JSObject.wf m ->
  negb (arrIncludes (name f) (JSObject.values m)) = true
  <-> forall h, JSObject.getOwn h m <> Some (name f).
Proof.
  intros Hwf. rewrite negb_true_iff, arrIncludes_not_elem.
  rewrite (elem_values_get _ _ Hwf). split.
  - intros Hn h Hg. apply Hn. now exists h.
  - intros Hn [h Hg]. now apply (Hn h).
Qed.

(** The two runs of the design document. *)
Example validation_examples :
  validateMappingsOf JSObject.empty [requiredEmail]
  = ["Required field 'Email' is not mapped"]
  /\ bothToEmail = [("A", "Email"); ("B", "Email")]
  /\ validateMappingsOf bothToEmail [requiredEmail]
     = ["Duplicate mappings found for: Email"].
Proof. repeat split; reflexivity. Qed.

(** C9: for a mapping table and a list of schema fields, validation returns
    no error exactly when every required field is mapped and no target is
    shared by two headers; it reports, for each required field that no
    header maps to, the error carrying that field's label, and, as soon as
    some target is shared, one error that lists every shared target; and
    it reports nothing else. *)
Theorem validation_reports_invariant_violations m fields :
  JSObject.wf m ->
  (validateMappingsOf m fields = [] <-> mappingInvariant m fields)
  /\ (forall f, f ∈ fields -> required f = true ->
        (forall h, JSObject.getOwn h m <> Some (name f)) ->
        ("Required field '" +:+ label f +:+ "' is not mapped")
          ∈ validateMappingsOf m fields)
  /\ (forall t, mappedTwice m t ->
        exists ds, t ∈ ds
          /\ ("Duplicate mappings found for: " +:+ join ", " ds)
               ∈ validateMappingsOf m fields)
  /\ (forall e, e ∈ validateMappingsOf m fields ->
        (exists f, f ∈ fields /\ required f = true
           /\ (forall h, JSObject.getOwn h m <> Some (name f))
           /\ e = "Required field '" +:+ label f +:+ "' is not mapped")
        \/ (exists ds, (forall t, t ∈ ds <-> mappedTwice m t)
              /\ (exists t, mappedTwice m t)
              /\ e = "Duplicate mappings found for: " +:+ join ", " ds)).
Proof.
  intros Hwf. rewrite validateMappingsOf_unfold.
  set (dups := laterOccurrences (JSObject.values m) 0 (JSObject.values m)).
  assert (Hdups : forall t, t ∈ distinct [] dups <-> mappedTwice m t).
  { intros t. rewrite elem_distinct. subst dups. rewrite elem_duplicates.
    split.
    - intros [(r1 & r2 & Heq & Hin) _].
      now apply (occurs_twice_mappedTwice t m r1 r2).
    - intros H. split; [now apply mappedTwice_occurs_twice|].
      apply not_elem_of_nil. }
  split; [|split; [|split]].
  - split.
    + intros [Hreq Hdup]%app_eq_nil.
      apply fmap_nil_inv in Hreq.
      split.
      * intros f Hf Hr.
        pose proof (proj1 (filter_nil_iff _ _) Hreq f) as Hcov.
        rewrite elem_filter in Hcov. specialize (Hcov (conj Hf Hr)).
        apply negb_false_iff, arrIncludes_elem in Hcov.
        now apply elem_values_get in Hcov.
      * apply noSharedTarget_NoDup; [exact Hwf|].
        apply duplicates_nil_NoDup. fold dups. now destruct dups.
    + intros [Hreq Hns].
      apply (noSharedTarget_NoDup _ Hwf), duplicates_nil_NoDup in Hns.
      fold dups in Hns. rewrite Hns, app_nil_r.
      replace (List.filter _ (List.filter required fields)) with
        (@nil TargetField); [reflexivity|].
      symmetry. apply filter_nil_iff. intros f [Hf Hr]%elem_filter.
      apply negb_false_iff, arrIncludes_elem, elem_values_get;
        [exact Hwf|]. now apply Hreq.
  - intros f Hf Hr Hun. apply elem_of_app. left.
    apply list_elem_of_fmap. exists f. split; [reflexivity|].
    apply elem_filter. split; [apply elem_filter; now split|].
    now apply uncovered_iff.
  - intros t Ht. exists (distinct [] dups). split; [now apply Hdups|].
    apply elem_of_app. right.
    destruct dups as [|d ds] eqn:E.
    + apply Hdups in Ht. simpl in Ht. now apply elem_of_nil in Ht.
    + apply list_elem_of_here.
  - intros e [He|He]%elem_of_app.
    + left. apply list_elem_of_fmap in He as (f & -> & Hf).
      apply elem_filter in Hf as [[Hf Hr]%elem_filter Hun].
      exists f. repeat split; try assumption.
      now apply uncovered_iff.
    + right. destruct dups as [|d ds] eqn:E;
        [now apply elem_of_nil in He|].
      apply list_elem_of_singleton in He as ->.
      exists (distinct [] (d :: ds)). split; [exact Hdups|].
      split; [|reflexivity].
      exists d. apply Hdups. simpl. apply list_elem_of_here.
Qed.

End ValidationClaims.

(** ** Tables built by assignments keep their keys distinct *)

Section WellFormedTables.
Context {V : Type}.
Implicit Types (o : JSObject.t V) (k : string) (v : V).

Lemma wf_empty : JSObject.wf (@JSObject.empty V).
Proof. apply NoDup_nil_2. Qed.

Lemma keys_replace k v o :
  JSObject.keys (JSObject.replace k v o) = JSObject.keys o.
Proof.
  unfold JSObject.keys. induction o as [|[k1 v1] o IH]; simpl; [reflexivity|].
  destruct (String.eqb k k1); simpl; [reflexivity | now rewrite IH].
Qed.

Lemma insertIndex_perm n k v o :
  JSObject.insertIndex n k v o ≡ₚ (k, v) :: o.
Proof.
  induction o as [|[k1 v1] o IH]; simpl; [reflexivity|].
  destruct (JSObject.arrayIndex k1) as [i|]; [|reflexivity].
  destruct (i <? n)%N; [|reflexivity].
  rewrite IH. apply Permutation_swap.
Qed.

Lemma keys_define_new k v o :
  JSObject.has k o = false ->
  JSObject.keys (JSObject.define k v o) ≡ₚ k :: JSObject.keys o.
Proof.
  intros H. unfold JSObject.define, JSObject.keys. rewrite H.
  destruct (JSObject.arrayIndex k) as [n|].
  - now rewrite insertIndex_perm.
  - rewrite map_app. simpl. symmetry. apply Permutation_cons_append.
Qed.

Lemma wf_define k v o : JSObject.wf o -> JSObject.wf (JSObject.define k v o).
Proof.
  unfold JSObject.wf. intros Hwf.
  destruct (JSObject.has k o) eqn:H.
  - unfold JSObject.define. rewrite H. now rewrite keys_replace.
  - rewrite keys_define_new by exact H. apply NoDup_cons. split; [|exact Hwf].
    apply getOwn_None_keys. unfold JSObject.has in H.
    now destruct (JSObject.getOwn k o).
Qed.

Lemma keys_remove_sub k o x :
  x ∈ JSObject.keys (JSObject.remove k o) -> x ∈ JSObject.keys o.
Proof.
  unfold JSObject.keys. induction o as [|[k1 v1] o IH]; simpl; [trivial|].
  destruct (String.eqb k k1); simpl.
  - intros H. apply list_elem_of_further. now apply IH.
  - intros [->|H]%elem_of_cons; [apply list_elem_of_here|].
    apply list_elem_of_further. now apply IH.
Qed.

Lemma wf_remove k o : JSObject.wf o -> JSObject.wf (JSObject.remove k o).
Proof.
  unfold JSObject.wf. induction o as [|[k1 v1] o IH]; simpl; [trivial|].
  intros [Hk Hwf]%NoDup_cons. destruct (String.eqb k k1); [now apply IH|].
  change (NoDup (k1 :: JSObject.keys (JSObject.remove k o))).
  apply NoDup_cons. split; [|now apply IH].
  intros Hin. apply Hk. now apply keys_remove_sub in Hin.
Qed.

End WellFormedTables.

(** ** Tables in enumeration order *)

Section IndexFacts.

Lemma digitsValue_bounds (s : string) :
  forall (acc n : N),
    JSObject.digitsValue acc s = Some n ->
    (acc * 10 ^ N.of_nat (String.length s) <= n
     < (acc + 1) * 10 ^ N.of_nat (String.length s))%N.
Proof.
  induction s as [|c s IH]; intros acc n.
  - simpl. intros [= <-]. lia.
  - simpl JSObject.digitsValue. destruct (isDigit c) eqn:D; [|discriminate].
    intros H. apply IH in H.
    assert (Hd : (N.of_nat (nat_of_ascii c - 48) < 10)%N).
    { unfold isDigit in D. apply andb_true_iff in D as [_ D].
      apply Nat.leb_le in D. lia. }
    change (String.length (String c s)) with (S (String.length s)).
    rewrite Nat2N.inj_succ, N.pow_succ_r'.
    set (P := (10 ^ N.of_nat (String.length s))%N) in *.
    set (d := N.of_nat (nat_of_ascii c - 48)) in *. nia.
Qed.

Lemma digit_char_inj (c1 c2 : ascii) :
  isDigit c1 = true -> isDigit c2 = true ->
  nat_of_ascii c1 - 48 = nat_of_ascii c2 - 48 -> c1 = c2.
Proof.
  unfold isDigit. intros [L1 _]%andb_true_iff [L2 _]%andb_true_iff H.
  apply Nat.leb_le in L1, L2.
  rewrite <- (ascii_nat_embedding c1), <- (ascii_nat_embedding c2).
  f_equal. lia.
Qed.

Lemma digitsValue_inj (s1 : string) :
  forall (s2 : string) (acc1 acc2 n : N),
    String.length s1 = String.length s2 ->
    JSObject.digitsValue acc1 s1 = Some n ->
    JSObject.digitsValue acc2 s2 = Some n ->
    acc1 = acc2 /\ s1 = s2.
Proof.
  induction s1 as [|c1 s1 IH]; intros [|c2 s2] acc1 acc2 n Hlen;
    try discriminate.
  - simpl. now intros [= ->] [= ->].
  - simpl JSObject.digitsValue.
    destruct (isDigit c1) eqn:D1; [|discriminate].
    destruct (isDigit c2) eqn:D2; [|discriminate].
    intros H1 H2. injection Hlen as Hlen.
    destruct (IH _ _ _ _ Hlen H1 H2) as [Hacc ->].
    assert (Hd1 : nat_of_ascii c1 - 48 < 10).
    { unfold isDigit in D1. apply andb_true_iff in D1 as [_ D].
      apply Nat.leb_le in D. lia. }
    assert (Hd2 : nat_of_ascii c2 - 48 < 10).
    { unfold isDigit in D2. apply andb_true_iff in D2 as [_ D].
      apply Nat.leb_le in D. lia. }
    assert (Hd : nat_of_ascii c1 - 48 = nat_of_ascii c2 - 48) by lia.
    split; [lia|]. f_equal. now apply digit_char_inj.
Qed.

(** An array index with a leading digit other than [0] is not zero, and
    tells the length of its spelling. *)
Lemma leading_digit_bounds (c : ascii) (r : string) (n : N) :
  Ascii.eqb c "0"%char = false ->
  JSObject.digitsValue 0 (String c r) = Some n ->
  (10 ^ N.of_nat (String.length r) <= n
   < 10 ^ N.of_nat (S (String.length r)))%N.
Proof.
  intros Hc. simpl JSObject.digitsValue.
  destruct (isDigit c) eqn:D; [|discriminate]. intros H.
  apply digitsValue_bounds in H.
  assert (Hd : (1 <= N.of_nat (nat_of_ascii c - 48) < 10)%N).
  { unfold isDigit in D. apply andb_true_iff in D as [D1 D2].
    apply Nat.leb_le in D1, D2.
    assert (nat_of_ascii c <> 48).
    { intros E. apply Ascii.eqb_neq in Hc. apply Hc.
      rewrite <- (ascii_nat_embedding c), E. reflexivity. }
    lia. }
  rewrite Nat2N.inj_succ, N.pow_succ_r'.
  set (P := (10 ^ N.of_nat (String.length r))%N) in *.
  set (d := N.of_nat (nat_of_ascii c - 48)) in *. nia.
Qed.

(** Two spellings of one array index are the same string. *)
Lemma arrayIndex_inj (k1 k2 : string) (n : N) :
  JSObject.arrayIndex k1 = Some n -> JSObject.arrayIndex k2 = Some n ->
  k1 = k2.
Proof.
  unfold JSObject.arrayIndex.
  destruct k1 as [|c1 r1]; [discriminate|].
  destruct k2 as [|c2 r2]; [discriminate|].
  destruct (Ascii.eqb c1 "0"%char) eqn:E1;
    destruct (Ascii.eqb c2 "0"%char) eqn:E2.
  - apply Ascii.eqb_eq in E1 as ->. apply Ascii.eqb_eq in E2 as ->.
    destruct r1; [|discriminate]. destruct r2; [|discriminate]. reflexivity.
  - destruct r1; [|discriminate]. intros [= <-].
    destruct (JSObject.digitsValue 0 (String c2 r2)) as [m|] eqn:V;
      [|discriminate].
    destruct (m <? 4294967295)%N; [|discriminate]. intros [= ->].
    apply leading_digit_bounds in V; [|exact E2].
    pose proof (N.pow_nonzero 10 (N.of_nat (String.length r2))
                  ltac:(discriminate)). lia.
  - destruct r2; [|discriminate].
    destruct (JSObject.digitsValue 0 (String c1 r1)) as [m|] eqn:V;
      [|discriminate].
    destruct (m <? 4294967295)%N; [|discriminate]. intros [= <-] [= <-].
    apply leading_digit_bounds in V; [|exact E1].
    pose proof (N.pow_nonzero 10 (N.of_nat (String.length r1))
                  ltac:(discriminate)). lia.
  - destruct (JSObject.digitsValue 0 (String c1 r1)) as [m1|] eqn:V1;
      [|discriminate].
    destruct (m1 <? 4294967295)%N; [|discriminate]. intros [= ->].
    destruct (JSObject.digitsValue 0 (String c2 r2)) as [m2|] eqn:V2;
      [|discriminate].
    destruct (m2 <? 4294967295)%N; [|discriminate]. intros [= ->].
    pose proof (leading_digit_bounds _ _ _ E1 V1) as B1.
    pose proof (leading_digit_bounds _ _ _ E2 V2) as B2.
    assert (Hlen : String.length r1 = String.length r2).
    { destruct (Nat.lt_trichotomy (String.length r1) (String.length r2))
        as [Hlt|[Heq|Hgt]]; [exfalso | exact Heq | exfalso].
      - assert ((10 ^ N.of_nat (S (String.length r1))
                 <= 10 ^ N.of_nat (String.length r2))%N)
          by (apply N.pow_le_mono_r; [discriminate | lia]).
        lia.
      - assert ((10 ^ N.of_nat (S (String.length r2))
                 <= 10 ^ N.of_nat (String.length r1))%N)
          by (apply N.pow_le_mono_r; [discriminate | lia]).
        lia. }
    apply (digitsValue_inj (String c1 r1) (String c2 r2) 0%N 0%N n);
      [simpl; now rewrite Hlen | exact V1 | exact V2].
Qed.

End IndexFacts.

Section EnumerationFacts.
Context {V : Type}.
Implicit Types (o : JSObject.t V) (k : string) (v : V).

Lemma forallb_Forall {A : Type} (p : A -> bool) (l : list A) :
  forallb p l = true <-> Forall (fun x => p x = true) l.
Proof.
  induction l as [|x l IH]; simpl.
  - split; [constructor | reflexivity].
  - rewrite andb_true_iff, Forall_cons, IH. reflexivity.
Qed.

Lemma enumerated_cons k (ks : list string) :
  JSObject.enumerated (k :: ks) = true
  <-> Forall (fun x => JSObject.precedes k x = true) ks
      /\ JSObject.enumerated ks = true.
Proof. simpl. now rewrite andb_true_iff, forallb_Forall. Qed.

(** In an enumeration, what stands before a key may stand before it. *)
Lemma enumerated_before (l1 l2 : list string) k :
  JSObject.enumerated (l1 ++ k :: l2) = true ->
  Forall (fun x => JSObject.precedes x k = true) l1.
Proof.
  induction l1 as [|x l1 IH]; [constructor|].
  change ((x :: l1) ++ k :: l2) with (x :: (l1 ++ k :: l2)).
  intros [Hx Hrest]%enumerated_cons. constructor; [|now apply IH].
  apply (proj1 (Forall_forall _ _) Hx). apply elem_of_app. right.
  apply list_elem_of_here.
Qed.

(** A new index above all the keys of the table goes to its end. *)
Lemma insertIndex_last (n : N) k v o :
  JSObject.arrayIndex k = Some n ->
  Forall (fun x => JSObject.precedes x k = true) (JSObject.keys o) ->
  JSObject.insertIndex n k v o = o ++ [(k, v)].
Proof.
  intros Hk. unfold JSObject.keys.
  induction o as [|[k1 v1] o IH]; [reflexivity|]. simpl.
  intros [H1 Ho]%Forall_cons. unfold JSObject.precedes in H1.
  rewrite Hk in H1. destruct (JSObject.arrayIndex k1) as [m|]; [|discriminate].
  rewrite H1. now rewrite IH.
Qed.

Lemma define_last k v o :
  k ∉ JSObject.keys o ->
  Forall (fun x => JSObject.precedes x k = true) (JSObject.keys o) ->
  JSObject.define k v o = o ++ [(k, v)].
Proof.
  intros Hk Hall. unfold JSObject.define, JSObject.has.
  apply getOwn_None_keys in Hk. rewrite Hk.
  destruct (JSObject.arrayIndex k) as [n|] eqn:E; [|reflexivity].
  now apply insertIndex_last.
Qed.

Lemma spread_from (es : list (string * V)) :
  forall acc : JSObject.t V,
    JSObject.canonical (acc ++ es) ->
    foldl (fun acc e => JSObject.define e.1 e.2 acc) acc es = acc ++ es.
Proof.
  induction es as [|[k v] es IH]; intros acc Hc; [now rewrite app_nil_r|].
  simpl foldl. destruct Hc as [Hwf Hen].
  unfold JSObject.wf, JSObject.keys in Hwf, Hen. rewrite map_app in Hwf, Hen.
  simpl in Hwf, Hen.
  rewrite define_last.
  - rewrite IH; [now rewrite <- app_assoc|].
    rewrite <- app_assoc. split.
    + unfold JSObject.wf, JSObject.keys. now rewrite map_app.
    + unfold JSObject.keys. now rewrite map_app.
  - apply NoDup_app in Hwf as (_ & Hdis & _). intros Hin.
    apply (Hdis k Hin). apply list_elem_of_here.
  - now apply enumerated_before in Hen.
Qed.

(** The copy of a table has its entries, in the same order. *)
Lemma spread_canonical o : JSObject.canonical o -> JSObject.spread o = o.
Proof.
  intros Hc. unfold JSObject.spread, JSObject.entries.
  now rewrite (spread_from o JSObject.empty Hc).
Qed.

Lemma canonical_empty : JSObject.canonical (@JSObject.empty V).
Proof. split; [apply wf_empty | reflexivity]. Qed.

Lemma precedes_None k1 k2 :
  JSObject.arrayIndex k2 = None -> JSObject.precedes k1 k2 = true.
Proof. unfold JSObject.precedes. now intros ->. Qed.

Lemma enumerated_snoc (ks : list string) k :
  JSObject.enumerated ks = true -> JSObject.arrayIndex k = None ->
  JSObject.enumerated (ks ++ [k]) = true.
Proof.
  intros Hen Hk. induction ks as [|x ks IH]; [reflexivity|].
  apply enumerated_cons in Hen as [Hx Hks].
  change ((x :: ks) ++ [k]) with (x :: (ks ++ [k])).
  apply enumerated_cons. split; [|now apply IH].
  apply Forall_app. split; [exact Hx|].
  apply Forall_singleton. now apply precedes_None.
Qed.

(** After a key that is no index come no indices. *)
Lemma after_no_index k (ks : list string) x :
  JSObject.arrayIndex k = None ->
  Forall (fun y => JSObject.precedes k y = true) ks ->
  x ∈ ks -> JSObject.arrayIndex x = None.
Proof.
  intros Hk Hall Hx. pose proof (proj1 (Forall_forall _ _) Hall x Hx) as H.
  unfold JSObject.precedes in H. rewrite Hk in H.
  now destruct (JSObject.arrayIndex x).
Qed.

Lemma enumerated_insertIndex (n : N) k v o :
  JSObject.arrayIndex k = Some n ->
  k ∉ JSObject.keys o ->
  JSObject.enumerated (JSObject.keys o) = true ->
  JSObject.enumerated (JSObject.keys (JSObject.insertIndex n k v o)) = true.
Proof.
  intros Hk. unfold JSObject.keys.
  induction o as [|[k1 v1] o IH]; [reflexivity|].
  intros Hnin Hen. simpl in Hnin, Hen.
  apply not_elem_of_cons in Hnin as [Hne Hnin].
  change (JSObject.enumerated (k1 :: map fst o) = true) in Hen.
  apply enumerated_cons in Hen as [H1 Ho].
  simpl JSObject.insertIndex.
  destruct (JSObject.arrayIndex k1) as [m|] eqn:E1.
  - destruct (m <? n)%N eqn:L.
    + change (JSObject.enumerated
                (k1 :: map fst (JSObject.insertIndex n k v o)) = true).
      apply enumerated_cons. split; [|now apply IH].
      pose proof (insertIndex_perm n k v o) as Hperm.
      apply (fmap_Permutation fst) in Hperm. rewrite Hperm. simpl.
      constructor; [|exact H1].
      unfold JSObject.precedes. now rewrite Hk, E1.
    + change (JSObject.enumerated (k :: k1 :: map fst o) = true).
      apply enumerated_cons. split;
        [|apply enumerated_cons; now split].
      assert (Hlt : (n < m)%N).
      { apply N.ltb_ge in L. destruct (N.eq_dec n m) as [->|]; [|lia].
        exfalso. apply Hne. now apply (arrayIndex_inj k k1 m). }
      constructor.
      * unfold JSObject.precedes. rewrite E1, Hk. now apply N.ltb_lt.
      * apply Forall_forall. intros x Hx.
        pose proof (proj1 (Forall_forall _ _) H1 x Hx) as Hp.
        unfold JSObject.precedes in *. rewrite E1 in Hp. rewrite Hk.
        destruct (JSObject.arrayIndex x) as [p|]; [|reflexivity].
        apply N.ltb_lt in Hp. apply N.ltb_lt. lia.
  - change (JSObject.enumerated (k :: k1 :: map fst o) = true).
    apply enumerated_cons. split; [|apply enumerated_cons; now split].
    constructor; [now apply precedes_None|].
    apply Forall_forall. intros x Hx. apply precedes_None.
    now apply (after_no_index k1 (map fst o)).
Qed.

Lemma canonical_define k v o :
  JSObject.canonical o -> JSObject.canonical (JSObject.define k v o).
Proof.
  intros [Hwf Hen]. split; [now apply wf_define|].
  unfold JSObject.define. destruct (JSObject.has k o) eqn:H.
  - now rewrite keys_replace.
  - assert (Hnin : k ∉ JSObject.keys o).
    { apply getOwn_None_keys. unfold JSObject.has in H.
      now destruct (JSObject.getOwn k o). }
    destruct (JSObject.arrayIndex k) as [n|] eqn:E.
    + now apply enumerated_insertIndex.
    + unfold JSObject.keys. rewrite map_app. now apply enumerated_snoc.
Qed.

Lemma wf_set k v o : JSObject.wf o -> JSObject.wf (JSObject.set k v o).
Proof.
  intros Hwf. unfold JSObject.set.
  destruct (negb (JSObject.has k o) && String.eqb k JSObject.protoKey);
    [exact Hwf | now apply wf_define].
Qed.

Lemma canonical_set k v o :
  JSObject.canonical o -> JSObject.canonical (JSObject.set k v o).
Proof.
  intros Hc. unfold JSObject.set.
  destruct (negb (JSObject.has k o) && String.eqb k JSObject.protoKey);
    [exact Hc | now apply canonical_define].
Qed.

Lemma enumerated_remove k o :
  JSObject.enumerated (JSObject.keys o) = true ->
  JSObject.enumerated (JSObject.keys (JSObject.remove k o)) = true.
Proof.
  unfold JSObject.keys. induction o as [|[k1 v1] o IH]; [trivial|].
  intros Hen. change (JSObject.enumerated (k1 :: map fst o) = true) in Hen.
  apply enumerated_cons in Hen as [H1 Ho]. simpl JSObject.remove.
  destruct (String.eqb k k1); [now apply IH|].
  change (JSObject.enumerated (k1 :: map fst (JSObject.remove k o)) = true).
  apply enumerated_cons. split; [|now apply IH].
  apply Forall_forall. intros x Hx.
  apply (proj1 (Forall_forall _ _) H1). now apply (keys_remove_sub k o x).
Qed.

Lemma canonical_remove k o :
  JSObject.canonical o -> JSObject.canonical (JSObject.remove k o).
Proof.
  intros [Hwf Hen]. split; [now apply wf_remove | now apply enumerated_remove].
Qed.

End EnumerationFacts.

Section ValidationWitness.
Import ValidationSpec.

Lemma validation_reports_invariant_violations_witness :
  (validateMappingsOf bothToEmail [requiredEmail; optionalPhone] = []
   <-> mappingInvariant bothToEmail [requiredEmail; optionalPhone])
  /\ (forall f, f ∈ [requiredEmail; optionalPhone] -> required f = true ->
        (forall h, JSObject.getOwn h bothToEmail <> Some (name f)) ->
        ("Required field '" +:+ label f +:+ "' is not mapped")
          ∈ validateMappingsOf bothToEmail [requiredEmail; optionalPhone])
  /\ (forall t, mappedTwice bothToEmail t ->
        exists ds, t ∈ ds
          /\ ("Duplicate mappings found for: " +:+ join ", " ds)
               ∈ validateMappingsOf bothToEmail
                   [requiredEmail; optionalPhone])
  /\ (forall e,
        e ∈ validateMappingsOf bothToEmail [requiredEmail; optionalPhone] ->
        (exists f, f ∈ [requiredEmail; optionalPhone] /\ required f = true
           /\ (forall h, JSObject.getOwn h bothToEmail <> Some (name f))
           /\ e = "Required field '" +:+ label f +:+ "' is not mapped")
        \/ (exists ds, (forall t, t ∈ ds <-> mappedTwice bothToEmail t)
              /\ (exists t, mappedTwice bothToEmail t)
              /\ e = "Duplicate mappings found for: " +:+ join ", " ds)).
Proof.
  apply (validation_reports_invariant_violations bothToEmail
           [requiredEmail; optionalPhone]).
  unfold JSObject.wf. apply (bool_decide_unpack _). vm_compute. exact I.
Defined.

End ValidationWitness.

(** ** Claims on the upload payload *)

Section PayloadFacts.
Import Processor ProcessorSpec.

Example loaded_from_contactsText :
  parseCSV (new ∅).1 contactsText = Return loaded.
Proof. reflexivity. Qed.

Example mailFirst_table :
  deref mailFirst (mappings loaded)
  = [("Mail", "Email"); ("Name", "LastName")].
Proof. vm_compute. reflexivity. Qed.

Example mailFirst_payload :
  generateMappedCSV loaded mailFirst = Return mailFirstPayload.
Proof. vm_compute. reflexivity. Qed.

Lemma includesChar_cons (a c : ascii) (s : string) :
  includesChar a (String c s) = Ascii.eqb a c || includesChar a s.
Proof. reflexivity. Qed.

Lemma includesChar_app (a : ascii) (s t : string) :
  includesChar a (s +:+ t) = includesChar a s || includesChar a t.
Proof.
  induction s as [|c s IH]; [reflexivity|].
  now rewrite append_cons, !includesChar_cons, IH, orb_assoc.
Qed.

Lemma includesChar_join (a : ascii) (sep : string) (parts : list string) :
  includesChar a sep = false ->
  Forall (fun p => includesChar a p = false) parts ->
  includesChar a (join sep parts) = false.
Proof.
  intros Hsep Hall. induction Hall as [|p ps Hp Hps IH]; [reflexivity|].
  destruct ps as [|q ps]; [exact Hp|].
  change (join sep (p :: q :: ps)) with (p +:+ sep +:+ join sep (q :: ps)).
  now rewrite !includesChar_app, Hp, Hsep, IH.
Qed.

Lemma splitLF_cons (c : ascii) (s : string) :
  splitLF (String c s)
  = if Ascii.eqb c LF then EmptyString :: splitLF s
    else match splitLF s with
         | l :: ls => String c l :: ls
         | [] => [str1 c]
         end.
Proof. reflexivity. Qed.

(** The first line of a text ends at its first line feed. *)
Lemma splitLF_first_line (a b : string) :
  includesChar LF a = false ->
  splitLF (a +:+ String LF b) = a :: splitLF b.
Proof.
  induction a as [|c a IH]; intros Hno.
  - rewrite append_nil_l, splitLF_cons. now rewrite Ascii.eqb_refl.
  - apply includesChar_cons_false in Hno as [Hc Ha].
    rewrite append_cons, splitLF_cons, Hc. now rewrite IH.
Qed.

Lemma splitLF_one_line (a : string) :
  includesChar LF a = false -> splitLF a = [a].
Proof.
  induction a as [|c a IH]; intros Hno; [reflexivity|].
  apply includesChar_cons_false in Hno as [Hc Ha].
  rewrite splitLF_cons, Hc. now rewrite IH.
Qed.

Lemma firstLine_join (a : string) (rest : list string) :
  includesChar LF a = false ->
  firstLine (join (str1 LF) (a :: rest)) = a.
Proof.
  intros Hno. unfold firstLine. destruct rest as [|b rest].
  - simpl join. now rewrite splitLF_one_line.
  - change (join (str1 LF) (a :: b :: rest))
      with (a +:+ String LF (join (str1 LF) (b :: rest))).
    now rewrite splitLF_first_line.
Qed.

(** Assigning new, non-index keys one after the other lists them in that
    order. *)
Lemma define_sequence (assigns : list (string * string)) :
  NoDup (map fst assigns) ->
  Forall (fun e => JSObject.arrayIndex e.1 = None) assigns ->
  forall done : JSObject.t string,
    (forall e, e ∈ assigns -> JSObject.getOwn e.1 done = None) ->
    foldl (fun o e => JSObject.define e.1 e.2 o) done assigns = done ++ assigns.
Proof.
  induction assigns as [|[k v] assigns IH]; intros Hnd Hidx done Hnew; simpl.
  - now rewrite app_nil_r.
  - apply NoDup_cons in Hnd as [Hk Hnd].
    apply Forall_cons in Hidx as [Hkidx Hidx]. simpl in Hkidx.
    assert (Hset : JSObject.define k v done = done ++ [(k, v)]).
    { pose proof (Hnew (k, v) (list_elem_of_here _ _)) as Hfree.
      simpl in Hfree. unfold JSObject.define, JSObject.has.
      now rewrite Hfree, Hkidx. }
    rewrite Hset, IH; [now rewrite <- app_assoc | exact Hnd | exact Hidx |].
    intros [k' v'] Hin. simpl.
    assert (k <> k').
    { intros ->. apply Hk. apply list_elem_of_fmap. now exists (k', v'). }
    rewrite getOwn_snoc_ne by assumption.
    apply (Hnew (k', v')). now apply list_elem_of_further.
Qed.

(** Assignments to names other than [__proto__] define the properties. *)
Lemma set_sequence (assigns : list (string * string)) :
  Forall (fun e => e.1 <> JSObject.protoKey) assigns ->
  forall done : JSObject.t string,
    foldl (fun o e => JSObject.set e.1 e.2 o) done assigns
    = foldl (fun o e => JSObject.define e.1 e.2 o) done assigns.
Proof.
  induction 1 as [|e assigns He Hall IH]; intros done; [reflexivity|].
  simpl. now rewrite IH, set_define.
Qed.

Lemma deref_setMapping (this : CSVProcessor) (k v : string) (h : heap) :
  deref (setMapping this k v h) (mappings this)
  = JSObject.set k v (deref h (mappings this)).
Proof. unfold setMapping, deref. now rewrite lookup_insert_eq. Qed.

Lemma deref_assignAll (this : CSVProcessor) (assigns : list (string * string)) :
  forall h : heap,
    deref (assignAll this assigns h) (mappings this)
    = foldl (fun o e => JSObject.set e.1 e.2 o) (deref h (mappings this))
        assigns.
Proof.
  unfold assignAll. induction assigns as [|e assigns IH]; intros h; simpl;
    [reflexivity|].
  now rewrite IH, deref_setMapping.
Qed.

Lemma omap_getOwn_skip (k v : string) (m : JSObject.t string)
    (columns : list string) :
  k ∉ columns ->
  omap (fun column => JSObject.getOwn column ((k, v) :: m)) columns
  = omap (fun column => JSObject.getOwn column m) columns.
Proof.
  induction columns as [|c cs IH]; intros Hk; [reflexivity|].
  apply not_elem_of_cons in Hk as [Hne Hk].
  apply String.eqb_neq in Hne. rewrite String.eqb_sym in Hne.
  change (omap (fun column => JSObject.getOwn column ((k, v) :: m)) (c :: cs))
    with (match (if String.eqb c k then Some v else JSObject.getOwn c m) with
          | Some y =>
              y :: omap (fun column => JSObject.getOwn column ((k, v) :: m)) cs
          | None => omap (fun column => JSObject.getOwn column ((k, v) :: m)) cs
          end).
  rewrite Hne, (IH Hk). reflexivity.
Qed.

(** In a table with distinct keys, reading the keys in table order gives
    the values in table order. *)
Lemma omap_getOwn_keys (m : JSObject.t string) :
  JSObject.wf m ->
  omap (fun column => JSObject.getOwn column m) (JSObject.keys m)
  = JSObject.values m.
Proof.
  unfold JSObject.wf, JSObject.keys, JSObject.values.
  induction m as [|[k v] m IH]; intros Hwf; [reflexivity|].
  change (NoDup (k :: map fst m)) in Hwf.
  apply NoDup_cons in Hwf as [Hk Hwf].
  change (omap (fun column => JSObject.getOwn column ((k, v) :: m))
            (map fst ((k, v) :: m)))
    with (match (if String.eqb k k then Some v else JSObject.getOwn k m) with
          | Some y =>
              y :: omap (fun column => JSObject.getOwn column ((k, v) :: m))
                     (map fst m)
          | None =>
              omap (fun column => JSObject.getOwn column ((k, v) :: m))
                (map fst m)
          end).
  rewrite String.eqb_refl, (omap_getOwn_skip k v m _ Hk), (IH Hwf).
  reflexivity.
Qed.

End PayloadFacts.

Section PayloadClaims.
Import Processor ProcessorSpec.

(** C6, as stated, fails: with [Mail] mapped before [Name], the header row
    is [Email,LastName], while the columns of the file are [Name] and then
    [Mail]. *)
Lemma header_row_not_in_column_order :
  ~ headerRowInColumnOrder loaded mailFirst.
Proof.
  intros H. specialize (H mailFirstPayload mailFirst_payload).
  vm_compute in H. discriminate H.
Qed.

(** C6, amended: for a loaded document and a non-empty mapping table, the
    payload is the header row followed by one line per row of the document,
    joined by line feeds; the header row is the comma-separated list of the
    mapped target field identifiers in the enumeration order of the mapping
    table, whatever the column order of the document; and it is the first
    line of the payload when no identifier holds a line feed. *)
Theorem header_row_follows_table_order (this : CSVProcessor) (h : heap)
    (rows : list Row) :
  csvData this = Some rows ->
  JSObject.keys (deref h (mappings this)) <> [] ->
  exists payload,
    generateMappedCSV this h = Return payload
    /\ payload
       = join (str1 LF)
           (join "," (JSObject.values (deref h (mappings this)))
            :: map (mappedLine (deref h (mappings this))) rows)
    /\ (Forall (fun t => includesChar LF t = false)
          (JSObject.values (deref h (mappings this))) ->
        firstLine payload
        = join "," (JSObject.values (deref h (mappings this)))).
Proof.
  intros Hdata Hkeys.
  unfold generateMappedCSV, generateMappedCSVOf. rewrite Hdata.
  destruct (JSObject.keys (deref h (mappings this))) as [|k ks] eqn:E;
    [contradiction|].
  change (Nat.eqb (List.length (k :: ks)) 0) with false. cbv iota.
  eexists. split; [reflexivity|]. split; [reflexivity|].
  intros Hlf. apply firstLine_join. now apply includesChar_join.
Qed.

Lemma header_row_follows_table_order_witness :
  exists payload,
    generateMappedCSV loaded mailFirst = Return payload
    /\ payload
       = join (str1 LF)
           (join "," (JSObject.values (deref mailFirst (mappings loaded)))
            :: map (mappedLine (deref mailFirst (mappings loaded)))
                 [[("Name", "Smith"); ("Mail", "X@Y.Z")]])
    /\ (Forall (fun t => includesChar LF t = false)
          (JSObject.values (deref mailFirst (mappings loaded))) ->
        firstLine payload
        = join "," (JSObject.values (deref mailFirst (mappings loaded)))).
Proof.
  apply (header_row_follows_table_order loaded mailFirst
           [[("Name", "Smith"); ("Mail", "X@Y.Z")]]).
  - reflexivity.
  - vm_compute. discriminate.
Defined.

(** On a new table, distinct headers that are neither array indices nor
    [__proto__], assigned once each, are enumerated in the order they were
    assigned: so is the header row. *)
Lemma header_row_follows_assignment_order (this : CSVProcessor) (h : heap)
    (assigns : list (string * string)) :
  deref h (mappings this) = JSObject.empty ->
  NoDup (map fst assigns) ->
  Forall (fun e => JSObject.arrayIndex e.1 = None) assigns ->
  Forall (fun e => e.1 <> JSObject.protoKey) assigns ->
  mappedHeaderLine (deref (assignAll this assigns h) (mappings this))
  = join "," (map snd assigns).
Proof.
  intros Hnew Hnd Hidx Hp. rewrite deref_assignAll, Hnew.
  rewrite set_sequence by exact Hp.
  rewrite define_sequence; [reflexivity | exact Hnd | exact Hidx |].
  reflexivity.
Qed.

(** The column order is met when every column is mapped, in column
    order. *)
Lemma header_row_in_column_order_when_assigned_so (this : CSVProcessor)
    (h : heap) (assigns : list (string * string)) :
  deref h (mappings this) = JSObject.empty ->
  NoDup (map fst assigns) ->
  Forall (fun e => JSObject.arrayIndex e.1 = None) assigns ->
  Forall (fun e => e.1 <> JSObject.protoKey) assigns ->
  headers this = map fst assigns ->
  mappedHeaderLine (deref (assignAll this assigns h) (mappings this))
  = headerInColumnOrder (headers this)
      (deref (assignAll this assigns h) (mappings this)).
Proof.
  intros Hnew Hnd Hidx Hp Hcols.
  unfold mappedHeaderLine, headerInColumnOrder.
  rewrite deref_assignAll, Hnew, Hcols.
  rewrite set_sequence by exact Hp.
  rewrite define_sequence; [| exact Hnd | exact Hidx | reflexivity].
  change (JSObject.empty ++ assigns) with assigns.
  pose proof (omap_getOwn_keys assigns Hnd) as Hk.
  unfold JSObject.keys in Hk. now rewrite Hk.
Qed.

End PayloadClaims.

(** ** Claims on the copy returned by [getMappings] *)

Section CopyFacts.
Import Processor ProcessorSpec.

Lemma alloc_fresh (o : JSObject.t string) (h : heap) :
  (alloc o h).1 ∉ dom h.
Proof. unfold alloc. simpl. apply is_fresh. Qed.

Lemma deref_alloc (o : JSObject.t string) (h : heap) :
  deref (alloc o h).2 (alloc o h).1 = o.
Proof. unfold alloc, deref. simpl. now rewrite lookup_insert_eq. Qed.

Lemma deref_alloc_other (o : JSObject.t string) (h : heap) (l : loc) :
  l ∈ dom h -> deref (alloc o h).2 l = deref h l.
Proof.
  intros Hl. unfold alloc, deref. simpl.
  rewrite lookup_insert_ne; [reflexivity|].
  intros <-. now apply (is_fresh (dom h)).
Qed.

Lemma deref_mutate_other (r l : loc) (mu : Mutation) (h : heap) :
  l <> r -> deref (mutate r mu h) l = deref h l.
Proof.
  intros Hne. unfold deref.
  destruct mu; simpl; now rewrite lookup_insert_ne by congruence.
Qed.

Lemma deref_mutateAll_other (r l : loc) (ms : list Mutation) :
  l <> r -> forall h : heap, deref (mutateAll r ms h) l = deref h l.
Proof.
  intros Hne. unfold mutateAll.
  induction ms as [|mu ms IH]; intros h; simpl; [reflexivity|].
  now rewrite IH, deref_mutate_other.
Qed.

Lemma deref_mutate_same (r : loc) (mu : Mutation) (h : heap) :
  deref (mutate r mu h) r
  = match mu with
    | Assign k v => JSObject.set k v (deref h r)
    | Delete k => JSObject.remove k (deref h r)
    end.
Proof. unfold deref. destruct mu; simpl; now rewrite lookup_insert_eq. Qed.

(** Whatever is assigned and deleted, the keys of the table stay distinct
    and in enumeration order, and none of them is [__proto__]. *)
Lemma wf_mutateAll (r : loc) (ms : list Mutation) :
  forall h : heap,
    JSObject.wf (deref h r) -> JSObject.wf (deref (mutateAll r ms h) r).
Proof.
  unfold mutateAll. induction ms as [|mu ms IH]; intros h Hwf; [exact Hwf|].
  simpl. apply IH. rewrite deref_mutate_same.
  destruct mu; [now apply wf_set | now apply wf_remove].
Qed.

Lemma canonical_mutateAll (r : loc) (ms : list Mutation) :
  forall h : heap,
    JSObject.canonical (deref h r) ->
    JSObject.canonical (deref (mutateAll r ms h) r).
Proof.
  unfold mutateAll. induction ms as [|mu ms IH]; intros h Hc; [exact Hc|].
  simpl. apply IH. rewrite deref_mutate_same.
  destruct mu; [now apply canonical_set | now apply canonical_remove].
Qed.

Lemma getOwn_remove_eq {V : Type} (k : string) (o : JSObject.t V) :
  JSObject.getOwn k (JSObject.remove k o) = None.
Proof.
  induction o as [|[k1 v1] o IH]; [reflexivity|]. simpl.
  destruct (String.eqb k k1) eqn:E; [exact IH|]. simpl. now rewrite E.
Qed.

Lemma getOwn_remove_ne {V : Type} (k k' : string) (o : JSObject.t V) :
  k <> k' -> JSObject.getOwn k' (JSObject.remove k o) = JSObject.getOwn k' o.
Proof.
  intros Hne. induction o as [|[k1 v1] o IH]; [reflexivity|]. simpl.
  destruct (String.eqb_spec k k1) as [->|Hk].
  - rewrite IH. now rewrite (proj2 (String.eqb_neq k' k1)) by congruence.
  - simpl. now rewrite IH.
Qed.

Lemma proto_free_mutateAll (r : loc) (ms : list Mutation) :
  forall h : heap,
    JSObject.getOwn JSObject.protoKey (deref h r) = None ->
    JSObject.getOwn JSObject.protoKey (deref (mutateAll r ms h) r) = None.
Proof.
  unfold mutateAll. induction ms as [|mu ms IH]; intros h Hno; [exact Hno|].
  simpl. apply IH. rewrite deref_mutate_same. destruct mu as [k v|k].
  - now apply getOwn_set_proto.
  - destruct (String.eqb_spec k JSObject.protoKey) as [->|Hne].
    + apply getOwn_remove_eq.
    + now rewrite getOwn_remove_ne by exact Hne.
Qed.

Lemma deref_new (h : heap) :
  deref (new h).2 (mappings (new h).1) = JSObject.empty.
Proof. unfold new, alloc, deref. simpl. now rewrite lookup_insert_eq. Qed.

(** The mapping table of a processor, whatever was assigned to it and
    deleted from it since it was created, is a table in enumeration order
    without a property [__proto__]. *)
Lemma reachable_table (h : heap) (ms : list Mutation) :
  let this := (new h).1 in
  let table := deref (mutateAll (mappings this) ms (new h).2) (mappings this)
  in JSObject.canonical table
     /\ JSObject.getOwn JSObject.protoKey table = None.
Proof.
  intros this table. subst table. split.
  - apply canonical_mutateAll. subst this. rewrite deref_new.
    apply canonical_empty.
  - apply proto_free_mutateAll. subst this. now rewrite deref_new.
Qed.

(** The copy reads like the original. *)
Lemma getOwn_spread_from (es : list (string * string)) :
  NoDup (map fst es) ->
  forall (acc : JSObject.t string) (k : string),
    JSObject.getOwn k (foldl (fun acc e => JSObject.define e.1 e.2 acc) acc es)
    = match JSObject.getOwn k es with
      | Some v => Some v
      | None => JSObject.getOwn k acc
      end.
Proof.
  induction es as [|[k1 v1] es IH]; intros Hnd acc k; [reflexivity|].
  change (NoDup (k1 :: map fst es)) in Hnd.
  apply NoDup_cons in Hnd as [Hk1 Hnd].
  simpl foldl. rewrite (IH Hnd). simpl JSObject.getOwn.
  destruct (String.eqb_spec k k1) as [->|Hne].
  - apply getOwn_None_keys in Hk1. rewrite Hk1. apply getOwn_define_eq.
  - rewrite getOwn_define_ne by congruence. reflexivity.
Qed.

Lemma getOwn_spread (o : JSObject.t string) (k : string) :
  JSObject.wf o -> JSObject.getOwn k (JSObject.spread o) = JSObject.getOwn k o.
Proof.
  intros Hwf. unfold JSObject.spread, JSObject.entries.
  rewrite (getOwn_spread_from o Hwf). now destruct (JSObject.getOwn k o).
Qed.

End CopyFacts.

Section CopyClaims.
Import Processor ProcessorSpec.

(** C10: for a mapping table with distinct keys in enumeration order, as
    every object has them, [getMappings] returns a new table that holds the
    entries of the mapping table, in the same order; whatever is assigned to
    it or deleted from it afterwards, the processor's own table is what it
    was,
    and [getMappings], [validateMappings] and [generateMappedCSV] answer
    as they did before. *)
Theorem getMappings_copy_is_defensive (this : CSVProcessor) (h : heap)
    (ms : list Mutation) (fields : list TargetField) :
  mappings this ∈ dom h ->
  JSObject.canonical (deref h (mappings this)) ->
  let r := (getMappings this h).1 in
  let h1 := (getMappings this h).2 in
  let h2 := mutateAll r ms h1 in
  (r ∉ dom h)
  /\ r <> mappings this
  /\ deref h1 r = deref h (mappings this)
  /\ deref h2 (mappings this) = deref h (mappings this)
  /\ deref (getMappings this h2).2 (getMappings this h2).1
     = deref h (mappings this)
  /\ validateMappings this fields h2 = validateMappings this fields h
  /\ generateMappedCSV this h2 = generateMappedCSV this h.
Proof.
  intros Hdom Hc r h1 h2.
  assert (Hfresh : r ∉ dom h).
  { subst r. unfold getMappings. apply alloc_fresh. }
  assert (Hne : mappings this <> r) by (intros Heq; now rewrite Heq in Hdom).
  assert (Hsame : deref h2 (mappings this) = deref h (mappings this)).
  { subst h2. rewrite deref_mutateAll_other by exact Hne.
    subst h1. unfold getMappings. now apply deref_alloc_other. }
  split; [exact Hfresh|]. split; [congruence|]. split; [|split; [|split]].
  - subst h1 r. unfold getMappings. rewrite deref_alloc.
    now apply spread_canonical.
  - exact Hsame.
  - unfold getMappings at 1 2. rewrite deref_alloc, Hsame.
    now apply spread_canonical.
  - split.
    + unfold validateMappings. now rewrite Hsame.
    + unfold generateMappedCSV. now rewrite Hsame.
Qed.

Lemma getMappings_copy_is_defensive_witness :
  let r := (getMappings loaded mailFirst).1 in
  let h1 := (getMappings loaded mailFirst).2 in
  let h2 := mutateAll r [Assign "Name" "Phone"; Delete "Mail"] h1 in
  (r ∉ dom mailFirst)
  /\ r <> mappings loaded
  /\ deref h1 r = deref mailFirst (mappings loaded)
  /\ deref h2 (mappings loaded) = deref mailFirst (mappings loaded)
  /\ deref (getMappings loaded h2).2 (getMappings loaded h2).1
     = deref mailFirst (mappings loaded)
  /\ validateMappings loaded [ValidationSpec.requiredEmail] h2
     = validateMappings loaded [ValidationSpec.requiredEmail] mailFirst
  /\ generateMappedCSV loaded h2 = generateMappedCSV loaded mailFirst.
Proof.
  apply (getMappings_copy_is_defensive loaded mailFirst
           [Assign "Name" "Phone"; Delete "Mail"]
           [ValidationSpec.requiredEmail]).
  - apply (bool_decide_unpack _). vm_compute. exact I.
  - split; [|reflexivity].
    unfold JSObject.wf. apply (bool_decide_unpack _). vm_compute. exact I.
Defined.

(** The copy itself does change: the two tables are distinct objects. *)
Example copy_is_mutated :
  let r := (getMappings loaded mailFirst).1 in
  let h1 := (getMappings loaded mailFirst).2 in
  deref h1 r = [("Mail", "Email"); ("Name", "LastName")]
  /\ deref (mutateAll r [Assign "Name" "Phone"; Delete "Mail"] h1) r
     = [("Name", "Phone")].
Proof. vm_compute. split; reflexivity. Qed.

End CopyClaims.

(** ** Lines of cells *)

Section LineFacts.
Import LineSpec.

Lemma scan_quoted_then (w : string) :
  forall (cur rest : string) (res : list string),
    cellEnd rest ->
    scan (doubleQuotes w +:+ String dquote rest) true cur res
    = scan rest false (cur +:+ w) res.
Proof.
  induction w as [|c w IH]; intros cur rest res Hend.
  - rewrite append_nil_r.
    change (doubleQuotes EmptyString +:+ String dquote rest)
      with (String dquote rest).
    destruct Hend as [->|[r ->]]; reflexivity.
  - simpl doubleQuotes. destruct (Ascii.eqb c dquote) eqn:E.
    + apply Ascii.eqb_eq in E as ->.
      rewrite !append_cons. simpl scan.
      rewrite (IH _ _ _ Hend). now rewrite append_assoc.
    + rewrite append_cons. simpl scan. rewrite E.
      rewrite andb_false_r. cbv iota.
      rewrite (IH _ _ _ Hend). now rewrite append_assoc.
Qed.

Lemma scan_plain_then (w : string) :
  forall (cur rest : string) (res : list string),
    includesChar comma w = false -> includesChar dquote w = false ->
    scan (w +:+ rest) false cur res = scan rest false (cur +:+ w) res.
Proof.
  induction w as [|c w IH]; intros cur rest res Hc Hq.
  - now rewrite append_nil_l, append_nil_r.
  - apply includesChar_cons_false in Hc as [Hc1 Hc2].
    apply includesChar_cons_false in Hq as [Hq1 Hq2].
    rewrite append_cons. simpl scan. rewrite Hq1, Hc1. simpl andb.
    cbv iota. rewrite IH by assumption. now rewrite append_assoc.
Qed.

(** Scanning the text written for a cell reads the cell back. *)
Lemma scan_escaped_then (w rest : string) (res : list string) :
  cellEnd rest ->
  scan (escapeValue w +:+ rest) false EmptyString res
  = scan rest false w res.
Proof.
  intros Hend. unfold escapeValue. destruct (needsQuotes w) eqn:N.
  - change (quoted w +:+ rest)
      with (String dquote ((doubleQuotes w +:+ str1 dquote) +:+ rest)).
    rewrite append_assoc.
    change (str1 dquote +:+ rest) with (String dquote rest).
    pose proof (scan_quoted_then w EmptyString rest res Hend) as H.
    rewrite append_nil_l in H. rewrite <- H.
    simpl scan.
    now destruct (doubleQuotes w +:+ String dquote rest).
  - unfold needsQuotes in N.
    apply orb_false_iff in N as [[Hc Hq]%orb_false_iff _].
    now rewrite scan_plain_then.
Qed.

Lemma scan_joined_cells (cells : list string) :
  cells <> [] ->
  forall res : list string,
    scan (join "," (map escapeValue cells)) false EmptyString res
    = res ++ map trim cells.
Proof.
  induction cells as [|c cells IH]; intros Hne res; [contradiction|].
  destruct cells as [|d cells].
  - simpl map. simpl join.
    rewrite <- (append_nil_r (escapeValue c)).
    rewrite scan_escaped_then by now left. reflexivity.
  - change (join "," (map escapeValue (c :: d :: cells)))
      with (escapeValue c
              +:+ String comma (join "," (map escapeValue (d :: cells)))).
    rewrite scan_escaped_then by (right; eauto).
    change (scan (String comma (join "," (map escapeValue (d :: cells))))
              false c res)
      with (scan (join "," (map escapeValue (d :: cells))) false EmptyString
              (res ++ [trim c])).
    rewrite IH by discriminate. now rewrite <- app_assoc.
Qed.

End LineFacts.

Section LineClaims.
Import LineSpec.

(** X1: a line made of the texts written for a non-empty list of cells,
    separated by commas, tokenizes back to these cells, each trimmed:
    commas, quotes and line feeds inside a cell do not break the line. *)
Theorem joined_cells_tokenize_back (cells : list string) :
  cells <> [] ->
  parseCSVLine (join "," (map escapeValue cells)) = map trim cells.
Proof.
  intros Hne. unfold parseCSVLine. now rewrite scan_joined_cells.
Qed.

Lemma joined_cells_tokenize_back_witness :
  parseCSVLine
    (join "," (map escapeValue [" a,b"; Samples.quotedValue; EmptyString]))
  = map trim [" a,b"; Samples.quotedValue; EmptyString].
Proof.
  apply (joined_cells_tokenize_back
           [" a,b"; Samples.quotedValue; EmptyString]).
  discriminate.
Defined.

(** X2: every data line of the upload payload tokenizes back to the
    normalized cells of its row, one per mapped column, in the order of the
    mapping table. *)
Theorem payload_line_tokenizes_to_normalized_cells
    (m : JSObject.t string) (row : Row) :
  JSObject.entries m <> [] ->
  parseCSVLine (mappedLine m row)
  = map (fun e => normalizedCell row e.1) (JSObject.entries m).
Proof.
  intros Hne. unfold mappedLine, mappedCell.
  rewrite <- (map_map (fun e : string * string => normalizedCell row e.1)
                escapeValue).
  unfold parseCSVLine. rewrite scan_joined_cells.
  - rewrite map_map. simpl. apply map_ext.
    intros e. apply formatValue_trimmed.
  - destruct (JSObject.entries m); [contradiction | discriminate].
Qed.

Lemma payload_line_tokenizes_to_normalized_cells_witness :
  parseCSVLine (mappedLine orderTable orderRow)
  = map (fun e => normalizedCell orderRow e.1) (JSObject.entries orderTable).
Proof.
  apply (payload_line_tokenizes_to_normalized_cells orderTable orderRow).
  discriminate.
Defined.

End LineClaims.

(** ** Lines without quotes, and the rows of a parsed document *)

Section RowFacts.
Import LineSpec.

Lemma splitChar_not_nil (c : ascii) (s : string) : splitChar c s <> [].
Proof.
  induction s as [|d s IH]; simpl; [discriminate|].
  destruct (Ascii.eqb d c); [discriminate|].
  destruct (splitChar c s); [contradiction | discriminate].
Qed.

Lemma splitChar_cons (c d : ascii) (s : string) :
  splitChar c (String d s)
  = if Ascii.eqb d c then EmptyString :: splitChar c s
    else match splitChar c s with
         | l :: ls => String d l :: ls
         | [] => [str1 d]
         end.
Proof. reflexivity. Qed.

Lemma scan_unquoted (line : string) :
  forall (cur : string) (res : list string),
    includesChar dquote line = false ->
    scan line false cur res
    = res ++ match splitChar comma line with
             | f :: fs => trim (cur +:+ f) :: map trim fs
             | [] => []
             end.
Proof.
  induction line as [|c line IH]; intros cur res Hq.
  - simpl. now rewrite append_nil_r.
  - apply includesChar_cons_false in Hq as [Hq1 Hq2].
    simpl scan. rewrite Hq1, splitChar_cons.
    destruct (Ascii.eqb c comma) eqn:E; simpl andb; cbv iota.
    + rewrite (IH _ _ Hq2), append_nil_r.
      pose proof (splitChar_not_nil comma line) as Hne.
      destruct (splitChar comma line) as [|f fs]; [contradiction|].
      rewrite append_nil_l. now rewrite <- app_assoc.
    + rewrite (IH _ _ Hq2).
      pose proof (splitChar_not_nil comma line) as Hne.
      destruct (splitChar comma line) as [|f fs]; [contradiction|].
      now rewrite append_assoc.
Qed.

Lemma fillRow_app (l1 l2 : list string) :
  forall (index : nat) (cells : list string) (acc : Row),
    fillRow (l1 ++ l2) index cells acc
    = fillRow l2 (index + List.length l1) cells (fillRow l1 index cells acc).
Proof.
  induction l1 as [|h l1 IH]; intros index cells acc; simpl.
  - now rewrite Nat.add_0_r.
  - rewrite IH. f_equal. lia.
Qed.

Lemma get_fillRow_other (h : string) (hs : list string) :
  forall (index : nat) (cells : list string) (acc : Row),
    h ∉ hs ->
    JSObject.getOwn h (fillRow hs index cells acc) = JSObject.getOwn h acc.
Proof.
  induction hs as [|x hs IH]; intros index cells acc Hnin; [reflexivity|].
  apply not_elem_of_cons in Hnin as [Hne Hnin].
  simpl. rewrite IH by exact Hnin. apply getOwn_set_ne. congruence.
Qed.

(** The cell kept under a header is the one of its last column. *)
Lemma get_fillRow_last (pre post : list string) (h : string)
    (cells : list string) (acc : Row) :
  h ∉ post -> h <> JSObject.protoKey ->
  JSObject.getOwn h (fillRow (pre ++ h :: post) 0 cells acc)
  = Some (default EmptyString (cells !! List.length pre)).
Proof.
  intros Hnin Hp. rewrite fillRow_app. simpl.
  rewrite get_fillRow_other by exact Hnin. now apply getOwn_set_eq.
Qed.

(** No row gets a cell named [__proto__]. *)
Lemma get_fillRow_proto (hs : list string) :
  forall (index : nat) (cells : list string) (acc : Row),
    JSObject.getOwn JSObject.protoKey acc = None ->
    JSObject.getOwn JSObject.protoKey (fillRow hs index cells acc) = None.
Proof.
  induction hs as [|x hs IH]; intros index cells acc Hno; [exact Hno|].
  simpl. apply IH. now apply getOwn_set_proto.
Qed.

Lemma has_fillRow (h : string) (hs : list string) :
  forall (index : nat) (cells : list string) (acc : Row),
    h <> JSObject.protoKey ->
    is_Some (JSObject.getOwn h (fillRow hs index cells acc))
    <-> h ∈ hs \/ is_Some (JSObject.getOwn h acc).
Proof.
  intros index cells acc Hp. revert index cells acc.
  induction hs as [|x hs IH]; intros index cells acc; simpl.
  - split; [now right|]. intros [Hin|Hs]; [|exact Hs].
    now apply elem_of_nil in Hin.
  - rewrite IH, elem_of_cons. destruct (decide (h = x)) as [->|Hne].
    + rewrite getOwn_set_eq by exact Hp. split; [intros _; now left; left|].
      intros _. right. eauto.
    + rewrite getOwn_set_ne by congruence. tauto.
Qed.

(** Each row of a parsed document comes from a non-blank line. *)
Lemma elem_parseRows (hs lines : list string) (r : Row) :
  r ∈ parseRows hs lines ->
  exists l, l ∈ lines /\ isEmpty (trim l) = false
            /\ r = fillRow hs 0 (parseCSVLine l) JSObject.empty.
Proof.
  induction lines as [|l lines IH]; simpl; intros Hin.
  - now apply elem_of_nil in Hin.
  - destruct (isEmpty (trim l)) eqn:E.
    + destruct (IH Hin) as (l' & Hl' & Hb & ->).
      exists l'. split; [now apply list_elem_of_further | now split].
    + apply elem_of_cons in Hin as [->|Hin].
      * exists l. split; [apply list_elem_of_here | now split].
      * destruct (IH Hin) as (l' & Hl' & Hb & ->).
        exists l'. split; [now apply list_elem_of_further | now split].
Qed.

Lemma elem_data (csvText : string) (p : Parsed) (r : Row) :
  parseCSVText csvText = Return p -> r ∈ data p ->
  exists l, l ∈ splitLF (trim csvText) /\ isEmpty (trim l) = false
            /\ r = fillRow (Tokenizer.headers p) 0 (parseCSVLine l)
                     JSObject.empty.
Proof.
  unfold parseCSVText.
  destruct (splitLF (trim csvText)) as [|first rest]; [discriminate|].
  intros [= <-] Hin. simpl in *.
  destruct (elem_parseRows _ _ _ Hin) as (l & Hl & Hb & ->).
  exists l. split; [now apply list_elem_of_further | now split].
Qed.

End RowFacts.

Section RowClaims.
Import LineSpec.

(** X3: on a line without any double quote, the line parser cuts at every
    comma and trims each piece. *)
Theorem unquoted_line_is_split_and_trimmed (line : string) :
  includesChar dquote line = false ->
  parseCSVLine line = map trim (splitChar comma line).
Proof.
  intros Hq. unfold parseCSVLine. rewrite scan_unquoted by exact Hq.
  pose proof (splitChar_not_nil comma line) as Hne.
  destruct (splitChar comma line) as [|f fs]; [contradiction|].
  reflexivity.
Qed.

Lemma unquoted_line_is_split_and_trimmed_witness :
  parseCSVLine " a , b,,c " = map trim (splitChar comma " a , b,,c ").
Proof.
  apply (unquoted_line_is_split_and_trimmed " a , b,,c "). reflexivity.
Defined.

(** X4: every row of a parsed document has a cell of its own for each
    header of the document other than [__proto__], and for nothing else: a
    column named [__proto__] is not stored. *)
Theorem parsed_rows_have_the_header_keys (csvText : string) (p : Parsed)
    (r : Row) (h : string) :
  parseCSVText csvText = Return p -> r ∈ data p ->
  (is_Some (JSObject.getOwn h r)
   <-> h ∈ Tokenizer.headers p /\ h <> "__proto__").
Proof.
  intros Hp Hr. destruct (elem_data _ _ _ Hp Hr) as (l & _ & _ & ->).
  destruct (String.eqb_spec h JSObject.protoKey) as [->|Hne].
  - rewrite get_fillRow_proto by reflexivity. split.
    + intros [v Hv]. discriminate.
    + now intros [_ Hc].
  - rewrite has_fillRow by exact Hne. split.
    + intros [Hin|[v Hv]]; [now split | discriminate].
    + intros [Hin _]. now left.
Qed.

Lemma parsed_rows_have_the_header_keys_witness :
  is_Some (JSObject.getOwn "b" [("a", "3"); ("b", "2")])
  <-> "b" ∈ ["a"; "b"; "a"] /\ "b" <> "__proto__".
Proof.
  apply (parsed_rows_have_the_header_keys repeatedHeaderText
           {| Tokenizer.headers := ["a"; "b"; "a"];
              data := [[("a", "3"); ("b", "2")];
                       [("a", EmptyString); ("b", EmptyString)]] |}).
  - reflexivity.
  - apply list_elem_of_here.
Defined.

(** X5: every row of a parsed document is read from a non-blank line of
    the text, cell by cell against the headers: the header at position [i],
    unless it is [__proto__], gets the cell at position [i], or the empty
    string when the line is too short, and of several columns with the same
    header the last one is kept.  Reading [__proto__] in a row gives
    [Object.prototype], whatever the line holds. *)
Theorem parsed_rows_zip_headers_with_cells (csvText : string) (p : Parsed)
    (r : Row) :
  parseCSVText csvText = Return p -> r ∈ data p ->
  exists l,
    l ∈ splitLF (trim csvText) /\ isEmpty (trim l) = false
    /\ (forall pre h post,
          Tokenizer.headers p = pre ++ h :: post -> h ∉ post ->
          h <> "__proto__" ->
          JSObject.get h r
          = JSObject.Own
              (default EmptyString (parseCSVLine l !! List.length pre)))
    /\ JSObject.get "__proto__" r = JSObject.Prototype.
Proof.
  intros Hp Hr. destruct (elem_data _ _ _ Hp Hr) as (l & Hl & Hb & ->).
  exists l. split; [exact Hl|]. split; [exact Hb|]. split.
  - intros pre h post -> Hnin Hne. apply get_own.
    now apply get_fillRow_last.
  - pose proof (get_fillRow_proto (Tokenizer.headers p) 0 (parseCSVLine l)
                  JSObject.empty eq_refl) as E.
    unfold JSObject.protoKey in E. unfold JSObject.get. now rewrite E.
Qed.

Lemma parsed_rows_zip_headers_with_cells_witness :
  exists l,
    l ∈ splitLF (trim repeatedHeaderText) /\ isEmpty (trim l) = false
    /\ (forall pre h post,
          ["a"; "b"; "a"] = pre ++ h :: post -> h ∉ post ->
          h <> "__proto__" ->
          JSObject.get h [("a", EmptyString); ("b", EmptyString)]
          = JSObject.Own
              (default EmptyString (parseCSVLine l !! List.length pre)))
    /\ JSObject.get "__proto__" [("a", EmptyString); ("b", EmptyString)]
       = JSObject.Prototype.
Proof.
  apply (parsed_rows_zip_headers_with_cells repeatedHeaderText
           {| Tokenizer.headers := ["a"; "b"; "a"];
              data := [[("a", "3"); ("b", "2")];
                       [("a", EmptyString); ("b", EmptyString)]] |}).
  - reflexivity.
  - apply list_elem_of_further, list_elem_of_here.
Defined.

(** In a parsed document every column but [__proto__] reads as data in
    every row, and [__proto__] in none. *)
Lemma parsed_column_reads_data (csvText : string) (p : Parsed) (h : string) :
  parseCSVText csvText = Return p ->
  h ∈ Tokenizer.headers p -> h <> JSObject.protoKey ->
  Forall (fun row => InferrerSpec.readsData h row = true) (data p).
Proof.
  intros Hp Hin Hne. apply Forall_forall. intros r Hr.
  destruct (elem_data _ _ _ Hp Hr) as (l & _ & _ & ->).
  assert (Hs : is_Some (JSObject.getOwn h
                 (fillRow (Tokenizer.headers p) 0 (parseCSVLine l)
                    JSObject.empty))).
  { apply has_fillRow; [exact Hne | now left]. }
  destruct Hs as [v Hv]. unfold InferrerSpec.readsData.
  now rewrite (get_own _ _ _ Hv).
Qed.

Lemma parsed_proto_column_is_inherited (csvText : string) (p : Parsed)
    (r : Row) :
  parseCSVText csvText = Return p -> r ∈ data p ->
  InferrerSpec.readsData JSObject.protoKey r = false.
Proof.
  intros Hp Hr. destruct (elem_data _ _ _ Hp Hr) as (l & _ & _ & ->).
  unfold InferrerSpec.readsData, JSObject.get.
  now rewrite get_fillRow_proto.
Qed.

End RowClaims.

(** ** Cells of a parsed document *)

Section CellFacts.
Import LineSpec.

Lemma includesChar_trimStart (c : ascii) (s : string) :
  includesChar c s = false -> includesChar c (trimStart s) = false.
Proof.
  induction s as [|d s IH]; [trivial|]. intros H.
  simpl trimStart. destruct (isWhiteSpace d); [|exact H].
  apply IH. now apply includesChar_cons_false in H.
Qed.

Lemma includesChar_trimEnd (c : ascii) (s : string) :
  includesChar c s = false -> includesChar c (trimEnd s) = false.
Proof.
  induction s as [|d s IH]; [trivial|]. intros H.
  apply includesChar_cons_false in H as [Hd Hs].
  specialize (IH Hs). rewrite Ascii.eqb_sym in Hd.
  simpl trimEnd. destruct (trimEnd s) as [|e r].
  - destruct (isWhiteSpace d); [reflexivity|].
    unfold str1. now rewrite includesChar_cons, Hd.
  - now rewrite includesChar_cons, Hd, IH.
Qed.

Lemma cleanCell_trim (s : string) :
  includesChar LF s = false -> cleanCell (trim s).
Proof.
  intros H. split; [apply trim_idem|].
  unfold trim. now apply includesChar_trimEnd, includesChar_trimStart.
Qed.

Lemma cleanCell_empty : cleanCell EmptyString.
Proof. split; reflexivity. Qed.

Lemma scan_clean_bounded (n : nat) :
  forall (line : string) (inQuotes : bool) (cur : string)
         (res : list string),
    String.length line <= n ->
    includesChar LF line = false -> includesChar LF cur = false ->
    Forall cleanCell res ->
    Forall cleanCell (scan line inQuotes cur res).
Proof.
  induction n as [|n IH]; intros line inQuotes cur res Hlen Hline Hcur Hres.
  - destruct line; [|simpl in Hlen; lia].
    simpl. apply Forall_app. split; [exact Hres|].
    apply Forall_singleton. now apply cleanCell_trim.
  - destruct line as [|c line].
    + simpl. apply Forall_app. split; [exact Hres|].
      apply Forall_singleton. now apply cleanCell_trim.
    + apply includesChar_cons_false in Hline as [Hc Hline].
      simpl in Hlen.
      assert (Hsnoc : forall d, Ascii.eqb d LF = false ->
                includesChar LF (cur +:+ str1 d) = false).
      { intros d Hd. rewrite includesChar_app, Hcur. unfold str1.
        now rewrite includesChar_cons, Ascii.eqb_sym, Hd. }
      simpl scan. destruct (Ascii.eqb c dquote) eqn:Eq.
      * destruct line as [|next line'].
        -- apply IH; [simpl; lia | reflexivity | exact Hcur | exact Hres].
        -- destruct (inQuotes && Ascii.eqb next dquote).
           ++ apply includesChar_cons_false in Hline as [_ Hline'].
              apply IH; [simpl in *; lia | exact Hline' | | exact Hres].
              apply Hsnoc. reflexivity.
           ++ apply IH; [simpl in *; lia | exact Hline | exact Hcur
                         | exact Hres].
      * destruct (Ascii.eqb c comma && negb inQuotes).
        -- apply IH; [lia | exact Hline | reflexivity |].
           apply Forall_app. split; [exact Hres|].
           apply Forall_singleton. now apply cleanCell_trim.
        -- apply IH; [lia | exact Hline | now apply Hsnoc | exact Hres].
Qed.

Lemma parseCSVLine_clean (line : string) :
  includesChar LF line = false -> Forall cleanCell (parseCSVLine line).
Proof.
  intros H. unfold parseCSVLine.
  apply (scan_clean_bounded (String.length line)); auto.
Qed.

Lemma splitLF_lines (s : string) :
  Forall (fun l => includesChar LF l = false) (splitLF s).
Proof.
  induction s as [|c s IH]; [now repeat constructor|].
  rewrite splitLF_cons. destruct (Ascii.eqb c LF) eqn:E.
  - constructor; [reflexivity | exact IH].
  - destruct (splitLF s) as [|l ls].
    + constructor; [|constructor]. unfold str1.
      now rewrite includesChar_cons, Ascii.eqb_sym, E.
    + apply Forall_cons in IH as [Hl Hls]. constructor; [|exact Hls].
      now rewrite includesChar_cons, Ascii.eqb_sym, E.
Qed.

Lemma fillRow_clean (hs : list string) :
  forall (index : nat) (cells : list string) (acc : Row) (h v : string),
    Forall cleanCell cells ->
    (forall k w, JSObject.getOwn k acc = Some w -> cleanCell w) ->
    JSObject.getOwn h (fillRow hs index cells acc) = Some v -> cleanCell v.
Proof.
  induction hs as [|x hs IH]; intros index cells acc h v Hcells Hacc;
    simpl; [apply Hacc|].
  apply IH; [exact Hcells|]. intros k w Hk.
  apply getOwn_set_cases in Hk as [[-> ->]|Hk]; [|now apply (Hacc k)].
  destruct (cells !! index) as [cell|] eqn:E; simpl.
  - apply (proj1 (Forall_forall _ _) Hcells cell).
    now apply list_elem_of_lookup_2 in E.
  - apply cleanCell_empty.
Qed.

End CellFacts.

Section CellClaims.
Import LineSpec.

(** X6: in a parsed document every header and every cell is free of
    surrounding white space and holds no line feed. *)
Theorem parsed_cells_are_clean (csvText : string) (p : Parsed) :
  parseCSVText csvText = Return p ->
  Forall cleanCell (Tokenizer.headers p)
  /\ forall r h v, r ∈ data p -> JSObject.getOwn h r = Some v -> cleanCell v.
Proof.
  intros Hp. pose proof (splitLF_lines (trim csvText)) as Hlines. split.
  - unfold parseCSVText in Hp.
    destruct (splitLF (trim csvText)) as [|first rest]; [discriminate|].
    injection Hp as <-. simpl.
    apply Forall_cons in Hlines as [Hfirst _].
    now apply parseCSVLine_clean.
  - intros r h v Hr Hv.
    destruct (elem_data _ _ _ Hp Hr) as (l & Hl & _ & ->).
    eapply fillRow_clean; [| |exact Hv].
    + apply parseCSVLine_clean.
      now apply (proj1 (Forall_forall _ _) Hlines l).
    + intros k w Hk. discriminate Hk.
Qed.

Lemma parsed_cells_are_clean_witness :
  Forall cleanCell ["a"; "b"; "a"]
  /\ forall r h v,
       r ∈ [[("a", "3"); ("b", "2")];
            [("a", EmptyString); ("b", EmptyString)]] ->
       JSObject.getOwn h r = Some v -> cleanCell v.
Proof.
  apply (parsed_cells_are_clean repeatedHeaderText
           {| Tokenizer.headers := ["a"; "b"; "a"];
              data := [[("a", "3"); ("b", "2")];
                       [("a", EmptyString); ("b", EmptyString)]] |}).
  reflexivity.
Defined.

End CellClaims.

(** ** Scores and suggestions *)

Section ScoreFacts.
Import ScorerSpec.

Lemma Math_max_ge_l (a b : Q) : (a <= Math_max a b)%Q.
Proof.
  unfold Math_max. destruct (Qle_bool a b) eqn:E; [|apply Qle_refl].
  now apply Qle_bool_iff.
Qed.

Lemma synonyms_ge (sfN csvN : string) (table : list (string * list string))
    (s : Q) :
  (s <= foldl
          (fun score '(sfPattern, csvPatterns) =>
             if includes sfPattern sfN
                && existsb (fun csvPattern => includes csvPattern csvN)
                     csvPatterns
             then Math_max score (9 # 10) else score)
          s table)%Q.
Proof.
  induction table as [|[sfPattern csvPatterns] l IH] in s |- *; simpl;
    [apply Qle_refl|].
  eapply Qle_trans; [|apply IH].
  destruct (_ && _); [apply Math_max_ge_l | apply Qle_refl].
Qed.

Lemma includes_empty (s : string) : includes EmptyString s = true.
Proof. now destruct s. Qed.

Lemma score_of_empty_header (csvField : string) (sfField : TargetField) :
  normalizeFieldName csvField = EmptyString ->
  (8 # 10 <= calculateFieldMatchScore csvField sfField)%Q.
Proof.
  intros Hn. unfold calculateFieldMatchScore. rewrite Hn.
  destruct (_ || _); [discriminate|].
  eapply Qle_trans; [|apply synonyms_ge].
  rewrite !includes_empty, !orb_true_r. vm_compute. discriminate.
Qed.

Lemma stripTrailingId_chars (p : ascii -> bool) (s : string) :
  allChars p s = true -> allChars p (stripTrailingId s) = true.
Proof.
  induction s as [|c s IH]; [trivial|]. intros H.
  change (allChars p (String c s)) with (p c && allChars p s) in H.
  apply andb_true_iff in H as [Hc Hs].
  change (stripTrailingId (String c s))
    with (if String.eqb (String c s) "id" then EmptyString
          else String c (stripTrailingId s)).
  destruct (String.eqb (String c s) "id"); [reflexivity|].
  change (p c && allChars p (stripTrailingId s) = true).
  now rewrite Hc, IH.
Qed.

End ScoreFacts.

Section ScoreClaims.
Import ScorerSpec.

(** X7: a match score is one of 0, 0.7, 0.8, 0.9 and 1; in particular it
    lies between 0 and 1. *)
Theorem score_is_one_of_five (csvField : string) (sfField : TargetField) :
  (0 <= calculateFieldMatchScore csvField sfField)%Q
  /\ (calculateFieldMatchScore csvField sfField <= 1)%Q
  /\ (calculateFieldMatchScore csvField sfField = 1%Q
      \/ partialScore (calculateFieldMatchScore csvField sfField)).
Proof.
  destruct (score_cases csvField sfField) as [[_ H]|[_ H]].
  - rewrite H. repeat split; try discriminate. now left.
  - split; [|split; [|now right]];
      destruct H as [-> | [-> | [-> | ->]]]; discriminate.
Qed.

(** X8: a normalized name holds nothing but the letters a to z and the
    digits. *)
Theorem normalized_name_is_lower_alphanumeric (fieldName : string) :
  allChars (fun c => isLowerAlpha c || isDigit c)
    (normalizeFieldName fieldName) = true.
Proof.
  unfold normalizeFieldName. apply stripTrailingId_chars.
  apply allChars_filterChars.
Qed.

(** X9: whatever is suggested for a header is the name of a field of the
    list that scores above 0.6 for it, and the header is one of the list:
    the engine never invents a field nor a header. *)
Theorem suggestion_names_a_listed_field (csvHeaders : list string)
    (fields : list TargetField) (csvHeader n : string) :
  JSObject.getOwn csvHeader (generateMappingSuggestions csvHeaders fields)
  = Some n ->
  csvHeader ∈ csvHeaders
  /\ exists f, f ∈ fields /\ name f = n
               /\ (6 # 10 < engineScore csvHeader f)%Q.
Proof.
  destruct (String.eqb_spec csvHeader JSObject.protoKey) as [->|Hp];
    [now rewrite getOwn_generateMappingSuggestions_proto|].
  rewrite getOwn_generateMappingSuggestions by exact Hp.
  destruct (decide (csvHeader ∈ csvHeaders)) as [Hin|]; [|discriminate].
  unfold suggestionFor.
  pose proof (findBest_bestOf (normalizeFieldName csvHeader) fields) as Hinv.
  destruct (findBest (normalizeFieldName csvHeader) fields) as [[f|] s];
    [|discriminate].
  unfold bestOf in Hinv. simpl in Hinv.
  destruct Hinv as (-> & _ & i & Hi & _ & _).
  destruct (gtb _ (6 # 10)) eqn:G; [|discriminate].
  intros [= <-]. split; [exact Hin|]. exists f.
  split; [now apply list_elem_of_lookup_2 in Hi|].
  split; [reflexivity|]. now apply gtb_lt in G.
Qed.

Lemma suggestion_names_a_listed_field_witness :
  "Email Address" ∈ ["Email Address"; "Notes"]
  /\ exists f, f ∈ [accountField; emailField] /\ name f = "Email"
               /\ (6 # 10 < engineScore "Email Address" f)%Q.
Proof.
  apply (suggestion_names_a_listed_field ["Email Address"; "Notes"]
           [accountField; emailField] "Email Address" "Email").
  reflexivity.
Defined.

(** X10: a header that normalizes to the empty string (no letter or digit
    in it, or just [Id]) scores 0.8 or more against every field, so it is
    given a suggestion as soon as the schema has a field. *)
Theorem empty_header_is_always_mapped (csvHeaders : list string)
    (fields : list TargetField) (csvHeader : string) :
  csvHeader ∈ csvHeaders -> fields <> [] ->
  normalizeFieldName (normalizeFieldName csvHeader) = EmptyString ->
  (forall f, (8 # 10 <= engineScore csvHeader f)%Q)
  /\ exists f, f ∈ fields
       /\ JSObject.getOwn csvHeader
            (generateMappingSuggestions csvHeaders fields)
          = Some (name f).
Proof.
  intros Hin Hne Hempty.
  assert (Hall : forall f, (8 # 10 <= engineScore csvHeader f)%Q).
  { intros f. now apply score_of_empty_header. }
  split; [exact Hall|].
  assert (Hp : csvHeader <> JSObject.protoKey).
  { intros ->. vm_compute in Hempty. discriminate Hempty. }
  rewrite getOwn_generateMappingSuggestions by exact Hp.
  rewrite decide_True by exact Hin.
  unfold suggestionFor.
  pose proof (findBest_bestOf (normalizeFieldName csvHeader) fields) as Hinv.
  destruct (findBest (normalizeFieldName csvHeader) fields) as [[f|] s];
    unfold bestOf in Hinv; simpl in Hinv.
  - destruct Hinv as (-> & _ & i & Hi & _ & _).
    exists f. split; [now apply list_elem_of_lookup_2 in Hi|].
    replace (gtb _ (6 # 10)) with true; [reflexivity|].
    symmetry. apply gtb_lt.
    eapply Qlt_le_trans; [|apply (Hall f)]. reflexivity.
  - destruct Hinv as [_ Hle]. destruct fields as [|g fields];
      [contradiction|]. exfalso.
    specialize (Hle g (list_elem_of_here _ _)).
    pose proof (Hall g) as Hg. unfold engineScore in Hg.
    apply (Qle_not_lt _ _ (Qle_trans _ _ _ Hg Hle)). reflexivity.
Qed.

Lemma empty_header_is_always_mapped_witness :
  (forall f, (8 # 10 <= engineScore "ID" f)%Q)
  /\ exists f, f ∈ [accountField; emailField]
       /\ JSObject.getOwn "ID"
            (generateMappingSuggestions ["Name"; "ID"]
               [accountField; emailField])
          = Some (name f).
Proof.
  apply (empty_header_is_always_mapped ["Name"; "ID"]
           [accountField; emailField] "ID").
  - apply list_elem_of_further, list_elem_of_here.
  - discriminate.
  - reflexivity.
Defined.

End ScoreClaims.

(** ** Normalization of cell values *)

Section FormatFacts.
Import FormatSpec.

Lemma formatValue_stages (value : string) :
  formatValue value = formatTrimmed (trim value).
Proof. reflexivity. Qed.

Lemma lowerChar_idem (c : ascii) : lowerChar (lowerChar c) = lowerChar c.
Proof. destruct c as [[] [] [] [] [] [] [] []]; reflexivity. Qed.

Lemma toLowerCase_idem (s : string) :
  toLowerCase (toLowerCase s) = toLowerCase s.
Proof.
  induction s as [|c s IH]; simpl; [reflexivity|].
  now rewrite lowerChar_idem, IH.
Qed.

Lemma lowerChar_at (c : ascii) :
  Ascii.eqb "@"%char (lowerChar c) = Ascii.eqb "@"%char c.
Proof. destruct c as [[] [] [] [] [] [] [] []]; reflexivity. Qed.

Lemma includes_at_lower (s : string) :
  includesChar "@"%char (toLowerCase s) = includesChar "@"%char s.
Proof.
  induction s as [|c s IH]; [reflexivity|].
  change (toLowerCase (String c s))
    with (String (lowerChar c) (toLowerCase s)).
  now rewrite !includesChar_cons, lowerChar_at, IH.
Qed.

Lemma length_toLowerCase (s : string) :
  String.length (toLowerCase s) = String.length s.
Proof. induction s as [|c s IH]; simpl; [reflexivity | now rewrite IH]. Qed.

Lemma separator_excludes_at (s : string) :
  includesChar "@"%char s = true -> allChars separatorChar s = false.
Proof.
  induction s as [|c s IH]; [discriminate|].
  rewrite includesChar_cons. intros [Hc|Hs]%orb_true_iff.
  - apply Ascii.eqb_eq in Hc as <-. reflexivity.
  - change (separatorChar c && allChars separatorChar s = false).
    rewrite (IH Hs). apply andb_false_r.
Qed.

Lemma booleanWords_cases (z : string) :
  arrIncludes z booleanWords = true ->
  z = "true" \/ z = "false" \/ z = "yes" \/ z = "no" \/ z = "1" \/ z = "0".
Proof.
  intros H. apply arrIncludes_elem in H. unfold booleanWords in H.
  repeat (apply elem_of_cons in H as [H|H]; [auto 10|]).
  now apply elem_of_nil in H.
Qed.

(** A boolean word has no [@] and fewer than 10 characters. *)
Lemma booleanWords_shape (z : string) :
  arrIncludes z booleanWords = true ->
  includesChar "@"%char z = false /\ String.length z < 10.
Proof.
  intros H. apply booleanWords_cases in H.
  destruct H as [-> | [-> | [-> | [-> | [-> | ->]]]]]; split;
    (reflexivity || (simpl; lia)).
Qed.

Lemma booleanMap_total (z : string) :
  arrIncludes z booleanWords = true ->
  JSObject.getOwn z booleanMap
  = Some (if arrIncludes z ["true"; "yes"; "1"] then "true" else "false").
Proof.
  intros H. apply booleanWords_cases in H.
  destruct H as [-> | [-> | [-> | [-> | [-> | ->]]]]]; reflexivity.
Qed.

Lemma digitOrPlus_lower (c : ascii) :
  digitOrPlus c = true -> lowerChar c = c.
Proof. destruct c as [[] [] [] [] [] [] [] []]; vm_compute; congruence. Qed.

Lemma digitOrPlus_separator (c : ascii) :
  digitOrPlus c = true -> separatorChar c = true.
Proof. destruct c as [[] [] [] [] [] [] [] []]; vm_compute; congruence. Qed.

Lemma digitOrPlus_not_at (c : ascii) :
  digitOrPlus c = true -> Ascii.eqb "@"%char c = false.
Proof. destruct c as [[] [] [] [] [] [] [] []]; vm_compute; congruence. Qed.

Lemma toLowerCase_fixed (s : string) :
  allChars digitOrPlus s = true -> toLowerCase s = s.
Proof.
  induction s as [|c s IH]; [reflexivity|].
  intros [Hc Hs]%andb_true_iff. simpl.
  now rewrite (digitOrPlus_lower c Hc), (IH Hs).
Qed.

Lemma filterChars_fixed (p : ascii -> bool) (s : string) :
  allChars p s = true -> filterChars p s = s.
Proof.
  induction s as [|c s IH]; [reflexivity|].
  intros [Hc Hs]%andb_true_iff. simpl. now rewrite Hc, (IH Hs).
Qed.

Lemma no_at_of_digits (s : string) :
  allChars digitOrPlus s = true -> includesChar "@"%char s = false.
Proof.
  induction s as [|c s IH]; [reflexivity|].
  intros [Hc Hs]%andb_true_iff.
  now rewrite includesChar_cons, (digitOrPlus_not_at c Hc), (IH Hs).
Qed.

Lemma stripPhone_digits (t : string) :
  allChars digitOrPlus t = true -> stripPhone t = t.
Proof.
  intros H. unfold stripPhone. destruct (phoneLike t); [|reflexivity].
  now apply filterChars_fixed.
Qed.

Lemma formatTrimmed_boolean (b : string) :
  b = "true" \/ b = "false" -> formatTrimmed b = b.
Proof. intros [->| ->]; reflexivity. Qed.

Lemma canonicalBoolean_result (x : string) :
  arrIncludes (toLowerCase x) booleanWords = true ->
  canonicalBoolean x = "true" \/ canonicalBoolean x = "false".
Proof.
  intros H. unfold canonicalBoolean.
  rewrite H, ownOr_get, (booleanMap_total _ H).
  destruct (arrIncludes (toLowerCase x) ["true"; "yes"; "1"]);
    [left | right]; reflexivity.
Qed.

Lemma formatTrimmed_idem (x : string) :
  formatTrimmed (formatTrimmed x) = formatTrimmed x.
Proof.
  destruct (includesChar "@"%char x) eqn:Hat.
  - (* lower-cased, and nothing else applies *)
    set (y := toLowerCase x).
    assert (Hy : includesChar "@"%char y = true)
      by (subst y; now rewrite includes_at_lower).
    assert (Hs : stripPhone y = y).
    { unfold stripPhone, phoneLike.
      now rewrite (separator_excludes_at y Hy), andb_false_r. }
    assert (Hc : canonicalBoolean y = y).
    { unfold canonicalBoolean.
      destruct (arrIncludes (toLowerCase y) booleanWords) eqn:E;
        [|reflexivity].
      apply booleanWords_shape in E as [E _].
      rewrite includes_at_lower in E. congruence. }
    assert (Hx : formatTrimmed x = y).
    { unfold formatTrimmed, lowerEmail. rewrite Hat. fold y.
      now rewrite Hs, Hc. }
    rewrite Hx. unfold formatTrimmed, lowerEmail. rewrite Hy.
    subst y. rewrite toLowerCase_idem. fold (toLowerCase x).
    now rewrite Hs, Hc.
  - assert (Hx : formatTrimmed x = canonicalBoolean (stripPhone x)).
    { unfold formatTrimmed, lowerEmail. now rewrite Hat. }
    rewrite Hx. unfold stripPhone. destruct (phoneLike x) eqn:Hp.
    + set (t := filterChars digitOrPlus x).
      assert (Ht : allChars digitOrPlus t = true)
        by apply allChars_filterChars.
      destruct (arrIncludes (toLowerCase t) booleanWords) eqn:E.
      * apply formatTrimmed_boolean. now apply canonicalBoolean_result.
      * assert (Hc : canonicalBoolean t = t)
          by (unfold canonicalBoolean; now rewrite E).
        rewrite Hc. unfold formatTrimmed, lowerEmail.
        rewrite (no_at_of_digits t Ht), (stripPhone_digits t Ht).
        exact Hc.
    + destruct (arrIncludes (toLowerCase x) booleanWords) eqn:E.
      * apply formatTrimmed_boolean. now apply canonicalBoolean_result.
      * assert (Hc : canonicalBoolean x = x)
          by (unfold canonicalBoolean; now rewrite E).
        rewrite Hc. unfold formatTrimmed, lowerEmail, stripPhone.
        now rewrite Hat, Hp.
Qed.

End FormatFacts.

Section FormatClaims.
Import FormatSpec.

(** X11: normalizing a cell value twice gives the same as normalizing it
    once. *)
Theorem formatValue_is_idempotent (value : string) :
  formatValue (formatValue value) = formatValue value.
Proof.
  rewrite (formatValue_stages (formatValue value)), formatValue_trimmed.
  rewrite formatValue_stages. apply formatTrimmed_idem.
Qed.

(** X12: a value that is, once trimmed and lower-cased, one of [true],
    [false], [yes], [no], [1] and [0] is written as [true] (for [true],
    [yes] and [1]) or [false]. *)
Theorem boolean_words_are_canonicalized (value : string) :
  arrIncludes (toLowerCase (trim value)) booleanWords = true ->
  formatValue value
  = if arrIncludes (toLowerCase (trim value)) ["true"; "yes"; "1"]
    then "true" else "false".
Proof.
  intros H. rewrite formatValue_stages.
  destruct (booleanWords_shape _ H) as [Hat Hlen].
  rewrite includes_at_lower in Hat. rewrite length_toLowerCase in Hlen.
  unfold formatTrimmed, lowerEmail, stripPhone, phoneLike. rewrite Hat.
  replace (10 <=? String.length (trim value)) with false
    by (symmetry; apply Nat.leb_gt; exact Hlen).
  rewrite andb_false_r. unfold canonicalBoolean.
  now rewrite H, ownOr_get, (booleanMap_total _ H).
Qed.

Lemma boolean_words_are_canonicalized_witness :
  formatValue " Yes "
  = if arrIncludes (toLowerCase (trim " Yes ")) ["true"; "yes"; "1"]
    then "true" else "false".
Proof.
  apply (boolean_words_are_canonicalized " Yes "). reflexivity.
Defined.

End FormatClaims.

(** ** The type inferrer beyond its sample *)

Section ShapeFacts.
Import ShapeSpec FormatSpec.

Lemma allChars_app (p : ascii -> bool) (s t : string) :
  allChars p (s +:+ t) = allChars p s && allChars p t.
Proof.
  induction s as [|c s IH]; [reflexivity|].
  rewrite append_cons. simpl. now rewrite IH, andb_assoc.
Qed.

Lemma dotThenMore_split (s : string) :
  dotThenMore s = true <->
  exists b c, s = b +:+ String "."%char c /\ c <> EmptyString.
Proof.
  induction s as [|d s IH].
  - split; [discriminate|]. intros (b & c & H & _). now destruct b.
  - simpl dotThenMore. rewrite orb_true_iff, IH, andb_true_iff. split.
    + intros [[Hd Hs]|(b & c & -> & Hc)].
      * apply Ascii.eqb_eq in Hd as ->. exists EmptyString, s.
        split; [reflexivity|]. now destruct s.
      * exists (String d b), c. now split.
    + intros (b & c & Heq & Hc). destruct b as [|e b].
      * rewrite append_nil_l in Heq. injection Heq as -> ->. left.
        split; [apply Ascii.eqb_refl | now destruct c].
      * rewrite append_cons in Heq. injection Heq as -> ->. right. eauto.
Qed.

Lemma domainShape_split (r : string) :
  domainShape r = true <->
  exists b c, r = b +:+ String "."%char c /\ emailWord b /\ emailWord c.
Proof.
  unfold domainShape, emailWord. rewrite andb_true_iff. split.
  - intros [Hall Hdot]. destruct r as [|c0 r0]; [discriminate|].
    apply dotThenMore_split in Hdot as (b & c & -> & Hc).
    exists (String c0 b), c. split; [reflexivity|].
    change (String c0 (b +:+ String "."%char c))
      with (String c0 b +:+ String "."%char c) in Hall.
    rewrite allChars_app in Hall. apply andb_true_iff in Hall as [Hb Hc'].
    change (allChars notSpaceOrAt c = true) in Hc'.
    repeat split; try assumption; discriminate.
  - intros (b & c & -> & [Hb Hb'] & [Hc Hc']). split.
    + rewrite allChars_app, Hb'. simpl. now rewrite Hc'.
    + destruct b as [|c0 b]; [contradiction|]. rewrite append_cons.
      apply dotThenMore_split. eauto.
Qed.

Lemma notSpaceOrAt_iff (c : ascii) :
  notSpaceOrAt c = true
  <-> isWhiteSpace c = false /\ Ascii.eqb c "@"%char = false.
Proof.
  unfold notSpaceOrAt. rewrite andb_true_iff, !negb_true_iff. tauto.
Qed.

Lemma emailFrom_split (s : string) :
  forall seen : bool,
    emailFrom seen s = true <->
    exists a r,
      s = a +:+ String "@"%char r /\ allChars notSpaceOrAt a = true
      /\ (seen = true \/ a <> EmptyString) /\ domainShape r = true.
Proof.
  induction s as [|c s IH]; intros seen.
  - split; [discriminate|]. intros (a & r & H & _). now destruct a.
  - simpl emailFrom. destruct (Ascii.eqb c "@"%char) eqn:E.
    + apply Ascii.eqb_eq in E as ->. rewrite andb_true_iff. split.
      * intros [Hseen Hdom]. exists EmptyString, s.
        repeat split; try assumption. now left.
      * intros (a & r & Heq & Ha & Hne & Hdom). destruct a as [|d a].
        -- rewrite append_nil_l in Heq. injection Heq as ->.
           destruct Hne as [->|Hne]; [now split | contradiction].
        -- rewrite append_cons in Heq. injection Heq as <- _.
           simpl in Ha. discriminate.
    + rewrite andb_true_iff, negb_true_iff, IH. split.
      * intros [Hws (a & r & -> & Ha & _ & Hdom)].
        exists (String c a), r. split; [reflexivity|].
        split; [|split; [right; discriminate | exact Hdom]].
        simpl. rewrite Ha, andb_true_r. apply notSpaceOrAt_iff. now split.
      * intros (a & r & Heq & Ha & Hne & Hdom). destruct a as [|d a].
        -- rewrite append_nil_l in Heq. injection Heq as -> _.
           rewrite Ascii.eqb_refl in E. discriminate.
        -- rewrite append_cons in Heq. injection Heq as <- ->.
           simpl in Ha. apply andb_true_iff in Ha as [Hd Ha].
           apply notSpaceOrAt_iff in Hd as [Hws _].
           split; [exact Hws|]. exists a, r.
           repeat split; try assumption. now left.
Qed.

Lemma emailFrom_has_at (s : string) (seen : bool) :
  emailFrom seen s = true -> includesChar "@"%char s = true.
Proof.
  intros (a & r & -> & _)%emailFrom_split.
  rewrite includesChar_app, includesChar_cons, Ascii.eqb_refl.
  apply orb_true_r.
Qed.

Lemma startsWith_length (p s : string) :
  startsWith p s = true -> String.length p <= String.length s.
Proof.
  revert s. induction p as [|a p IH]; intros s; simpl; [lia|].
  destruct s as [|b s]; [discriminate|].
  intros [_ H]%andb_true_iff. apply IH in H. simpl. lia.
Qed.

Lemma booleanWords_short (z : string) :
  arrIncludes z booleanWords = true -> String.length z <= 5.
Proof.
  intros H. apply booleanWords_cases in H.
  destruct H as [-> | [-> | [-> | [-> | [-> | ->]]]]]; simpl; lia.
Qed.

(** A boolean word looks like no e-mail address, phone number or URL. *)
Lemma boolean_word_shapes (val : string) :
  arrIncludes (toLowerCase val) booleanWords = true ->
  isEmailShape val = false /\ isPhoneShape val = false
  /\ isUrlShape val = false.
Proof.
  intros H. pose proof (booleanWords_short _ H) as Hlen.
  rewrite length_toLowerCase in Hlen.
  destruct (booleanWords_shape _ H) as [Hat _].
  rewrite includes_at_lower in Hat. split; [|split].
  - destruct (isEmailShape val) eqn:E; [|reflexivity].
    apply emailFrom_has_at in E. congruence.
  - unfold isPhoneShape.
    replace (10 <=? String.length val) with false
      by (symmetry; apply Nat.leb_gt; lia).
    apply andb_false_r.
  - unfold isUrlShape. apply orb_false_iff. split.
    + destruct (startsWith "http://" val) eqn:E; [|reflexivity].
      apply startsWith_length in E. simpl in E. lia.
    + destruct (startsWith "https://" val) eqn:E; [|reflexivity].
      apply startsWith_length in E. simpl in E. lia.
Qed.

Lemma existsb_false_forall {A : Type} (p : A -> bool) (l : list A) :
  (forall a, a ∈ l -> p a = false) -> existsb p l = false.
Proof.
  induction l as [|a l IH]; intros H; [reflexivity|]. simpl.
  rewrite (H a) by apply list_elem_of_here. apply IH.
  intros b Hb. apply H. now apply list_elem_of_further.
Qed.

Lemma max_length_ge (v : string) (l : list string) :
  v ∈ l -> String.length v <= foldr Nat.max 0 (map String.length l).
Proof.
  induction l as [|w l IH]; intros Hin; [now apply elem_of_nil in Hin|].
  simpl. apply elem_of_cons in Hin as [->|Hin]; [lia|].
  specialize (IH Hin). lia.
Qed.

End ShapeFacts.

Section InferrerMoreClaims.
Import ShapeSpec FormatSpec InferrerSpec.

Variable isNumeric : string -> bool.
Variable dateParses : string -> bool.

(** X13: the e-mail test accepts exactly the texts of the form
    [local@domain.tld], where the three parts are non-empty and hold
    neither white space nor [@] (dots are allowed in each). *)
Theorem email_shape_is_local_at_domain_tld (s : string) :
  isEmailShape s = true <-> emailForm s.
Proof.
  unfold isEmailShape, emailForm. rewrite emailFrom_split. split.
  - intros (a & r & -> & Ha & [Hs|Hne] & Hdom); [discriminate|].
    apply domainShape_split in Hdom as (b & c & -> & Hb & Hc).
    exists a, b, c. split; [reflexivity|]. split; [now split|]. now split.
  - intros (a & b & c & -> & [Hne Ha] & Hb & Hc).
    exists a, (b +:+ String "."%char c).
    split; [reflexivity|]. split; [exact Ha|]. split; [now right|].
    apply domainShape_split. eauto.
Qed.

(** X14: a column whose sampled values are all boolean words, in any
    letter case, is typed Checkbox, also when every value is [0] or [1]:
    the number test is not reached. *)
Theorem boolean_column_is_checkbox (rows : list Row) (csvHeader : string)
    (samples : list string) :
  sampleValues rows csvHeader = Return samples ->
  samples <> [] ->
  Forall (fun val => arrIncludes (toLowerCase val) booleanWords = true)
    samples ->
  determineFieldType isNumeric dateParses (Some rows) csvHeader
  = Return (plain "Checkbox" None).
Proof.
  intros Hs Hne Hall. unfold determineFieldType.
  destruct rows as [|row rows]; [now injection Hs as <-|].
  change (Nat.eqb (List.length (row :: rows)) 0) with false. cbv iota.
  rewrite Hs. cbn [bind].
  destruct samples as [|s rest]; [contradiction|].
  change (Nat.eqb (List.length (s :: rest)) 0) with false. cbv iota.
  pose proof (proj1 (Forall_forall _ _) Hall) as Hb.
  unfold inferFromSamples.
  rewrite (existsb_false_forall isEmailShape)
    by (intros v Hv; now apply boolean_word_shapes, Hb).
  rewrite (existsb_false_forall isPhoneShape)
    by (intros v Hv; now apply boolean_word_shapes, Hb).
  rewrite (existsb_false_forall isUrlShape)
    by (intros v Hv; now apply boolean_word_shapes, Hb).
  replace (forallb _ _) with true; [reflexivity|].
  symmetry. apply forallb_forall. intros v Hv.
  apply (Hb v). now apply list_elem_of_In.
Qed.

(** X15: rows after the 20th have no part in the inferred type. *)
Theorem rows_after_the_20th_are_ignored (rows more : list Row)
    (csvHeader : string) :
  20 <= List.length rows ->
  determineFieldType isNumeric dateParses (Some (rows ++ more)) csvHeader
  = determineFieldType isNumeric dateParses (Some rows) csvHeader.
Proof.
  intros Hlen. unfold determineFieldType.
  assert (Hs : sampleValues (rows ++ more) csvHeader
               = sampleValues rows csvHeader).
  { unfold sampleValues. now rewrite take_app_le by exact Hlen. }
  rewrite Hs. destruct rows as [|row rows]; [simpl in Hlen; lia|].
  reflexivity.
Qed.

Lemma inferred_length (samples : list string) (len : N) :
  length (inferFromSamples isNumeric dateParses samples) = Some len ->
  (type (inferFromSamples isNumeric dateParses samples) = "Text"
   \/ type (inferFromSamples isNumeric dateParses samples) = "LongTextArea")
  /\ forall v, v ∈ samples ->
       (N.of_nat (String.length v) <= 131072)%N ->
       (N.of_nat (String.length v) <= len)%N.
Proof.
  unfold inferFromSamples.
  repeat (match goal with
          | |- context [if ?b then _ else _] => destruct b eqn:?
          end; cbn [plain length type]; try discriminate).
  all: intros [= <-].
  all: repeat match goal with
       | H : (_ <? _)%N = true |- _ => apply N.ltb_lt in H
       | H : (_ <? _)%N = false |- _ => apply N.ltb_ge in H
       | H : (_ <=? _)%N = true |- _ => apply N.leb_le in H
       | H : (_ <=? _)%N = false |- _ => apply N.leb_gt in H
       end.
  all: (split; [tauto|]; intros v Hv Hcap;
        pose proof (max_length_ge v _ Hv); lia).
Qed.

(** X16: whenever a length is proposed, on the default paths too, the type
    is Text or LongTextArea; and the length is never shorter than a sampled
    value, unless that value is longer than 131072 characters. *)
Theorem proposed_length_fits_the_samples (csvData : option (list Row))
    (csvHeader : string) (fieldType : FieldType) (len : N) :
  determineFieldType isNumeric dateParses csvData csvHeader
  = Return fieldType ->
  length fieldType = Some len ->
  (type fieldType = "Text" \/ type fieldType = "LongTextArea")
  /\ forall rows samples v,
       csvData = Some rows ->
       sampleValues rows csvHeader = Return samples ->
       v ∈ samples ->
       (N.of_nat (String.length v) <= 131072)%N ->
       (N.of_nat (String.length v) <= len)%N.
Proof.
  unfold determineFieldType.
  destruct csvData as [rows|].
  2:{ intros [= <-] _. split; [now left|]. discriminate. }
  destruct rows as [|row rows].
  { intros [= <-] _. split; [now left|].
    intros rows samples v [= <-] [= <-] Hv. now apply elem_of_nil in Hv. }
  change (Nat.eqb (List.length (row :: rows)) 0) with false. cbv iota.
  destruct (sampleValues (row :: rows) csvHeader) as [samples|msg] eqn:Hs;
    [|discriminate].
  cbn [bind]. destruct samples as [|s rest].
  { intros [= <-] _. split; [now left|].
    intros rows' samples v [= <-]. rewrite Hs. intros [= <-] Hv.
    now apply elem_of_nil in Hv. }
  change (Nat.eqb (List.length (s :: rest)) 0) with false. cbv iota.
  intros [= <-] Hlen. destruct (inferred_length _ _ Hlen) as [Hty Hfit].
  split; [exact Hty|].
  intros rows' samples v [= <-]. rewrite Hs. intros [= <-]. apply Hfit.
Qed.

End InferrerMoreClaims.

(** The three statements above at sample columns, with a host that reads
    digit strings as numbers and no text as a date. *)

Section InferrerMoreWitnesses.
Import ShapeSpec FormatSpec InferrerSpec.

Lemma boolean_column_is_checkbox_witness :
  determineFieldType digitsOnly noDate (Some yesNoRows) "Active"
  = Return (plain "Checkbox" None).
Proof.
  apply (boolean_column_is_checkbox digitsOnly noDate yesNoRows "Active"
           ["1"; "0"; "Yes"]).
  - reflexivity.
  - discriminate.
  - apply (bool_decide_unpack _). vm_compute. exact I.
Defined.

Lemma rows_after_the_20th_are_ignored_witness :
  determineFieldType digitsOnly noDate
    (Some (replicate 20 [("c", "x")] ++ [[("c", "a@b.c")]])) "c"
  = determineFieldType digitsOnly noDate
      (Some (replicate 20 [("c", "x")])) "c".
Proof.
  apply (rows_after_the_20th_are_ignored digitsOnly noDate
           (replicate 20 [("c", "x")])
           [[("c", "a@b.c")]] "c").
  simpl. lia.
Defined.

Lemma proposed_length_fits_the_samples_witness :
  (type (plain "Text" (Some 80%N)) = "Text"
   \/ type (plain "Text" (Some 80%N)) = "LongTextArea")
  /\ forall rows samples v,
       Some [[("c", "some words")]] = Some rows ->
       sampleValues rows "c" = Return samples ->
       v ∈ samples ->
       (N.of_nat (String.length v) <= 131072)%N ->
       (N.of_nat (String.length v) <= 80)%N.
Proof.
  apply (proposed_length_fits_the_samples digitsOnly noDate
           (Some [[("c", "some words")]]) "c" (plain "Text" (Some 80%N))
           80%N).
  - reflexivity.
  - reflexivity.
Defined.

End InferrerMoreWitnesses.

(** ** Field suggestions *)

Section SuggesterFacts.
Import Suggester SuggesterSpec.

Lemma kept_not_space_is_letter_or_digit (c : ascii) :
  isAlpha c || isDigit c || isWhiteSpace c = true ->
  isWhiteSpace c = false ->
  identChar c = true /\ isUnderscore c = false.
Proof. destruct c as [[] [] [] [] [] [] [] []]; vm_compute; auto. Qed.

Lemma collapseSpaces_shape (s : string) :
  allChars (fun c => isAlpha c || isDigit c || isWhiteSpace c) s = true ->
  forall inRun : bool,
    allChars identChar (collapseSpaces inRun s) = true
    /\ hasDoubleUnderscore (collapseSpaces inRun s) = false
    /\ (inRun = true -> startsUnderscore (collapseSpaces inRun s) = false).
Proof.
  induction s as [|c s IH]; intros Hkeep inRun; [now repeat split|].
  apply andb_true_iff in Hkeep as [Hc Hs]. specialize (IH Hs).
  pose proof (kept_not_space_is_letter_or_digit c Hc) as Hk.
  simpl collapseSpaces. destruct (isWhiteSpace c) eqn:W.
  - destruct inRun.
    + apply IH.
    + destruct (IH true) as (Ha & Hd & Hu). specialize (Hu eq_refl).
      split; [|split; [|discriminate]].
      * simpl. exact Ha.
      * simpl. now rewrite Hu, Hd.
  - destruct (Hk eq_refl) as [Hi Hu].
    destruct (IH false) as (Ha & Hd & _).
    split; [|split].
    + simpl. now rewrite Hi, Ha.
    + simpl. now rewrite Hu, Hd.
    + intros _. exact Hu.
Qed.

Lemma hasDouble_cons (c : ascii) (r : string) :
  hasDoubleUnderscore (String c r)
  = (isUnderscore c && startsUnderscore r) || hasDoubleUnderscore r.
Proof. reflexivity. Qed.

Lemma dropStart_shape (p : ascii -> bool) (s : string) :
  allChars identChar s = true -> hasDoubleUnderscore s = false ->
  allChars identChar (dropStart p s) = true
  /\ hasDoubleUnderscore (dropStart p s) = false.
Proof.
  induction s as [|c s IH]; intros Ha Hd; [now split|].
  simpl dropStart. destruct (p c); [|now split].
  apply andb_true_iff in Ha as [_ Ha].
  rewrite hasDouble_cons in Hd. apply orb_false_iff in Hd as [_ Hd].
  now apply IH.
Qed.

Lemma dropStart_head (s : string) :
  startsUnderscore (dropStart isUnderscore s) = false.
Proof.
  induction s as [|c s IH]; [reflexivity|]. simpl dropStart.
  destruct (isUnderscore c) eqn:E; [exact IH | exact E].
Qed.

Lemma dropEnd_head (p : ascii -> bool) (s : string) :
  startsUnderscore s = false -> startsUnderscore (dropEnd p s) = false.
Proof.
  destruct s as [|c s]; [trivial|]. intros H. simpl in *.
  destruct (dropEnd p s); [|exact H].
  destruct (p c); [reflexivity | exact H].
Qed.

Lemma dropEnd_head_back (p : ascii -> bool) (s : string) :
  startsUnderscore (dropEnd p s) = true -> startsUnderscore s = true.
Proof.
  intros H. destruct (startsUnderscore s) eqn:E; [reflexivity|].
  now rewrite (dropEnd_head p s E) in H.
Qed.

Lemma dropEnd_shape (p : ascii -> bool) (s : string) :
  allChars identChar s = true -> hasDoubleUnderscore s = false ->
  allChars identChar (dropEnd p s) = true
  /\ hasDoubleUnderscore (dropEnd p s) = false.
Proof.
  induction s as [|c s IH]; intros Ha Hd; [now split|].
  apply andb_true_iff in Ha as [Hc Ha].
  rewrite hasDouble_cons in Hd. apply orb_false_iff in Hd as [Hcu Hd].
  destruct (IH Ha Hd) as [Ha' Hd'].
  simpl dropEnd. destruct (dropEnd p s) as [|e r'] eqn:E.
  - destruct (p c); [now split|]. split; simpl.
    + now rewrite Hc.
    + now rewrite andb_false_r.
  - split.
    + simpl. simpl in Ha'. now rewrite Hc, Ha'.
    + rewrite hasDouble_cons, Hd', orb_false_r.
      destruct (isUnderscore c) eqn:Hu; [|reflexivity].
      rewrite andb_true_l in Hcu |- *.
      destruct (startsUnderscore (String e r')) eqn:S; [|reflexivity].
      rewrite <- E in S. apply dropEnd_head_back in S. congruence.
Qed.

Lemma dropEnd_tail (s : string) :
  endsUnderscore (dropEnd isUnderscore s) = false.
Proof.
  induction s as [|c s IH]; [reflexivity|]. simpl dropEnd.
  destruct (dropEnd isUnderscore s) as [|e r'].
  - destruct (isUnderscore c) eqn:E; [reflexivity | exact E].
  - exact IH.
Qed.

Lemma suffix_has_double (s : string) :
  endsWith customSuffix s = true -> hasDoubleUnderscore s = true.
Proof.
  induction s as [|c s IH]; [discriminate|].
  change (endsWith customSuffix (String c s))
    with (String.eqb customSuffix (String c s) || endsWith customSuffix s).
  intros [H|H]%orb_true_iff.
  - apply String.eqb_eq in H as <-. reflexivity.
  - rewrite hasDouble_cons, (IH H). apply orb_true_r.
Qed.

Lemma stripUnderscores_shape (s : string) :
  allChars identChar s = true -> hasDoubleUnderscore s = false ->
  allChars identChar (stripUnderscores s) = true
  /\ hasDoubleUnderscore (stripUnderscores s) = false
  /\ endsUnderscore (stripUnderscores s) = false.
Proof.
  intros Ha Hd. unfold stripUnderscores.
  destruct (dropStart_shape isUnderscore s Ha Hd) as [Ha1 Hd1].
  destruct (dropEnd_shape isUnderscore _ Ha1 Hd1) as [Ha2 Hd2].
  split; [exact Ha2|]. split; [exact Hd2 | apply dropEnd_tail].
Qed.

Lemma letter_is_ident (c : ascii) : isAlpha c = true -> identChar c = true.
Proof. unfold identChar. now intros ->. Qed.

End SuggesterFacts.

Section SuggesterClaims.
Import Suggester SuggesterSpec.

Example developerName_examples :
  developerNameOf "First Name" = "First_Name__c"
  /\ developerNameOf "  2nd  line! " = "X2nd_line__c"
  /\ developerNameOf "e-mail_address" = "emailaddress__c"
  /\ developerNameOf EmptyString = "X__c"
  /\ labelOf "first_name-of x9y" = "First Name Of X9y".
Proof. repeat split; reflexivity. Qed.

(** X17: the developer name derived from any header is a well-formed API
    name followed by the suffix [__c]: it starts with a letter, holds only
    letters, digits and single underscores, and has no underscore just
    before the suffix.  The suffix is always added: the name before it
    never ends in [__c]. *)
Theorem developer_name_is_well_formed (csvHeader : string) :
  exists core,
    developerNameOf csvHeader = core +:+ customSuffix /\ apiCore core.
Proof.
  unfold developerNameOf.
  set (keep := fun c => isAlpha c || isDigit c || isWhiteSpace c).
  destruct (collapseSpaces_shape (filterChars keep csvHeader)
              (allChars_filterChars keep csvHeader) false) as (Ha & Hd & _).
  destruct (stripUnderscores_shape _ Ha Hd) as (Ha1 & Hd1 & He1).
  set (s1 := stripUnderscores
               (collapseSpaces false (filterChars keep csvHeader))) in *.
  set (s2 := if negb (startsWithLetter s1) then String "X"%char s1 else s1).
  assert (Hcore : apiCore s2).
  { subst s2. destruct (startsWithLetter s1) eqn:L; simpl negb; cbv iota.
    - repeat split; assumption.
    - repeat split.
      + simpl. exact Ha1.
      + rewrite hasDouble_cons. exact Hd1.
      + destruct s1; [reflexivity | exact He1]. }
  exists s2. split; [|exact Hcore].
  destruct (endsWith customSuffix s2) eqn:E; [|reflexivity].
  apply suffix_has_double in E. destruct Hcore as (_ & _ & Hd2 & _).
  congruence.
Qed.

End SuggesterClaims.

Section LabelFacts.
Import Suggester SuggesterSpec.

Lemma lower_of_capital (c : ascii) (prevWord : bool) :
  lowerChar (if isWordChar c && negb prevWord then upperChar c else c)
  = lowerChar c.
Proof.
  destruct prevWord; destruct c as [[] [] [] [] [] [] [] []]; reflexivity.
Qed.

Lemma capitalizeWords_lower (s : string) :
  forall prevWord : bool,
    toLowerCase (capitalizeWords prevWord s) = toLowerCase s.
Proof.
  induction s as [|c s IH]; intros prevWord; [reflexivity|].
  simpl. now rewrite lower_of_capital, IH.
Qed.

Lemma capitalizeWords_length (s : string) :
  forall prevWord : bool,
    String.length (capitalizeWords prevWord s) = String.length s.
Proof.
  induction s as [|c s IH]; intros prevWord; [reflexivity|].
  simpl. now rewrite IH.
Qed.

Lemma spaceOut_length (s : string) :
  String.length (spaceOut s) = String.length s.
Proof. induction s as [|c s IH]; simpl; [reflexivity | now rewrite IH]. Qed.

Lemma capital_is_no_separator (c : ascii) (prevWord : bool) :
  let d := if isUnderscore c || Ascii.eqb c "-"%char then " "%char else c in
  let e := if isWordChar d && negb prevWord then upperChar d else d in
  Ascii.eqb underscore e = false /\ Ascii.eqb "-"%char e = false.
Proof.
  destruct prevWord; destruct c as [[] [] [] [] [] [] [] []];
    split; reflexivity.
Qed.

Lemma label_has_no_separator (s : string) :
  forall prevWord : bool,
    includesChar underscore (capitalizeWords prevWord (spaceOut s)) = false
    /\ includesChar "-"%char (capitalizeWords prevWord (spaceOut s)) = false.
Proof.
  induction s as [|c s IH]; intros prevWord; [now split|].
  simpl spaceOut. simpl capitalizeWords. rewrite !includesChar_cons.
  destruct (capital_is_no_separator c prevWord) as [H1 H2].
  cbv zeta in H1, H2. rewrite H1, H2.
  apply IH.
Qed.

End LabelFacts.

Section SuggestionListClaims.
Import Suggester SuggesterSpec.

Variable isNumeric : string -> bool.
Variable dateParses : string -> bool.

(** X18: the label proposed for a header has the length of the header,
    holds no underscore and no hyphen, and differs from the header only by
    these being replaced by spaces and by the case of letters. *)
Theorem label_is_the_header_respelled (csvHeader : string) :
  String.length (labelOf csvHeader) = String.length csvHeader
  /\ includesChar underscore (labelOf csvHeader) = false
  /\ includesChar "-"%char (labelOf csvHeader) = false
  /\ toLowerCase (labelOf csvHeader) = toLowerCase (spaceOut csvHeader).
Proof.
  unfold labelOf. split; [|split; [|split]].
  - now rewrite capitalizeWords_length, spaceOut_length.
  - apply label_has_no_separator.
  - apply label_has_no_separator.
  - apply capitalizeWords_lower.
Qed.

(** The loop of [suggestNewFields] from [acc] on: when every header gets
    its suggestion, the ones that name no schema field are added in order;
    otherwise the first failure ends the loop. *)
Lemma forEachC_fieldStep (csvData : option (list Row))
    (existing : list string) (hs : list string) :
  forall acc : list FieldSuggestion.t,
    match forEachC (fieldStep isNumeric dateParses csvData existing) acc hs
    with
    | Return out =>
        exists ss,
          Forall2 (fun header s =>
                     generateFieldSuggestion isNumeric dateParses csvData
                       header = Return s) hs ss
          /\ out
             = acc ++ List.filter
                        (fun s => negb (arrIncludes
                                          (toLowerCase
                                             (FieldSuggestion.developerName s))
                                          existing)) ss
    | Throw message =>
        exists header,
          header ∈ hs
          /\ generateFieldSuggestion isNumeric dateParses csvData header
             = Throw message
    end.
Proof.
  induction hs as [|x hs IH]; intros acc.
  - exists []. split; [constructor | now rewrite app_nil_r].
  - change (forEachC (fieldStep isNumeric dateParses csvData existing) acc
              (x :: hs))
      with (bind (fieldStep isNumeric dateParses csvData existing acc x)
              (fun acc' =>
                 forEachC (fieldStep isNumeric dateParses csvData existing)
                   acc' hs)).
    unfold fieldStep at 1.
    destruct (generateFieldSuggestion isNumeric dateParses csvData x)
      as [s|message] eqn:G; cbn [bind].
    + set (keep := negb (arrIncludes
                           (toLowerCase (FieldSuggestion.developerName s))
                           existing)).
      specialize (IH (if keep then acc ++ [s] else acc)).
      destruct (forEachC _ _ hs) as [out|message].
      * destruct IH as (ss & Hss & ->). exists (s :: ss).
        split; [now constructor|]. cbn [List.filter]. fold keep.
        destruct keep; [now rewrite <- app_assoc | reflexivity].
      * destruct IH as (header & Hin & Hth). exists header.
        split; [now apply list_elem_of_further | exact Hth].
    + exists x. split; [apply list_elem_of_here | exact G].
Qed.

Lemma filterC_throw_message (vals : list (JSObject.Value string))
    (message : string) :
  filterC nonBlank vals = Throw message -> message = valTrimMessage.
Proof.
  induction vals as [|val vals IH]; [discriminate|].
  change (filterC nonBlank (val :: vals))
    with (bind (nonBlank val) (fun keep =>
          bind (filterC nonBlank vals) (fun kept =>
          Return (if keep then val :: kept else kept)))).
  destruct val as [|s|m|]; cbn [nonBlank bind].
  - destruct (filterC nonBlank vals); [discriminate|].
    intros [= <-]. now apply IH.
  - destruct (filterC nonBlank vals); [discriminate|].
    intros [= <-]. now apply IH.
  - now intros [= <-].
  - now intros [= <-].
Qed.

(** Nothing but the [TypeError] of the missing [trim] is ever thrown. *)
Lemma determineFieldType_throw_message (csvData : option (list Row))
    (csvHeader message : string) :
  determineFieldType isNumeric dateParses csvData csvHeader = Throw message ->
  message = valTrimMessage.
Proof.
  unfold determineFieldType. destruct csvData as [rows|]; [|discriminate].
  destruct (Nat.eqb (List.length rows) 0); [discriminate|].
  unfold sampleValues.
  destruct (filterC nonBlank _) as [kept|m] eqn:F; cbn [bind].
  - destruct (Nat.eqb _ 0); discriminate.
  - intros [= <-]. now apply filterC_throw_message in F.
Qed.

Lemma generateFieldSuggestion_Return (csvData : option (list Row))
    (csvHeader : string) (s : FieldSuggestion.t) :
  generateFieldSuggestion isNumeric dateParses csvData csvHeader = Return s ->
  FieldSuggestion.csvHeader s = csvHeader
  /\ FieldSuggestion.developerName s = developerNameOf csvHeader
  /\ FieldSuggestion.label s = labelOf csvHeader
  /\ FieldSuggestion.required s = false
  /\ exists fieldType,
       determineFieldType isNumeric dateParses csvData csvHeader
       = Return fieldType
       /\ FieldSuggestion.type s = type fieldType
       /\ FieldSuggestion.length s = length fieldType.
Proof.
  unfold generateFieldSuggestion.
  destruct (determineFieldType isNumeric dateParses csvData csvHeader)
    as [fieldType|message]; cbn [bind]; [|discriminate].
  intros [= <-]. repeat split. now exists fieldType.
Qed.

Lemma generateFieldSuggestion_Throw (csvData : option (list Row))
    (csvHeader message : string) :
  generateFieldSuggestion isNumeric dateParses csvData csvHeader
  = Throw message ->
  determineFieldType isNumeric dateParses csvData csvHeader = Throw message.
Proof.
  unfold generateFieldSuggestion.
  destruct (determineFieldType isNumeric dateParses csvData csvHeader);
    cbn [bind]; [discriminate|].
  now intros [= ->].
Qed.

(** X19: when [suggestNewFields] returns, it proposes a field exactly for
    the headers of the list that have no entry in the mapping table and
    whose developer name is, letter case aside, the name of no field of the
    schema; each proposal is the one [generateFieldSuggestion] makes for
    its header, and is never required; and every header without entry got
    one.  When it throws, the type inference has thrown the [TypeError] of
    the missing [trim] for a header without entry. *)
Theorem new_fields_are_for_unmapped_unknown_headers
    (this : Processor.CSVProcessor) (h : Processor.heap)
    (csvHeaders : list string) (fields : list TargetField) :
  let unmapped header :=
    header ∈ csvHeaders
    /\ JSObject.getOwn header (Processor.deref h (Processor.mappings this))
       = None in
  let suggested header :=
    generateFieldSuggestion isNumeric dateParses (Processor.csvData this)
      header in
  match suggestNewFields isNumeric dateParses this csvHeaders fields h with
  | Return suggestions =>
      (forall header, unmapped header -> exists s, suggested header = Return s)
      /\ forall s,
           s ∈ suggestions
           <-> exists header,
                 unmapped header
                 /\ (forall f, f ∈ fields ->
                       toLowerCase (name f)
                       <> toLowerCase (developerNameOf header))
                 /\ suggested header = Return s
                 /\ FieldSuggestion.csvHeader s = header
                 /\ FieldSuggestion.required s = false
  | Throw message =>
      message = valTrimMessage
      /\ exists header,
           unmapped header
           /\ determineFieldType isNumeric dateParses
                (Processor.csvData this) header
              = Throw message
  end.
Proof.
  intros unmapped suggested.
  unfold suggestNewFields, suggestNewFieldsOf.
  set (m := Processor.deref h (Processor.mappings this)).
  set (existing := map (fun f => toLowerCase (name f)) fields).
  set (hs := List.filter
               (fun header => negb (arrIncludes header (JSObject.keys m)))
               csvHeaders).
  assert (Hhs : forall header, header ∈ hs <-> unmapped header).
  { intros header. subst hs unmapped. cbv beta. fold m.
    rewrite elem_filter, negb_true_iff. split.
    - intros [Hin Hun]. split; [exact Hin|].
      now apply arrIncludes_not_elem, getOwn_None_keys in Hun.
    - intros [Hin Hun]. split; [exact Hin|].
      now apply arrIncludes_not_elem, getOwn_None_keys. }
  pose proof (forEachC_fieldStep (Processor.csvData this) existing hs [])
    as Hloop.
  destruct (forEachC _ [] hs) as [out|message].
  - destruct Hloop as (ss & Hss & ->). rewrite app_nil_l. split.
    + intros header Hun. apply Hhs in Hun.
      apply list_elem_of_lookup in Hun as [i Hi].
      destruct (Forall2_lookup_l _ _ _ _ _ Hss Hi) as (s & _ & Hs).
      now exists s.
    + intros s. rewrite elem_filter. split.
      * intros [Hin Hnew]. apply list_elem_of_lookup in Hin as [i Hi].
        destruct (Forall2_lookup_r _ _ _ _ _ Hss Hi) as (header & Hh & Hs).
        apply list_elem_of_lookup_2 in Hh. apply Hhs in Hh.
        destruct (generateFieldSuggestion_Return _ _ _ Hs)
          as (Hc & Hd & _ & Hr & _).
        exists header. repeat split; try assumption; try apply Hh.
        intros f Hf Heq.
        apply negb_true_iff, arrIncludes_not_elem in Hnew. apply Hnew.
        rewrite Hd, <- Heq. subst existing.
        apply list_elem_of_fmap. now exists f.
      * intros (header & Hun & Hnew & Hs & _ & _). apply Hhs in Hun.
        apply list_elem_of_lookup in Hun as [i Hi].
        destruct (Forall2_lookup_l _ _ _ _ _ Hss Hi) as (s' & Hi' & Hs').
        unfold suggested in Hs. rewrite Hs in Hs'. injection Hs' as <-.
        split; [now apply list_elem_of_lookup_2 in Hi'|].
        apply negb_true_iff, arrIncludes_not_elem.
        destruct (generateFieldSuggestion_Return _ _ _ Hs) as (_ & Hd & _).
        rewrite Hd. subst existing. intros Hex.
        apply list_elem_of_fmap in Hex as (f & Heq & Hf).
        now apply (Hnew f Hf).
  - destruct Hloop as (header & Hin & Hth).
    apply generateFieldSuggestion_Throw in Hth.
    split; [now apply determineFieldType_throw_message in Hth|].
    exists header. split; [now apply Hhs | exact Hth].
Qed.

End SuggestionListClaims.

(** ** Statistics *)

Section LoopFacts.
Context {A S : Type}.
Implicit Types (body : S -> A -> Completion S) (f : S -> A -> S).

(** A loop whose body never throws is a fold. *)
Lemma forEachC_foldl body f (l : list A) :
  Forall (fun x => forall acc, body acc x = Return (f acc x)) l ->
  forall acc, forEachC body acc l = Return (foldl f acc l).
Proof.
  induction 1 as [|x l Hx Hl IH]; intros acc; [reflexivity|].
  simpl. rewrite Hx. simpl. apply IH.
Qed.

(** A loop stops at the first element on which its body throws. *)
Lemma forEachC_Throw body f (message : string) (l : list A) :
  Forall (fun x => (forall acc, body acc x = Return (f acc x))
                   \/ (forall acc, body acc x = Throw message)) l ->
  Exists (fun x => forall acc, body acc x = Throw message) l ->
  forall acc, forEachC body acc l = Throw message.
Proof.
  induction 1 as [|x l Hx Hl IH]; intros Hex acc.
  - now apply Exists_nil in Hex.
  - simpl. destruct Hx as [Hx|Hx]; rewrite Hx; simpl; [|reflexivity].
    apply IH. apply Exists_cons in Hex as [Hex|Hex]; [|exact Hex].
    specialize (Hex acc). rewrite Hx in Hex. discriminate Hex.
Qed.

End LoopFacts.

Section StatisticsFacts.
Import Statistics StatisticsSpec InferrerSpec.

Implicit Types (cs : Table) (k h : string).

Lemma getOwn_update cs k h (f : ColumnStats.t -> ColumnStats.t) :
  JSObject.getOwn k (own (update h f cs))
  = if decide (k = h) then f <$> JSObject.getOwn k (own cs)
    else JSObject.getOwn k (own cs).
Proof.
  unfold update. destruct (decide (k = h)) as [->|Hne].
  - destruct (JSObject.getOwn h (own cs)) eqn:E; simpl.
    + apply getOwn_replace_eq. unfold JSObject.has. now rewrite E.
    + destruct (String.eqb h JSObject.protoKey); [|now rewrite E].
      destruct (proto cs); simpl; now rewrite E.
  - destruct (JSObject.getOwn h (own cs)); simpl.
    + apply getOwn_replace_ne. congruence.
    + destruct (String.eqb h JSObject.protoKey); [|reflexivity].
      now destruct (proto cs).
Qed.

Lemma proto_update cs h (f : ColumnStats.t -> ColumnStats.t) :
  is_Some (proto (update h f cs)) <-> is_Some (proto cs).
Proof.
  unfold update. destruct (JSObject.getOwn h (own cs)); [reflexivity|].
  destruct (String.eqb h JSObject.protoKey); [|reflexivity].
  destruct cs as [o [st|]]; simpl; [|reflexivity].
  split; intros _; eauto.
Qed.

(** What the body of the inner loop does with a cell that reads as data,
    and with another. *)
Lemma cellStep_data (row : Row) h :
  readsData h row = true ->
  forall acc, cellStep row acc h = Return (tallyCell row acc h).
Proof.
  intros Hr acc. unfold cellStep, tallyCell, bump, cellOf.
  unfold readsData in Hr. pose proof (own_get h row) as Hown.
  destruct (JSObject.get h row) as [|value|m|]; try discriminate;
    simpl in Hown; rewrite <- Hown; simpl.
  - now rewrite andb_true_r.
  - destruct (isEmpty (trim value)); simpl;
      [now rewrite andb_true_r | now rewrite andb_false_r].
Qed.

Lemma cellStep_inherited (row : Row) h :
  readsData h row = false ->
  forall acc, cellStep row acc h = Throw valueTrimMessage.
Proof.
  intros Hr acc. unfold cellStep. unfold readsData in Hr.
  now destruct (JSObject.get h row).
Qed.

Lemma rowStep_readable (headers : list string) (row : Row) :
  readable headers row = true ->
  forall acc, rowStep headers acc row = Return (tallyRow headers acc row).
Proof.
  intros Hr acc. unfold rowStep, tallyRow.
  rewrite (forEachC_foldl _ (tallyCell row)); [reflexivity|].
  unfold readable in Hr. induction headers as [|h hs IH]; [constructor|].
  simpl in Hr. apply andb_true_iff in Hr as [Hh Hhs].
  constructor; [now apply cellStep_data | now apply IH].
Qed.

Lemma rowStep_unreadable (headers : list string) (row : Row) :
  readable headers row = false ->
  forall acc, rowStep headers acc row = Throw valueTrimMessage.
Proof.
  intros Hr acc. unfold rowStep.
  rewrite (forEachC_Throw _ (tallyCell row) valueTrimMessage);
    [reflexivity| |].
  - clear Hr. induction headers as [|h hs IH]; constructor; [|exact IH].
    destruct (readsData h row) eqn:R.
    + left. now apply cellStep_data.
    + right. now apply cellStep_inherited.
  - unfold readable in Hr. induction headers as [|h hs IH]; [discriminate|].
    simpl in Hr. destruct (readsData h row) eqn:R.
    + apply Exists_cons_tl. now apply IH.
    + apply Exists_cons_hd. now apply cellStep_inherited.
Qed.

(** The statistics are those of [tally] when every row is readable, and
    the [TypeError] of the missing [trim] otherwise. *)
Lemma getDataStatisticsOf_cases (rows : list Row) (headers : list string)
    (rowCount : nat) :
  getDataStatisticsOf (Some rows) headers rowCount
  = if forallb (readable headers) rows
    then Return (Some (tally headers rowCount rows))
    else Throw valueTrimMessage.
Proof.
  unfold getDataStatisticsOf, tally.
  set (start := foldl (fun cs header => assign header initial cs)
                  emptyTable headers).
  destruct (forallb (readable headers) rows) eqn:R.
  - rewrite (forEachC_foldl _ (tallyRow headers)); [reflexivity|].
    clear start. induction rows as [|row rows IH]; [constructor|].
    simpl in R. apply andb_true_iff in R as [Hrow Hrows].
    constructor; [now apply rowStep_readable | now apply IH].
  - rewrite (forEachC_Throw _ (tallyRow headers) valueTrimMessage);
      [reflexivity| |].
    + clear R start. induction rows as [|row rows IH]; constructor;
        [|exact IH].
      destruct (readable headers row) eqn:Hr.
      * left. now apply rowStep_readable.
      * right. now apply rowStep_unreadable.
    + clear start. induction rows as [|row rows IH]; [discriminate|].
      simpl in R. destruct (readable headers row) eqn:Hr.
      * apply Exists_cons_tl. now apply IH.
      * apply Exists_cons_hd. now apply rowStep_unreadable.
Qed.

Lemma getOwn_tallyCell (row : Row) cs (b : bool) k h :
  JSObject.getOwn k (own (tallyCell row (cs, b) h).1)
  = if decide (k = h)
    then bump (cellOf k row) <$> JSObject.getOwn k (own cs)
    else JSObject.getOwn k (own cs).
Proof.
  unfold tallyCell. simpl. rewrite getOwn_update.
  now destruct (decide (k = h)) as [->|Hne].
Qed.

Lemma occurrences_cons k h (hs : list string) :
  occurrences k (h :: hs)
  = if decide (k = h) then S (occurrences k hs) else occurrences k hs.
Proof.
  unfold occurrences. simpl. destruct (String.eqb_spec k h) as [->|Hne].
  - now rewrite decide_True.
  - now rewrite decide_False.
Qed.

(** The counters of a column after one row: one reading per column with
    that header. *)
Lemma get_cells (row : Row) k (hs : list string) :
  forall cs (b : bool),
    JSObject.getOwn k (own (foldl (tallyCell row) (cs, b) hs).1)
    = Nat.iter (occurrences k hs) (bump (cellOf k row))
        <$> JSObject.getOwn k (own cs).
Proof.
  induction hs as [|h hs IH]; intros cs b.
  - simpl. now destruct (JSObject.getOwn k (own cs)).
  - simpl foldl. destruct (tallyCell row (cs, b) h) as [cs' b'] eqn:E.
    rewrite IH. assert (Hcs : cs' = (tallyCell row (cs, b) h).1)
      by now rewrite E.
    rewrite Hcs, getOwn_tallyCell, occurrences_cons.
    destruct (decide (k = h)) as [->|Hne]; [|reflexivity].
    destruct (JSObject.getOwn h (own cs)) as [st|]; [|reflexivity]. simpl.
    f_equal. symmetry.
    apply (Nat.iter_succ_r (occurrences h hs) (bump (cellOf h row)) st).
Qed.

Lemma proto_cells (row : Row) (hs : list string) :
  forall cs (b : bool),
    is_Some (proto (foldl (tallyCell row) (cs, b) hs).1)
    <-> is_Some (proto cs).
Proof.
  induction hs as [|h hs IH]; intros cs b; [reflexivity|].
  simpl foldl. unfold tallyCell at 2. rewrite IH. apply proto_update.
Qed.

Lemma flag_cells (row : Row) (hs : list string) :
  forall cs (b : bool),
    (foldl (tallyCell row) (cs, b) hs).2 = b && blankRow hs row.
Proof.
  unfold blankRow.
  induction hs as [|h hs IH]; intros cs b; simpl; [now rewrite andb_true_r|].
  unfold tallyCell at 2. simpl. rewrite IH. now rewrite andb_assoc.
Qed.

Lemma get_rows k (headers : list string) (rows : list Row) :
  forall cs (e : nat),
    JSObject.getOwn k (own (foldl (tallyRow headers) (cs, e) rows).1)
    = (fun st =>
         foldl (fun st row =>
                  Nat.iter (occurrences k headers) (bump (cellOf k row)) st)
           st rows)
        <$> JSObject.getOwn k (own cs).
Proof.
  induction rows as [|row rows IH]; intros cs e.
  - simpl. now destruct (JSObject.getOwn k (own cs)).
  - simpl foldl. unfold tallyRow at 2. simpl. rewrite IH, get_cells.
    now destruct (JSObject.getOwn k (own cs)).
Qed.

Lemma proto_rows (headers : list string) (rows : list Row) :
  forall cs (e : nat),
    is_Some (proto (foldl (tallyRow headers) (cs, e) rows).1)
    <-> is_Some (proto cs).
Proof.
  induction rows as [|row rows IH]; intros cs e; [reflexivity|].
  simpl foldl. unfold tallyRow at 2. simpl. rewrite IH. apply proto_cells.
Qed.

Lemma count_rows (headers : list string) (rows : list Row) :
  forall cs (e : nat),
    (foldl (tallyRow headers) (cs, e) rows).2
    = e + List.length (List.filter (blankRow headers) rows).
Proof.
  induction rows as [|row rows IH]; intros cs e; simpl; [lia|].
  unfold tallyRow at 2. simpl. rewrite IH, flag_cells. simpl.
  destruct (blankRow headers row); simpl; lia.
Qed.

(** The first loop: an entry for every header but [__proto__], which
    becomes the prototype of the table instead. *)
Lemma get_initial k (hs : list string) :
  forall cs,
    JSObject.getOwn JSObject.protoKey (own cs) = None ->
    JSObject.getOwn JSObject.protoKey
      (own (foldl (fun cs header => assign header initial cs) cs hs)) = None
    /\ JSObject.getOwn k
         (own (foldl (fun cs header => assign header initial cs) cs hs))
       = (if decide (k ∈ hs /\ k <> JSObject.protoKey) then Some initial
          else JSObject.getOwn k (own cs))
    /\ (is_Some
          (proto (foldl (fun cs header => assign header initial cs) cs hs))
        <-> JSObject.protoKey ∈ hs \/ is_Some (proto cs)).
Proof.
  induction hs as [|h hs IH]; intros cs Hno.
  - simpl. split; [exact Hno|]. split.
    + destruct (decide (k ∈ [] /\ k <> JSObject.protoKey)) as [[Hin _]|_];
        [|reflexivity].
      now apply elem_of_nil in Hin.
    + split; [now right|]. intros [Hin|Hs]; [|exact Hs].
      now apply elem_of_nil in Hin.
  - simpl foldl.
    assert (Hassign :
      (h = JSObject.protoKey /\ own (assign h initial cs) = own cs
       /\ proto (assign h initial cs) = Some initial)
      \/ (h <> JSObject.protoKey
          /\ own (assign h initial cs) = JSObject.define h initial (own cs)
          /\ proto (assign h initial cs) = proto cs)).
    { unfold assign.
      destruct (String.eqb_spec h JSObject.protoKey) as [->|Hne].
      - left. unfold JSObject.has. now rewrite Hno.
      - right. split; [exact Hne|]. now rewrite andb_false_r. }
    assert (Hno' : JSObject.getOwn JSObject.protoKey
                     (own (assign h initial cs)) = None).
    { destruct Hassign as [(_ & -> & _)|(Hne & -> & _)]; [exact Hno|].
      now rewrite getOwn_define_ne by exact Hne. }
    destruct (IH _ Hno') as (Hp & Hk & Hs). split; [exact Hp|]. split.
    + rewrite Hk. clear Hk Hs Hp IH.
      destruct (decide (k ∈ hs /\ k <> JSObject.protoKey)) as [[Hin Hne]|Hn].
      * rewrite decide_True; [reflexivity|].
        split; [now apply list_elem_of_further | exact Hne].
      * destruct Hassign as [(-> & -> & _)|(Hne & -> & _)].
        -- destruct (decide (k ∈ JSObject.protoKey :: hs
                             /\ k <> JSObject.protoKey)) as [[Hin Hk]|_];
             [|reflexivity].
           exfalso. apply Hn. split; [|exact Hk].
           apply elem_of_cons in Hin as [?|?]; [contradiction | assumption].
        -- destruct (decide (k = h)) as [->|Hkh].
           ++ rewrite getOwn_define_eq.
              rewrite decide_True; [reflexivity|].
              split; [apply list_elem_of_here | exact Hne].
           ++ rewrite getOwn_define_ne by congruence.
              destruct (decide (k ∈ h :: hs /\ k <> JSObject.protoKey))
                as [[Hin Hk]|_]; [|reflexivity].
              exfalso. apply Hn. split; [|exact Hk].
              apply elem_of_cons in Hin as [?|?]; [contradiction|assumption].
    + rewrite Hs, elem_of_cons. clear Hk Hs Hp IH.
      destruct Hassign as [(-> & _ & ->)|(Hne & _ & ->)].
      * split; [intros _; now left; left | intros _; right; eauto].
      * split; [intros [?|?]; [left; now right | now right]|].
        intros [[?|?]|?]; [congruence | now left | now right].
Qed.

(** The second loop always finds the counters it updates: the first loop
    has put them there, and no update takes them away. *)
Lemma covers_initial (headers : list string) :
  covers headers
    (foldl (fun cs header => assign header initial cs) emptyTable headers).
Proof.
  intros h Hin.
  destruct (get_initial h headers emptyTable eq_refl) as (_ & Hk & Hp).
  destruct (String.eqb_spec h JSObject.protoKey) as [->|Hne].
  - right. split; [reflexivity|]. apply Hp. now left.
  - left. rewrite Hk. rewrite decide_True by (split; assumption). eauto.
Qed.

Lemma covers_update (headers : list string) cs h
    (f : ColumnStats.t -> ColumnStats.t) :
  covers headers cs -> covers headers (update h f cs).
Proof.
  intros Hc k Hin. destruct (Hc k Hin) as [[st Hst]|[-> Hp]].
  - left. rewrite getOwn_update, Hst.
    destruct (decide (k = h)); simpl; eauto.
  - right. split; [reflexivity|]. now apply proto_update.
Qed.

Lemma get_summaries k (o : JSObject.t ColumnStats.t) :
  JSObject.getOwn k (map (fun e => (e.1, summary e.2)) o)
  = summary <$> JSObject.getOwn k o.
Proof.
  induction o as [|[k1 st] o IH]; simpl; [reflexivity|].
  destruct (String.eqb k k1); [reflexivity | exact IH].
Qed.

(** The counters of a column as returned: the tally of its readings. *)
Lemma get_columnStats (rows : list Row) (headers : list string)
    (rowCount : nat) k :
  JSObject.getOwn k (DataStatistics.columnStats (tally headers rowCount rows))
  = if decide (k ∈ headers /\ k <> JSObject.protoKey)
    then Some (summary
                 (foldl (fun st row =>
                           Nat.iter (occurrences k headers)
                             (bump (cellOf k row)) st)
                    initial rows))
    else None.
Proof.
  unfold tally. simpl. rewrite get_summaries, get_rows.
  destruct (get_initial k headers emptyTable eq_refl) as (_ & -> & _).
  now destruct (decide (k ∈ headers /\ k <> JSObject.protoKey)).
Qed.

Lemma columnProto_tally (rows : list Row) (headers : list string)
    (rowCount : nat) :
  is_Some (DataStatistics.columnProto (tally headers rowCount rows))
  <-> JSObject.protoKey ∈ headers.
Proof.
  unfold tally. simpl. rewrite proto_rows.
  destruct (get_initial EmptyString headers emptyTable eq_refl)
    as (_ & _ & ->).
  split; [|now left]. intros [Hin|[st Hst]]; [exact Hin | discriminate].
Qed.

Lemma bump_total (v : string) (st : ColumnStats.t) :
  ColumnStats.nonEmpty (bump v st) + ColumnStats.empty (bump v st)
  = S (ColumnStats.nonEmpty st + ColumnStats.empty st).
Proof. unfold bump. destruct (negb (isEmpty v)); simpl; lia. Qed.

Lemma iter_total (n : nat) (v : string) (st : ColumnStats.t) :
  ColumnStats.nonEmpty (Nat.iter n (bump v) st)
  + ColumnStats.empty (Nat.iter n (bump v) st)
  = n + (ColumnStats.nonEmpty st + ColumnStats.empty st).
Proof.
  induction n as [|n IH]; [reflexivity|].
  simpl Nat.iter. rewrite bump_total, IH. lia.
Qed.

Lemma rows_total (n : nat) (cell : Row -> string) (rows : list Row) :
  forall st : ColumnStats.t,
    ColumnStats.nonEmpty
      (foldl (fun st row => Nat.iter n (bump (cell row)) st) st rows)
    + ColumnStats.empty
        (foldl (fun st row => Nat.iter n (bump (cell row)) st) st rows)
    = n * List.length rows
      + (ColumnStats.nonEmpty st + ColumnStats.empty st).
Proof.
  induction rows as [|row rows IH]; intros st; simpl; [lia|].
  rewrite IH, iter_total. lia.
Qed.

Lemma setAdd_length (x : string) (set : list string) :
  List.length (setAdd x set) <= S (List.length set)
  /\ setAdd x set <> [].
Proof.
  unfold setAdd. destruct (arrIncludes x set) eqn:E.
  - split; [lia|]. intros ->. discriminate.
  - rewrite length_app. simpl. split; [lia|].
    intros H. now apply app_eq_nil in H as [_ ?].
Qed.

Lemma bump_coherent (v : string) (st : ColumnStats.t) :
  coherent st -> coherent (bump v st).
Proof.
  unfold coherent, bump. intros (Hu & Hm & He).
  destruct v as [|c v]; simpl; [tauto|].
  destruct (setAdd_length (String c v) (ColumnStats.unique st)) as [Hl Hn].
  split; [lia|]. split; split; intros H; try lia; try discriminate.
  now contradiction Hn.
Qed.

Lemma iter_coherent (n : nat) (v : string) (st : ColumnStats.t) :
  coherent st -> coherent (Nat.iter n (bump v) st).
Proof.
  intros H. induction n as [|n IH]; [exact H|].
  simpl. now apply bump_coherent.
Qed.

Lemma rows_coherent (n : nat) (cell : Row -> string) (rows : list Row) :
  forall st : ColumnStats.t,
    coherent st ->
    coherent (foldl (fun st row => Nat.iter n (bump (cell row)) st) st rows).
Proof.
  induction rows as [|row rows IH]; intros st H; simpl; [exact H|].
  apply IH. now apply iter_coherent.
Qed.

(** Statistics that are returned are those of [tally]. *)
Lemma getDataStatistics_Return (this : Processor.CSVProcessor)
    (stats : DataStatistics.t) :
  getDataStatistics this = Return (Some stats) ->
  exists rows,
    Processor.csvData this = Some rows
    /\ forallb (readable (Processor.headers this)) rows = true
    /\ stats = tally (Processor.headers this) (Processor.rowCount this) rows.
Proof.
  unfold getDataStatistics.
  destruct (Processor.csvData this) as [rows|]; [|discriminate].
  rewrite getDataStatisticsOf_cases.
  destruct (forallb _ rows) eqn:R; [|discriminate].
  intros [= <-]. exists rows. repeat split. exact R.
Qed.

End StatisticsFacts.

Section StatisticsClaims.
Import Statistics StatisticsSpec.

Example surveyed_from_surveyText :
  Processor.parseCSV (Processor.new ∅).1 surveyText = Return surveyed.
Proof. reflexivity. Qed.

Example surveyed_statistics :
  getDataStatistics surveyed = Return (Some surveyedStatistics).
Proof. reflexivity. Qed.

(** A column named [__proto__]: no row stores its cell, so that the first
    row read throws; without rows the statistics are returned, with no
    entry for the column. *)
Example proto_column_statistics :
  Processor.parseCSV (Processor.new ∅).1 protoText = Return protoLoaded
  /\ getDataStatistics protoLoaded = Throw valueTrimMessage
  /\ getDataStatistics protoHeaderOnly
     = Return (Some {| DataStatistics.totalRows := 0;
                       DataStatistics.totalColumns := 2;
                       DataStatistics.emptyRows := 0;
                       DataStatistics.columnStats :=
                         [("b", {| ColumnSummary.nonEmpty := 0;
                                   ColumnSummary.empty := 0;
                                   ColumnSummary.maxLength := 0;
                                   ColumnSummary.uniqueCount := 0 |})];
                       DataStatistics.columnProto := Some initial |}).
Proof. repeat split; reflexivity. Qed.

(** X20: in the statistics that are returned, the non-empty and empty
    counts of a header other than [__proto__] add up to the number of rows
    times the number of columns that carry this header: to the number of
    rows for a header that occurs once, to more for a repeated one. *)
Theorem column_counts_add_up (this : Processor.CSVProcessor)
    (rows : list Row) (stats : DataStatistics.t) (h : string) :
  Processor.csvData this = Some rows ->
  getDataStatistics this = Return (Some stats) ->
  h ∈ Processor.headers this ->
  h <> "__proto__" ->
  exists col,
    JSObject.getOwn h (DataStatistics.columnStats stats) = Some col
    /\ ColumnSummary.nonEmpty col + ColumnSummary.empty col
       = occurrences h (Processor.headers this) * List.length rows.
Proof.
  intros Hrows Hstats Hin Hne.
  apply getDataStatistics_Return in Hstats as (rows' & Hrows' & _ & ->).
  rewrite Hrows in Hrows'. injection Hrows' as <-.
  eexists. split.
  - rewrite get_columnStats. now rewrite decide_True by (split; assumption).
  - simpl. rewrite rows_total. simpl. lia.
Qed.

Lemma column_counts_add_up_witness :
  exists col,
    JSObject.getOwn "id" (DataStatistics.columnStats surveyedStatistics)
    = Some col
    /\ ColumnSummary.nonEmpty col + ColumnSummary.empty col
       = occurrences "id" (Processor.headers surveyed)
         * List.length surveyRows.
Proof.
  apply (column_counts_add_up surveyed surveyRows surveyedStatistics "id").
  - reflexivity.
  - reflexivity.
  - apply list_elem_of_here.
  - discriminate.
Defined.

(** X21: in the statistics of a column, the number of distinct values is
    at most the number of non-empty cells, and the three of non-empty
    count, distinct count and longest length are zero together. *)
Theorem column_counters_are_coherent (this : Processor.CSVProcessor)
    (stats : DataStatistics.t) (h : string) (col : ColumnSummary.t) :
  getDataStatistics this = Return (Some stats) ->
  JSObject.getOwn h (DataStatistics.columnStats stats) = Some col ->
  ColumnSummary.uniqueCount col <= ColumnSummary.nonEmpty col
  /\ (ColumnSummary.nonEmpty col = 0 <-> ColumnSummary.maxLength col = 0)
  /\ (ColumnSummary.nonEmpty col = 0 <-> ColumnSummary.uniqueCount col = 0).
Proof.
  intros Hstats Hcol.
  apply getDataStatistics_Return in Hstats as (rows & Hrows & _ & ->).
  rewrite get_columnStats in Hcol.
  destruct (decide (h ∈ Processor.headers this /\ h <> JSObject.protoKey));
    [|discriminate].
  injection Hcol as <-.
  pose proof (rows_coherent (occurrences h (Processor.headers this))
                (cellOf h) rows initial) as Hco.
  destruct Hco as (Hu & Hm & He).
  { repeat split; simpl; auto. }
  simpl. split; [exact Hu|]. split; [exact Hm|].
  rewrite He. split; [now intros -> | apply length_zero_iff_nil].
Qed.

Lemma column_counters_are_coherent_witness :
  2 <= 4 /\ (4 = 0 <-> 1 = 0) /\ (4 = 0 <-> 2 = 0).
Proof.
  apply (column_counters_are_coherent surveyed surveyedStatistics "id"
           {| ColumnSummary.nonEmpty := 4; ColumnSummary.empty := 2;
              ColumnSummary.maxLength := 1;
              ColumnSummary.uniqueCount := 2 |}).
  - reflexivity.
  - reflexivity.
Defined.

(** X22: without a file the statistics are [null].  With one, when every
    header reads as data in every row, the statistics are returned: they
    count as empty the rows whose cell is blank under every header, and
    hold a column for the headers of the document other than [__proto__]
    and for no other key, a header [__proto__] having replaced the
    prototype of the column table instead.  Otherwise, some row giving a
    value of [Object.prototype] for a header, the [TypeError] of the
    missing [trim] is thrown. *)
Theorem empty_rows_are_the_blank_rows (this : Processor.CSVProcessor) :
  match Processor.csvData this with
  | None => getDataStatistics this = Return None
  | Some rows =>
      if forallb (readable (Processor.headers this)) rows
      then
        exists stats,
          getDataStatistics this = Return (Some stats)
          /\ DataStatistics.emptyRows stats
             = List.length
                 (List.filter (blankRow (Processor.headers this)) rows)
          /\ DataStatistics.emptyRows stats <= List.length rows
          /\ (forall h,
                is_Some (JSObject.getOwn h (DataStatistics.columnStats stats))
                <-> h ∈ Processor.headers this /\ h <> "__proto__")
          /\ (is_Some (DataStatistics.columnProto stats)
              <-> "__proto__" ∈ Processor.headers this)
      else getDataStatistics this = Throw valueTrimMessage
  end.
Proof.
  unfold getDataStatistics.
  destruct (Processor.csvData this) as [rows|]; [|reflexivity].
  rewrite getDataStatisticsOf_cases.
  destruct (forallb (readable (Processor.headers this)) rows);
    [|reflexivity].
  eexists. split; [reflexivity|]. split; [|split; [|split]].
  - unfold tally. simpl. now rewrite count_rows.
  - unfold tally. simpl. rewrite count_rows. simpl.
    apply List.filter_length_le.
  - intros h. rewrite get_columnStats.
    destruct (decide (h ∈ Processor.headers this /\ h <> JSObject.protoKey))
      as [Hin|Hnin].
    + split; [intros _; exact Hin | eauto].
    + split; [intros [? ?]; discriminate | contradiction].
  - apply columnProto_tally.
Qed.

End StatisticsClaims.

(** ** Runs of the orchestrator *)

Section RunFacts.
Import Orchestrator OrchestratorSpec RunSpec.

Implicit Types (poll : nat -> Completion JobStatus).

(** The loop returns the first status that is not in progress, when it
    comes before the last allowed poll. *)
Lemma monitor_return_iff poll (st : JobStatus) :
  forall fuel attempts : nat,
    monitor fuel poll attempts = Some (Return st)
    <-> exists k,
          attempts <= k /\ k < attempts + fuel /\ S k < maxAttempts
          /\ (forall j, attempts <= j -> j < k ->
                exists s, poll j = Return s /\ inProgress s = true)
          /\ poll k = Return st /\ inProgress st = false.
Proof.
  induction fuel as [|fuel IH]; intros attempts.
  - simpl. split; [discriminate|]. intros (k & ? & ? & _). lia.
  - rewrite monitor_step. destruct (poll attempts) as [s|message] eqn:P.
    + destruct (maxAttempts <=? S attempts) eqn:E.
      * apply Nat.leb_le in E. split; [discriminate|].
        intros (k & ? & ? & ? & _). lia.
      * apply Nat.leb_gt in E. destruct (inProgress s) eqn:I.
        -- rewrite IH. split.
           ++ intros (k & Hk & Hf & Hm & Hbefore & Hat & Hst).
              exists k. repeat split; try assumption; try lia.
              intros j Hj Hjk.
              destruct (decide (j = attempts)) as [->|Hne]; [eauto|].
              apply Hbefore; lia.
           ++ intros (k & Hk & Hf & Hm & Hbefore & Hat & Hst).
              assert (k <> attempts) by (intros ->; congruence).
              exists k. repeat split; try assumption; try lia.
              intros j Hj Hjk. apply Hbefore; lia.
        -- split.
           ++ intros [= <-]. exists attempts.
              repeat split; try assumption; lia.
           ++ intros (k & Hk & Hf & Hm & Hbefore & Hat & Hst).
              destruct (decide (k = attempts)) as [->|Hne]; [congruence|].
              destruct (Hbefore attempts) as (s' & Hs' & Hi'); try lia.
              congruence.
    + split; [discriminate|].
      intros (k & Hk & Hf & Hm & Hbefore & Hat & Hst).
      destruct (decide (k = attempts)) as [->|Hne]; [congruence|].
      destruct (Hbefore attempts) as (s' & Hs' & _); try lia. congruence.
Qed.

(** A status call that fails ends the loop with its error. *)
Lemma monitor_failure poll (message : string) (k : nat) :
  forall fuel attempts : nat,
    attempts <= k -> k < attempts + fuel -> k < maxAttempts ->
    (forall j, attempts <= j -> j < k ->
       exists s, poll j = Return s /\ inProgress s = true) ->
    poll k = Throw message ->
    monitor fuel poll attempts = Some (Throw message).
Proof.
  induction fuel as [|fuel IH]; intros attempts Hk Hf Hm Hbefore Hat; [lia|].
  rewrite monitor_step.
  destruct (decide (k = attempts)) as [->|Hne]; [now rewrite Hat|].
  destruct (Hbefore attempts) as (s & -> & Hi); try lia.
  replace (maxAttempts <=? S attempts) with false
    by (symmetry; apply Nat.leb_gt; lia).
  rewrite Hi. apply IH; try lia; [|exact Hat].
  intros j Hj Hjk. apply Hbefore; lia.
Qed.

(** The loop asks for the status 30 times at most. *)
Lemma monitor_ext poll poll' :
  (forall k, k < maxAttempts -> poll k = poll' k) ->
  forall fuel attempts : nat,
    attempts < maxAttempts ->
    monitor fuel poll attempts = monitor fuel poll' attempts.
Proof.
  intros Hext. induction fuel as [|fuel IH]; intros attempts Ha;
    [reflexivity|].
  rewrite !monitor_step, <- (Hext attempts Ha).
  destruct (poll attempts) as [s|]; [|reflexivity].
  destruct (maxAttempts <=? S attempts) eqn:E; [reflexivity|].
  apply Nat.leb_gt in E. destruct (inProgress s); [|reflexivity].
  now apply IH.
Qed.

End RunFacts.

Section RunClaims.
Import Orchestrator OrchestratorSpec RunSpec.

(** X23: when every status call answers, the run times out exactly when
    the job is seen in progress at each of the first 29 polls; what the
    30th poll answers makes no difference. *)
Theorem timeout_iff_29_polls_in_progress (statusAt : nat -> JobStatus) :
  monitor maxAttempts (fun k => Return (statusAt k)) 0
    = Some (Throw timeoutMessage)
  <-> forall k, k < 29 -> inProgress (statusAt k) = true.
Proof.
  rewrite (monitor_timeout_iff statusAt maxAttempts 0)
    by (unfold maxAttempts; lia).
  unfold maxAttempts. split.
  - intros H k Hk. apply H; lia.
  - intros H k _ Hk. apply H. lia.
Qed.

(** X24: a bulk upload returns a result exactly when the job is created,
    the data uploaded and the job closed without error, the job is seen in
    progress at the polls before some poll among the first 29 that shows
    another state, and the results are fetched without error; the result
    then carries the job id, that status and its two counts. *)
Theorem upload_succeeds_iff (remote : Remote) (res : UploadResult) :
  performBulkUpload remote = Some (Return res)
  <-> exists job up cl k st rs,
        createBulkJob remote = Return job
        /\ uploadBulkData remote = Return up
        /\ closeBulkJob remote = Return cl
        /\ k < 29
        /\ inProgressBefore (getBulkJobStatus remote) k
        /\ getBulkJobStatus remote k = Return st
        /\ inProgress st = false
        /\ getBulkJobResults remote = Return rs
        /\ res = report job st rs.
Proof.
  unfold performBulkUpload. split.
  - destruct (createBulkJob remote) as [job|]; [|discriminate].
    destruct (uploadBulkData remote) as [up|]; [|discriminate].
    destruct (closeBulkJob remote) as [cl|]; [|discriminate].
    destruct (monitor maxAttempts (getBulkJobStatus remote) 0)
      as [[st|]|] eqn:M; [|discriminate|discriminate].
    simpl. destruct (getBulkJobResults remote) as [rs|]; [|discriminate].
    simpl. intros [= <-].
    apply monitor_return_iff in M as (k & _ & _ & Hk & Hb & Hat & Hst).
    exists job, up, cl, k, st, rs. unfold maxAttempts in Hk.
    repeat split; try assumption; try lia.
    intros j Hj. apply Hb; lia.
  - intros (job & up & cl & k & st & rs & -> & -> & -> & Hk & Hb & Hat
            & Hst & -> & ->).
    assert (M : monitor maxAttempts (getBulkJobStatus remote) 0
                = Some (Return st)).
    { apply monitor_return_iff. exists k. unfold maxAttempts.
      repeat split; try assumption; try lia.
      intros j _ Hj. now apply Hb. }
    now rewrite M.
Qed.

(** X25: a status call that fails, at any of the 30 polls and after polls
    that showed the job in progress, ends the upload with that failure:
    the call is not repeated. *)
Theorem status_failure_ends_the_upload (remote : Remote) (k : nat)
    (job message : string) (up cl : unit) :
  createBulkJob remote = Return job ->
  uploadBulkData remote = Return up ->
  closeBulkJob remote = Return cl ->
  k < 30 ->
  inProgressBefore (getBulkJobStatus remote) k ->
  getBulkJobStatus remote k = Throw message ->
  performBulkUpload remote
  = Some (Throw ("Bulk upload failed: " +:+ message)).
Proof.
  intros Hc Hu Hcl Hk Hb Hat. unfold performBulkUpload.
  rewrite Hc, Hu, Hcl.
  rewrite (monitor_failure (getBulkJobStatus remote) message k);
    try (unfold maxAttempts; lia); [reflexivity | | exact Hat].
  intros j _ Hj. now apply Hb.
Qed.

Lemma status_failure_ends_the_upload_witness :
  performBulkUpload (healthy brokenAtPoll3)
  = Some (Throw ("Bulk upload failed: "
                 +:+ "Failed to get job status: API request failed: 503")).
Proof.
  apply (status_failure_ends_the_upload (healthy brokenAtPoll3) 2
           "750xx0000000001"
           "Failed to get job status: API request failed: 503" tt tt).
  - reflexivity.
  - reflexivity.
  - reflexivity.
  - lia.
  - intros j Hj. exists running.
    destruct j as [|[|j]]; [split; reflexivity | split; reflexivity | lia].
  - reflexivity.
Defined.

(** X26: a bulk upload asks for the status 30 times at most: what the
    service would answer to a 31st call or a later one has no effect on
    the outcome. *)
Theorem at_most_30_status_calls (remote : Remote)
    (feed : nat -> Completion JobStatus) :
  (forall k, k < 30 -> feed k = getBulkJobStatus remote k) ->
  performBulkUpload (withStatus remote feed) = performBulkUpload remote.
Proof.
  intros Hext. unfold performBulkUpload, withStatus.
  cbn [createBulkJob uploadBulkData closeBulkJob getBulkJobStatus
       getBulkJobResults].
  rewrite (monitor_ext feed (getBulkJobStatus remote) Hext)
    by (unfold maxAttempts; lia).
  reflexivity.
Qed.

Lemma at_most_30_status_calls_witness :
  performBulkUpload
    (withStatus (healthy (statusFeed [] running))
       (fun k => if k <? 30 then Return running else Return complete))
  = performBulkUpload (healthy (statusFeed [] running)).
Proof.
  apply (at_most_30_status_calls (healthy (statusFeed [] running))
           (fun k => if k <? 30 then Return running else Return complete)).
  intros k Hk. apply Nat.ltb_lt in Hk. rewrite Hk.
  unfold healthy, statusFeed. simpl. now destruct k.
Defined.

End RunClaims.

(** ** Lines of the payload of a parsed document *)

Section PayloadLineFacts.
Import LineSpec FormatSpec Processor ProcessorSpec.

Lemma lowerChar_LF (c : ascii) :
  Ascii.eqb LF (lowerChar c) = Ascii.eqb LF c.
Proof. destruct c as [[] [] [] [] [] [] [] []]; reflexivity. Qed.

Lemma includes_LF_lower (s : string) :
  includesChar LF (toLowerCase s) = includesChar LF s.
Proof.
  induction s as [|c s IH]; [reflexivity|].
  change (toLowerCase (String c s))
    with (String (lowerChar c) (toLowerCase s)).
  now rewrite !includesChar_cons, lowerChar_LF, IH.
Qed.

Lemma includesChar_filterChars (a : ascii) (p : ascii -> bool) (s : string) :
  includesChar a s = false -> includesChar a (filterChars p s) = false.
Proof.
  induction s as [|c s IH]; [trivial|]. intros H.
  apply includesChar_cons_false in H as [Hc Hs].
  simpl filterChars. destruct (p c); [|now apply IH].
  rewrite includesChar_cons, Ascii.eqb_sym, Hc. now apply IH.
Qed.

Lemma formatTrimmed_no_LF (x : string) :
  includesChar LF x = false -> includesChar LF (formatTrimmed x) = false.
Proof.
  intros Hx. unfold formatTrimmed.
  assert (H1 : includesChar LF (lowerEmail x) = false).
  { unfold lowerEmail. destruct (includesChar "@"%char x); [|exact Hx].
    now rewrite includes_LF_lower. }
  assert (H2 : includesChar LF (stripPhone (lowerEmail x)) = false).
  { unfold stripPhone. destruct (phoneLike _); [|exact H1].
    now apply includesChar_filterChars. }
  set (y := stripPhone (lowerEmail x)) in *.
  destruct (arrIncludes (toLowerCase y) booleanWords) eqn:E.
  - destruct (canonicalBoolean_result y E) as [-> | ->]; reflexivity.
  - unfold canonicalBoolean. now rewrite E.
Qed.

Lemma formatValue_no_LF (v : string) :
  includesChar LF v = false -> includesChar LF (formatValue v) = false.
Proof.
  intros H. rewrite formatValue_stages. apply formatTrimmed_no_LF.
  unfold trim. now apply includesChar_trimEnd, includesChar_trimStart.
Qed.

Lemma doubleQuotes_no_LF (v : string) :
  includesChar LF v = false -> includesChar LF (doubleQuotes v) = false.
Proof.
  induction v as [|c v IH]; [trivial|]. intros H.
  apply includesChar_cons_false in H as [Hc Hv]. specialize (IH Hv).
  simpl doubleQuotes. destruct (Ascii.eqb c dquote).
  - now rewrite !includesChar_cons, IH.
  - now rewrite includesChar_cons, Ascii.eqb_sym, Hc, IH.
Qed.

Lemma escapeValue_no_LF (v : string) :
  includesChar LF v = false -> includesChar LF (escapeValue v) = false.
Proof.
  intros H. unfold escapeValue. destruct (needsQuotes v); [|exact H].
  unfold quoted. rewrite !includesChar_app, (doubleQuotes_no_LF v H).
  reflexivity.
Qed.

Lemma splitLF_join (parts : list string) :
  parts <> [] ->
  Forall (fun l => includesChar LF l = false) parts ->
  splitLF (join (str1 LF) parts) = parts.
Proof.
  intros Hne Hall. induction Hall as [|a parts Ha Hparts IH];
    [contradiction|].
  destruct parts as [|b parts].
  - simpl join. now apply splitLF_one_line.
  - change (join (str1 LF) (a :: b :: parts))
      with (a +:+ String LF (join (str1 LF) (b :: parts))).
    rewrite splitLF_first_line by exact Ha. f_equal.
    apply IH. discriminate.
Qed.

(** A method is read under one of the eleven names only. *)
Lemma get_Method (k m : string) (row : Row) :
  JSObject.get k row = JSObject.Method m ->
  m = k /\ k ∈ JSObject.prototypeMethods.
Proof.
  unfold JSObject.get. destruct (JSObject.getOwn k row); [discriminate|].
  destruct (String.eqb k JSObject.protoKey); [discriminate|].
  destruct (arrIncludes k JSObject.prototypeMethods) eqn:E; [|discriminate].
  intros [= <-]. split; [reflexivity | now apply arrIncludes_elem].
Qed.

(** The text of what is read from a row holds a line feed only if a cell
    of the row does: the texts of built-in values have none. *)
Lemma read_text_no_LF (k : string) (row : Row) :
  (forall v, JSObject.getOwn k row = Some v -> includesChar LF v = false) ->
  includesChar LF (toText (orEmpty (JSObject.get k row))) = false.
Proof.
  intros Hrow. destruct (JSObject.get k row) as [|v|m|] eqn:G;
    try reflexivity.
  - apply Hrow. now apply get_Own_iff.
  - apply get_Method in G as [-> Hk]. unfold JSObject.prototypeMethods in Hk.
    repeat (apply elem_of_cons in Hk as [->|Hk]; [reflexivity|]).
    now apply elem_of_nil in Hk.
Qed.

(** A row with no line feed in its cells is written on one line. *)
Lemma mappedLine_no_LF (m : JSObject.t string) (row : Row) :
  (forall k v, JSObject.getOwn k row = Some v -> includesChar LF v = false) ->
  includesChar LF (mappedLine m row) = false.
Proof.
  intros Hrow. unfold mappedLine. apply includesChar_join; [reflexivity|].
  apply Forall_forall. intros cell Hcell.
  apply list_elem_of_fmap in Hcell as (e & -> & _).
  unfold mappedCell. apply escapeValue_no_LF, formatValue_no_LF.
  apply read_text_no_LF. apply Hrow.
Qed.

Lemma parsed_row_no_LF (csvText : string) (p : Parsed) (r : Row) :
  parseCSVText csvText = Return p -> r ∈ data p ->
  forall k v, JSObject.getOwn k r = Some v -> includesChar LF v = false.
Proof.
  intros Hp Hr k v Hv.
  destruct (elem_data _ _ _ Hp Hr) as (l & Hl & _ & ->).
  pose proof (splitLF_lines (trim csvText)) as Hlines.
  assert (Hclean : cleanCell v); [|now destruct Hclean].
  eapply fillRow_clean; [| |exact Hv].
  - apply parseCSVLine_clean.
    now apply (proj1 (Forall_forall _ _) Hlines l).
  - intros k' w Hk'. discriminate Hk'.
Qed.

End PayloadLineFacts.

Section PayloadLineClaims.
Import LineSpec Processor ProcessorSpec.

(** X27: for a document read by the tokenizer and a non-empty mapping
    table whose target names hold no line feed, the payload is made of
    the header line and of exactly one line per row of the document, in
    the order of the rows: no cell of a parsed document spreads over two
    lines. *)
Theorem payload_has_one_line_per_row (this : CSVProcessor) (h : heap)
    (csvText : string) (p : Parsed) :
  parseCSVText csvText = Return p ->
  csvData this = Some (data p) ->
  JSObject.keys (deref h (mappings this)) <> [] ->
  Forall (fun t => includesChar LF t = false)
    (JSObject.values (deref h (mappings this))) ->
  exists payload,
    generateMappedCSV this h = Return payload
    /\ splitLF payload
       = mappedHeaderLine (deref h (mappings this))
         :: map (mappedLine (deref h (mappings this))) (data p).
Proof.
  intros Hp Hdata Hkeys Hlf.
  unfold generateMappedCSV, generateMappedCSVOf. rewrite Hdata.
  destruct (JSObject.keys (deref h (mappings this))) as [|k ks] eqn:E;
    [contradiction|].
  change (Nat.eqb (List.length (k :: ks)) 0) with false. cbv iota.
  eexists. split; [reflexivity|].
  apply splitLF_join; [discriminate|]. constructor.
  - now apply includesChar_join.
  - apply Forall_forall. intros line Hline.
    apply list_elem_of_fmap in Hline as (r & -> & Hr).
    apply mappedLine_no_LF. now apply (parsed_row_no_LF csvText p r).
Qed.

Lemma payload_has_one_line_per_row_witness :
  exists payload,
    generateMappedCSV loaded mailFirst = Return payload
    /\ splitLF payload
       = mappedHeaderLine (deref mailFirst (mappings loaded))
         :: map (mappedLine (deref mailFirst (mappings loaded)))
              [[("Name", "Smith"); ("Mail", "X@Y.Z")]].
Proof.
  apply (payload_has_one_line_per_row loaded mailFirst contactsText
           {| Tokenizer.headers := ["Name"; "Mail"];
              data := [[("Name", "Smith"); ("Mail", "X@Y.Z")]] |}).
  - reflexivity.
  - reflexivity.
  - vm_compute. discriminate.
  - apply (bool_decide_unpack _). vm_compute. exact I.
Defined.

End PayloadLineClaims.

(** ** Assignments seen through [getMappings] *)

Section MappingClaims.
Import Processor ProcessorSpec.

(** X28: on a processor created by [new CSVProcessor()], after any
    sequence of assignments and deletions on its mapping table, a call of
    [setMapping] for a header other than [__proto__] is seen in the copy
    that [getMappings] returns next: the header reads as the new target.
    For the header [__proto__] nothing is stored: the copy has no entry
    for it.  In both cases every other header reads as it did before the
    call. *)
Theorem setMapping_is_read_back (h : heap) (ms : list Mutation)
    (csvField salesforceField : string) :
  let this := (new h).1 in
  let before := mutateAll (mappings this) ms (new h).2 in
  let after := setMapping this csvField salesforceField before in
  let copy := deref (getMappings this after).2 (getMappings this after).1 in
  JSObject.getOwn csvField copy
  = (if String.eqb csvField "__proto__" then None else Some salesforceField)
  /\ forall other, other <> csvField ->
       JSObject.getOwn other copy
       = JSObject.getOwn other (deref before (mappings this)).
Proof.
  intros this before after copy.
  destruct (reachable_table h ms) as [[Hwf _] Hno].
  fold this in Hwf, Hno. fold before in Hwf, Hno.
  assert (Hcopy : copy = JSObject.spread
                           (JSObject.set csvField salesforceField
                              (deref before (mappings this)))).
  { subst copy. unfold getMappings. rewrite deref_alloc.
    subst after. now rewrite deref_setMapping. }
  rewrite Hcopy. split.
  - rewrite getOwn_spread by now apply wf_set.
    destruct (String.eqb_spec csvField "__proto__") as [->|Hne].
    + now apply getOwn_set_proto.
    + now apply getOwn_set_eq.
  - intros other Hne. rewrite getOwn_spread by now apply wf_set.
    apply getOwn_set_ne. congruence.
Qed.

(** X29: on such a processor, after any sequence of assignments and
    deletions, deleting the entry of a header (as the mapping screen does
    when a selection is cleared) leaves the header without mapping in the
    next copy and every other header as it was. *)
Theorem cleared_mapping_is_gone (h : heap) (ms : list Mutation)
    (csvField : string) :
  let this := (new h).1 in
  let before := mutateAll (mappings this) ms (new h).2 in
  let after := mutate (mappings this) (Delete csvField) before in
  let copy := deref (getMappings this after).2 (getMappings this after).1 in
  JSObject.getOwn csvField copy = None
  /\ forall other, other <> csvField ->
       JSObject.getOwn other copy
       = JSObject.getOwn other (deref before (mappings this)).
Proof.
  intros this before after copy.
  assert (Hwf : JSObject.wf (deref before (mappings this))).
  { subst before. apply wf_mutateAll. subst this. rewrite deref_new.
    apply wf_empty. }
  assert (Hcopy : copy = JSObject.spread
                           (JSObject.remove csvField
                              (deref before (mappings this)))).
  { subst copy. unfold getMappings. rewrite deref_alloc.
    subst after. now rewrite deref_mutate_same. }
  rewrite Hcopy. split.
  - rewrite getOwn_spread by now apply wf_remove. apply getOwn_remove_eq.
  - intros other Hne. rewrite getOwn_spread by now apply wf_remove.
    apply getOwn_remove_ne. congruence.
Qed.

End MappingClaims.

(** ** Names resolved through [Object.prototype] *)

Section InheritedNames.
Import Processor Suggester ShapeSpec StatisticsSpec.

(** The cell of a column named [__proto__] is dropped by the tokenizer. *)
Example proto_column_is_not_stored :
  parseCSVText protoText
  = Return {| Tokenizer.headers := ["__proto__"; "b"];
              Tokenizer.data := [[("b", "2")]] |}.
Proof. reflexivity. Qed.

(** Inferring the type of that column throws, and so does the proposal of
    new fields for the headers of the document. *)
Example proto_column_type_throws :
  determineFieldType digitsOnly noDate (csvData protoLoaded) "__proto__"
  = Throw valTrimMessage
  /\ suggestNewFields digitsOnly noDate protoLoaded (headers protoLoaded) []
       (new ∅).2
     = Throw valTrimMessage.
Proof. split; reflexivity. Qed.

(** A mapped header that the row holds no cell for is written as the empty
    string, unless it names a property of [Object.prototype], whose text
    is written. *)
Example inherited_value_is_written_as_text :
  mappedCell [("b", "2")] "c" = EmptyString
  /\ mappedCell [("b", "2")] "constructor"
     = "function Object() { [native code] }"
  /\ mappedCell [("b", "2")] "__proto__" = "[object Object]".
Proof. repeat split; reflexivity. Qed.

End InheritedNames.
